(** * email-flow-automator: the scheduling routes of [src/server/server.js]

    A shallow embedding of the three pieces of the server that decide when an
    e-mail job runs:

    - [POST /api/schedule-email] and the helper [scheduleEmail]
      (server.js 768-876 and 1101-1153),
    - [POST /api/schedule-sequence], immediate and deferred mode
      (server.js 886-1094),
    - the job-health sweep installed with [setInterval] (server.js 1166-1202).

    Modelling conventions.

    - A JavaScript [Date] is its time value: milliseconds since the epoch, in
      [Z], or [None] for an Invalid Date where the code can build one (an
      unreadable [startDate], a [NaN] hour, a result beyond the range of
      [TimeClip]).  Local time follows the host's time zone, a [Zone]: the
      offset in force at an instant and the offset by which a local time is
      read, which differ around a clock change the way ECMAScript prescribes
      (a skipped or repeated local time is read with the offset in force
      before the change).  The setters that work on local fields ([setHours],
      [setDate], [setMinutes]) go through both.
    - Numbers are integers, and integer arithmetic is exact, as it is for
      doubles below 2^53.  [Math.random()] is the double [k / 2^53] with
      [k = bits mod 2^53]; its product with an integer is rounded to the
      nearest double, ties to even, before [Math.floor].  Strings are ASCII
      text; [Number] reads the spellings of ECMAScript (blanks, signs,
      fractions, exponents, hexadecimal, octal and binary) and yields the
      integer they denote, if they denote one.
    - [new Date()], the random bits and the outcome of every [agenda.schedule]
      call and of the database calls made after it are read from a [World],
      indexed by the position of the sequence item being handled.  A clock
      reading is a valid date, far enough from the ends of the Date range for
      the minute added in immediate mode to stay inside it.
    - The Mongo collection [emailJobs] is a list of job documents carried in
      the server state; a thrown exception keeps the state reached so far.
    - The fields of a request body have the JSON types the client sends, and
      each handler call runs alone unless a property says otherwise. *)

From Stdlib Require Import ZArith List String Ascii Bool Lia Sorted DecimalString.
Import ListNotations.
Local Open Scope string_scope.
Local Open Scope list_scope.
Local Open Scope Z_scope.

(** ** JavaScript primitives *)

Definition msPerMinute : Z := 60000.
Definition msPerHour : Z := 3600000.
Definition msPerDay : Z := 86400000.

(** [a || b] on optional strings: the empty string and [undefined] are falsy. *)
Definition truthy (v : option string) : bool :=
  match v with
  | Some s => negb (String.eqb s "")
  | None => false
  end.

Definition orElse (v : option string) (d : string) : option string :=
  if truthy v then v else Some d.

(** [String.prototype.toLowerCase] on the ASCII letters. *)
Definition lowerAscii (c : ascii) : ascii :=
  let n := nat_of_ascii c in
  if (Nat.leb 65 n && Nat.leb n 90)%bool then ascii_of_nat (n + 32) else c.

Fixpoint toLowerCase (s : string) : string :=
  match s with
  | EmptyString => EmptyString
  | String c r => String (lowerAscii c) (toLowerCase r)
  end.

(** [s.split(':')[0]]: the text before the first colon. *)
Fixpoint firstSegment (s : string) : string :=
  match s with
  | EmptyString => EmptyString
  | String c r => if Ascii.eqb c ":" then EmptyString else String c (firstSegment r)
  end.

Definition digitValue (c : ascii) : option Z :=
  let n := nat_of_ascii c in
  if (Nat.leb 48 n && Nat.leb n 57)%bool then Some (Z.of_nat n - 48) else None.

Fixpoint decimal (s : string) (acc : Z) : option Z :=
  match s with
  | EmptyString => Some acc
  | String c r =>
      match digitValue c with
      | Some d => decimal r (10 * acc + d)
      | None => None
      end
  end.

(** [Math.floor(Math.random() * n)] with the draw given by its 53 bits. *)
Definition two53 : Z := 9007199254740992.

(** The double nearest to the integer [a], for [0 <= a] (an infinity apart):
    [a] itself when it has at most 53 bits, otherwise its 53 leading bits
    rounded to nearest, ties to even.  Over [2^53] it is the numerator of the
    double nearest to [a / 2^53]. *)
Definition roundMagnitude (a : Z) : Z :=
  if a <? two53 then a
  else
    let s := Z.log2 a - 52 in
    let q := a / 2 ^ s in
    let r := a mod 2 ^ s in
    let half := 2 ^ (s - 1) in
    let q' := if ((half <? r) || ((r =? half) && Z.odd q))%bool then q + 1 else q in
    q' * 2 ^ s.

Definition roundDouble (p : Z) : Z := Z.sgn p * roundMagnitude (Z.abs p).

Definition floorRandomTimes (bits n : Z) : Z :=
  roundDouble ((bits mod two53) * n) / two53.

(** ** [Number] of a string

    [StringToNumber] of ECMAScript on ASCII text.  The model's numbers being
    integers, the result is [Some n] when the string denotes an integer (or a
    value that rounds to one), and [None] when it denotes no number ([NaN]),
    an infinity, or a fraction.  [NaN] and the infinities behave alike
    wherever the model reads an hour: [setHours] builds an Invalid Date from
    either.  A fractional hour is outside the model. *)

(** The blanks stripped from both ends: tab, line feed, vertical tab, form
    feed, carriage return and space. *)
Definition isBlank (c : ascii) : bool :=
  let n := Z.of_nat (nat_of_ascii c) in
  (((9 <=? n) && (n <=? 13)) || (n =? 32))%bool.

Fixpoint trimStart (s : string) : string :=
  match s with
  | String c r => if isBlank c then trimStart r else s
  | EmptyString => EmptyString
  end.

Fixpoint trimEnd (s : string) : string :=
  match s with
  | String c r =>
      match trimEnd r with
      | EmptyString => if isBlank c then EmptyString else String c EmptyString
      | r' => String c r'
      end
  | EmptyString => EmptyString
  end.

(** The value of [c] as a digit in [base] (at most 16), if it is one. *)
Definition digitIn (base : Z) (c : ascii) : option Z :=
  let n := Z.of_nat (nat_of_ascii c) in
  let v := if ((48 <=? n) && (n <=? 57))%bool then n - 48
           else if ((97 <=? n) && (n <=? 102))%bool then n - 87
           else if ((65 <=? n) && (n <=? 70))%bool then n - 55
           else base in
  if v <? base then Some v else None.

Fixpoint digitsIn (base : Z) (s : string) (acc : Z) : option Z :=
  match s with
  | EmptyString => Some acc
  | String c r =>
      match digitIn base c with
      | Some d => digitsIn base r (base * acc + d)
      | None => None
      end
  end.

(** A numeral in [base]: one digit or more. *)
Definition numeral (base : Z) (s : string) : option Z :=
  match s with
  | EmptyString => None
  | _ => digitsIn base s 0
  end.

(** The leading decimal digits of [s] and what follows them. *)
Fixpoint leadingDigits (s : string) : string * string :=
  match s with
  | String c r =>
      match digitValue c with
      | Some _ => let (ds, rest) := leadingDigits r in (String c ds, rest)
      | None => (EmptyString, s)
      end
  | EmptyString => (EmptyString, EmptyString)
  end.

(** The double nearest to the integer [v], unless that is an infinity. *)
Definition finite (v : Z) : option Z :=
  let d := roundDouble v in
  if Z.abs d <? 2 ^ 1024 then Some d else None.

(** The double nearest to [m * 10^k], for [0 <= m] written with [digits]
    digits: an infinity when it is too large, 0 when it is at most half the
    smallest double, and otherwise the value itself, when it is an
    integer. *)
Definition scaled (digits : nat) (m k : Z) : option Z :=
  if m =? 0 then Some 0
  else if 0 <=? k then
    if 400 <? k then None else finite (m * 10 ^ k)
  else if Z.of_nat digits + 400 <? - k then Some 0
  else if m * 2 ^ 1075 <=? 10 ^ (- k) then Some 0
  else if m mod 10 ^ (- k) =? 0 then finite (m / 10 ^ (- k))
  else None.

(** [SignedInteger], the exponent of a decimal literal. *)
Definition signedInteger (s : string) : option Z :=
  match s with
  | String "-" r => option_map Z.opp (numeral 10 r)
  | String "+" r => numeral 10 r
  | _ => numeral 10 s
  end.

(** [StrUnsignedDecimalLiteral]: digits with an optional fraction and an
    optional exponent, a digit at least before or after the point. *)
Definition unsignedDecimal (s : string) : option Z :=
  let (ip, r1) := leadingDigits s in
  let (fp, r2) := match r1 with
                  | String "." r => leadingDigits r
                  | _ => (EmptyString, r1)
                  end in
  let expo := match r2 with
              | EmptyString => Some 0
              | String c r3 =>
                  if (Ascii.eqb c "e" || Ascii.eqb c "E")%bool then signedInteger r3
                  else None
              end in
  match (ip ++ fp)%string, expo with
  | EmptyString, _ => None
  | _, None => None
  | ds, Some e =>
      match decimal ds 0 with
      | Some m => scaled (String.length ds) m (e - Z.of_nat (String.length fp))
      | None => None
      end
  end.

(** [StrDecimalLiteral]: an optional sign before the digits. *)
Definition signedDecimal (s : string) : option Z :=
  match s with
  | String "-" r => option_map Z.opp (unsignedDecimal r)
  | String "+" r => unsignedDecimal r
  | _ => unsignedDecimal s
  end.

(** [Number(s)]: blanks stripped, the empty string is 0, then a hexadecimal,
    octal or binary literal (unsigned) or a decimal literal. *)
Definition Number (s : string) : option Z :=
  match trimEnd (trimStart s) with
  | EmptyString => Some 0
  | String "0" (String c r) as t =>
      if (Ascii.eqb c "x" || Ascii.eqb c "X")%bool then
        match numeral 16 r with Some v => finite v | None => None end
      else if (Ascii.eqb c "o" || Ascii.eqb c "O")%bool then
        match numeral 8 r with Some v => finite v | None => None end
      else if (Ascii.eqb c "b" || Ascii.eqb c "B")%bool then
        match numeral 2 r with Some v => finite v | None => None end
      else signedDecimal t
  | t => signedDecimal t
  end.

(** ** Dates and the host time zone *)

(** The largest time value a [Date] holds; [TimeClip] turns anything beyond
    it into [NaN]. *)
Definition maxTime : Z := 8640000000000000.

Definition TimeClip (t : Z) : option Z :=
  if Z.abs t <=? maxTime then Some t else None.

(** The host time zone.  [offsetAt t] is the offset of local time from UTC, in
    milliseconds, in force at the instant [t] ([LocalTZA(t, true)]);
    [offsetOfLocal tl] is the offset by which the local time [tl] is turned
    back into an instant ([LocalTZA(tl, false)]). *)
Record Zone := {
  offsetAt : Z -> Z;
  offsetOfLocal : Z -> Z
}.

(** A zone that keeps one offset, such as UTC. *)
Definition fixedZone (tz : Z) : Zone :=
  {| offsetAt := fun _ => tz; offsetOfLocal := fun _ => tz |}.

Definition utc : Zone := fixedZone 0.

(** A zone whose clocks change once, at the instant [change], from the offset
    [before] to the offset [after].  A local time that the change skips
    ([before < after]) or repeats ([after < before]) is read with the offset
    in force before the change. *)
Definition zoneWithChange (before after change : Z) : Zone :=
  {| offsetAt := fun t => if t <? change then before else after;
     offsetOfLocal := fun tl =>
       if tl <? change + Z.max before after then before else after |}.

Section LocalTime.

Variable z : Zone.

(** [LocalTime(t)] and [UTC(tl)]. *)
Definition localTime (t : Z) : Z := t + offsetAt z t.
Definition utcOf (tl : Z) : Z := tl - offsetOfLocal z tl.

(** Number of the local calendar day (days since 1970-01-01). *)
Definition localDay (t : Z) : Z := localTime t / msPerDay.

(** [Date.prototype.getDay]: 0 is Sunday; 1970-01-01 was a Thursday. *)
Definition getDay (t : Z) : Z := (localDay t + 4) mod 7.

Definition getHours (t : Z) : Z := (localTime t / msPerHour) mod 24.

Definition getMinutes (t : Z) : Z := (localTime t / msPerMinute) mod 60.

Definition getSeconds (t : Z) : Z := (localTime t / 1000) mod 60.

Definition getMilliseconds (t : Z) : Z := localTime t mod 1000.

(** [d.setHours(h, m, s, ms)] on a valid date: the local day of [d] at the
    given time of day, read back as an instant and clipped; components out
    of range carry into the neighbouring days. *)
Definition setHours (t h m s ms : Z) : option Z :=
  TimeClip
    (utcOf (localDay t * msPerDay + h * msPerHour + m * msPerMinute + s * 1000 + ms)).

(** [d.setDate(d.getDate() + k)], [d.setHours(d.getHours() + k)] and
    [d.setMinutes(d.getMinutes() + k)] on a valid date: the local time moved
    by whole days, hours or minutes (the setter carries the overflow of the
    field into the higher ones), read back as an instant and clipped. *)
Definition addDays (t k : Z) : option Z :=
  TimeClip (utcOf (localTime t + k * msPerDay)).
Definition addHours (t k : Z) : option Z :=
  TimeClip (utcOf (localTime t + k * msPerHour)).
Definition addMinutes (t k : Z) : option Z :=
  TimeClip (utcOf (localTime t + k * msPerMinute)).

End LocalTime.

(** [d.setDate(d.getDate() + 1)] on a date that may be invalid, and the same
    step taken [k] times. *)
Definition nextDay (z : Zone) (c : option Z) : option Z :=
  match c with
  | Some t => addDays z t 1
  | None => None
  end.

Definition stepDays (z : Zone) (k : nat) (c : option Z) : option Z :=
  Nat.iter k (nextDay z) c.

(** ** Data model *)

(** The [data] object of a flow node. *)
Record ItemData := {
  recipient : option string;
  subject : option string;
  body : option string
}.

(** One element of [req.body.sequence]. *)
Record Item := {
  item_id : string;
  type : string;
  data : option ItemData
}.

(** [req.body.schedulingOptions]; every field may be absent.  [startDate] is
    held as the time value [new Date(startDate)] gives it, [None] when the
    field does not denote a date (an Invalid Date). *)
Record SchedulingOptions := {
  startDate : option (option Z);
  fromTime : option string;
  toTime : option string;
  days : option (list string)
}.

(** The [options] object after the defaults have been spread in. *)
Record Options := {
  o_startDate : option Z;
  o_fromTime : string;
  o_toTime : string;
  o_days : list string
}.

Record Request := {
  sequence : list Item;
  schedulingOptions : option SchedulingOptions;
  sendNow : bool;
  userId : string
}.

(** Payload of a ['send email'] job. *)
Record JobData := {
  to : option string;
  job_subject : option string;
  job_body : option string;
  job_userId : string
}.

(** A document of the [emailJobs] collection. *)
Record Job := {
  _id : Z;
  name : string;
  jobData : JobData;
  nextRunAt : option Z;
  lockedAt : option Z
}.

(** An element of the [scheduledEmails] array of the response. *)
Record Entry := {
  email : option string;
  entry_subject : option string;
  scheduledFor : Z
}.

Inductive Body :=
| ErrorBody (error : string) (message details : option string)
| SequenceBody (message : string) (scheduledEmails : list Entry)
    (usedOptions : option Options)
| EmailBody (message : string) (scheduledFor : Z) (jobId : Z).

Record Response := {
  status : Z;
  json : Body
}.

(** Module-level state of the server process. *)
Record Server := {
  agenda : bool;              (* [agenda] is not undefined *)
  agendaInitialized : bool;
  mongoReachable : bool;      (* [connectToDatabase()] resolves *)
  emailConfigured : bool;     (* EMAIL_USER and EMAIL_PASS are set *)
  transporter : bool;         (* [transporter] is not null *)
  transporterInitOk : bool;   (* [initializeTransporter()] returns true *)
  emailJobs : list Job
}.

(** What [jobsCollection.findOne] answers when the single-email route looks
    up the job it has just scheduled. *)
Inductive Lookup :=
| Found
| Missing
| LookupFails (errName : string).

(** What the environment answers while one sequence item (or one single-email
    request) is handled.  An outcome [None] means the call resolved;
    [Some n] means it rejected with an error whose [name] is [n].
    [verifyConnect] and [verifyFind] are the two database calls the
    single-email route makes after the job is stored. *)
Record ItemWorld := {
  hourBits : Z;
  minuteBits : Z;
  clock : Z;
  firstSchedule : option string;
  retrySchedule : option string;
  verifyConnect : option string;
  verifyFind : Lookup
}.

Record World := {
  requestClock : Z;             (* [new Date()] when the defaults are built *)
  sweepClock : Z;               (* [Date.now()] of a monitor sweep *)
  atItem : nat -> ItemWorld
}.

(** A statement either completes or throws; the state reached is kept. *)
Inductive Completion (S : Type) :=
| Normal (s : S)
| Throw (errName : string) (s : S).
Arguments Normal {S} s.
Arguments Throw {S} errName s.

Definition setJobs (srv : Server) (js : list Job) : Server :=
  {| agenda := agenda srv; agendaInitialized := agendaInitialized srv;
     mongoReachable := mongoReachable srv; emailConfigured := emailConfigured srv;
     transporter := transporter srv; transporterInitOk := transporterInitOk srv;
     emailJobs := js |}.

Definition setAgenda (srv : Server) (a i : bool) : Server :=
  {| agenda := a; agendaInitialized := i;
     mongoReachable := mongoReachable srv; emailConfigured := emailConfigured srv;
     transporter := transporter srv; transporterInitOk := transporterInitOk srv;
     emailJobs := emailJobs srv |}.

Definition setTransporter (srv : Server) (t : bool) : Server :=
  {| agenda := agenda srv; agendaInitialized := agendaInitialized srv;
     mongoReachable := mongoReachable srv; emailConfigured := emailConfigured srv;
     transporter := t; transporterInitOk := transporterInitOk srv;
     emailJobs := emailJobs srv |}.

(** [initializeAgenda()]: reuses an initialised instance, otherwise connects,
    builds and starts a new one; a failure clears the flag and is rethrown. *)
Definition initializeAgenda (srv : Server) : Completion Server :=
  if (agenda srv && agendaInitialized srv)%bool then Normal srv
  else if mongoReachable srv then Normal (setAgenda srv true true)
  else Throw "MongoNetworkError" (setAgenda srv (agenda srv) false).

(** [agenda.schedule(when, 'send email', data)]: on success a new unlocked job
    document is stored; on failure nothing is stored. *)
Definition newJob (jobs : list Job) (when : Z) (d : JobData) : Job :=
  {| _id := Z.of_nat (List.length jobs); name := "send email"; jobData := d;
     nextRunAt := Some when; lockedAt := None |}.

Definition agendaSchedule (outcome : option string) (when : Z) (d : JobData)
    (srv : Server) : Completion Server :=
  match outcome with
  | None => Normal (setJobs srv (emailJobs srv ++ [newJob (emailJobs srv) when d]))
  | Some n => Throw n srv
  end.

(** [connectToDatabase()]. *)
Definition connectToDatabase (srv : Server) : Completion Server :=
  if mongoReachable srv then Normal srv else Throw "MongoServerSelectionError" srv.

(** The guard that opens every scheduling route:
    [if (!agenda || !agendaInitialized) await initializeAgenda()]. *)
Definition ensureAgenda (srv : Server) : Completion Server :=
  if (negb (agenda srv) || negb (agendaInitialized srv))%bool
  then initializeAgenda srv else Normal srv.

(** ** Scheduling a single e-mail *)

(** Body of [POST /api/schedule-email] and argument of [scheduleEmail]. *)
Record EmailRequest := {
  e_to : option string;
  e_subject : option string;
  e_body : option string;
  e_delay : Z;
  e_unit : option string;
  e_userId : string
}.

(** server.js 798-805 and 1111-1118: [let sendTime = new Date()] followed by
    the three-way test on [unit]; each branch moves the date through a setter
    of local fields.  [None] is an Invalid Date. *)
Definition computeSendTime (z : Zone) (now : Z) (delay : Z) (unit : option string)
    : option Z :=
  match unit with
  | Some u =>
      if String.eqb u "minutes" then addMinutes z now delay
      else if String.eqb u "hours" then addHours z now delay
      else if String.eqb u "days" then addDays z now delay
      else Some now
  | None => Some now
  end.

Definition emailJobData (req : EmailRequest) : JobData :=
  {| to := e_to req; job_subject := e_subject req; job_body := e_body req;
     job_userId := e_userId req |}.

Definition failed (code : Z) (msg : string) (details : option string) : Response :=
  {| status := code; json := ErrorBody msg None details |}.

(** The [catch] of the inner [try], server.js 845-870: an error named
    [MongoNotConnectedError] makes the route initialise agenda again and
    schedule once more; any other error is rethrown to the outer [catch]. *)
Definition retryEmail (iw : ItemWorld) (sendTime : Z) (req : EmailRequest)
    (n : string) (srv : Server) : Response * Server :=
  if String.eqb n "MongoNotConnectedError" then
    match initializeAgenda srv with
    | Throw n' srv1 => (failed 500 "Failed to schedule email" (Some n'), srv1)
    | Normal srv1 =>
        let jobId' := Z.of_nat (List.length (emailJobs srv1)) in
        match agendaSchedule (retrySchedule iw) sendTime (emailJobData req) srv1 with
        | Normal srv2 =>
            ({| status := 200;
                json := EmailBody "Email scheduled successfully after reconnection"
                          sendTime jobId' |}, srv2)
        | Throw n' srv2 => (failed 500 "Failed to schedule email" (Some n'), srv2)
        end
    end
  else (failed 500 "Failed to schedule email" (Some n), srv).

(** The route handler, server.js 768-876.  An Invalid Date makes
    [sendTime.toISOString()] (line 807) throw a [RangeError], which the outer
    [catch] answers.  After the job is stored the route connects again and
    looks the job up (lines 832-839); a failure there is handled by the same
    [catch] as a failure of the scheduling call. *)
Definition scheduleEmailRoute (z : Zone) (srv : Server) (iw : ItemWorld)
    (req : EmailRequest) : Response * Server :=
  if negb (emailConfigured srv) then
    (failed 500 "Email configuration is missing"
       (Some "The server is not configured with valid email credentials"), srv)
  else
    match ensureAgenda srv with
    | Throw n srv1 => (failed 500 "Failed to schedule email" (Some n), srv1)
    | Normal srv1 =>
        if negb (agenda srv1) then
          (failed 503 "Scheduling service is not available" None, srv1)
        else
          match computeSendTime z (clock iw) (e_delay req) (e_unit req) with
          | None => (failed 500 "Failed to schedule email" (Some "RangeError"), srv1)
          | Some sendTime =>
              match connectToDatabase srv1 with
              | Throw n srv2 => retryEmail iw sendTime req n srv2
              | Normal srv2 =>
                  if (negb (transporter srv2) && negb (transporterInitOk srv2))%bool then
                    (failed 500 "Failed to initialize email service" None, srv2)
                  else
                    let srv3 := setTransporter srv2 true in
                    let jobId := Z.of_nat (List.length (emailJobs srv3)) in
                    match agendaSchedule (firstSchedule iw) sendTime
                            (emailJobData req) srv3 with
                    | Throw n srv4 => retryEmail iw sendTime req n srv4
                    | Normal srv4 =>
                        match verifyConnect iw with
                        | Some n => retryEmail iw sendTime req n srv4
                        | None =>
                            match verifyFind iw with
                            | LookupFails n => retryEmail iw sendTime req n srv4
                            | Missing =>
                                (failed 500 "Failed to verify job was scheduled" None,
                                 srv4)
                            | Found =>
                                ({| status := 200;
                                    json := EmailBody "Email scheduled successfully"
                                              sendTime jobId |}, srv4)
                            end
                        end
                    end
              end
          end
    end.

(** Result of the helper: [{ scheduledFor, reconnected }] or an exception. *)
Inductive HelperResult :=
| Scheduled (scheduledFor : Z) (reconnected : bool) (srv : Server)
| Raised (errName : string) (srv : Server).

(** The helper [scheduleEmail], server.js 1101-1153.  Unlike the route it
    hands its date to [agenda.schedule] unread.  What agenda does with an
    Invalid Date is a matter of that library: it is taken here to reject the
    call with a [TypeError] (the date it cannot read goes to its parser of
    date texts). *)
Definition scheduleEmail (z : Zone) (srv : Server) (iw : ItemWorld)
    (req : EmailRequest) : HelperResult :=
  match ensureAgenda srv with
  | Throw n srv1 => Raised n srv1
  | Normal srv1 =>
      if negb (agenda srv1) then Raised "Error" srv1
      else
        let retry (sendTime : option Z) (n : string) (srv2 : Server) :=
          if String.eqb n "MongoNotConnectedError" then
            match initializeAgenda srv2 with
            | Throw n' srv3 => Raised n' srv3
            | Normal srv3 =>
                match sendTime with
                | None => Raised "TypeError" srv3
                | Some t =>
                    match agendaSchedule (retrySchedule iw) t (emailJobData req) srv3 with
                    | Normal srv4 => Scheduled t true srv4
                    | Throw n' srv4 => Raised n' srv4
                    end
                end
            end
          else Raised n srv2 in
        let sendTime := computeSendTime z (clock iw) (e_delay req) (e_unit req) in
        match connectToDatabase srv1 with
        | Throw n srv2 => retry sendTime n srv2
        | Normal srv2 =>
            match sendTime with
            | None => retry sendTime "TypeError" srv2
            | Some t =>
                match agendaSchedule (firstSchedule iw) t (emailJobData req) srv2 with
                | Normal srv3 => Scheduled t false srv3
                | Throw n srv3 => retry sendTime n srv3
                end
            end
        end
  end.

(** ** Scheduling a sequence *)

Definition ok200 (msg : string) (es : list Entry) (o : option Options) : Response :=
  {| status := 200; json := SequenceBody msg es o |}.

Definition sequenceFailed : Response :=
  {| status := 500; json := ErrorBody "Failed to schedule sequence" None None |}.

(** *** Immediate mode, server.js 902-993 *)

Record ImmediateState := {
  hasValidEmails : bool;
  hasMissingRecipients : bool;
  sentEmails : list Entry;
  im_server : Server
}.

(** [item.data?.recipient] *)
Definition optRecipient (item : Item) : option string :=
  match data item with
  | Some d => recipient d
  | None => None
  end.

(** The time given to an immediate job, server.js 929-930: [new Date()]
    followed by [setMinutes(getMinutes() + 1)], which moves the local time by
    one minute and reads it back as an instant.  The clock being far from the
    ends of the Date range, [TimeClip] leaves the result as it is. *)
Definition immediateSendTime (z : Zone) (now : Z) : Z :=
  utcOf z (localTime z now + msPerMinute).

Definition immediateItem (z : Zone) (uid : string) (iw : ItemWorld) (item : Item)
    (st : ImmediateState) : Completion ImmediateState :=
  if String.eqb (type item) "coldEmail" then
    if negb (truthy (optRecipient item)) then
      Normal {| hasValidEmails := hasValidEmails st; hasMissingRecipients := true;
                sentEmails := sentEmails st; im_server := im_server st |}
    else
      let subj := match data item with Some d => subject d | None => None end in
      let bdy := match data item with Some d => body d | None => None end in
      let sendTime := immediateSendTime z (clock iw) in
      let d := {| to := optRecipient item; job_subject := orElse subj "No Subject";
                  job_body := orElse bdy ""; job_userId := uid |} in
      let e := {| email := optRecipient item; entry_subject := orElse subj "No Subject";
                  scheduledFor := sendTime |} in
      let done (es : list Entry) (srv : Server) :=
        {| hasValidEmails := true; hasMissingRecipients := hasMissingRecipients st;
           sentEmails := es; im_server := srv |} in
      match agendaSchedule (firstSchedule iw) sendTime d (im_server st) with
      | Normal srv1 => Normal (done (sentEmails st ++ [e]) srv1)
      | Throw n srv1 =>
          if String.eqb n "MongoNotConnectedError" then
            match initializeAgenda srv1 with
            | Throw n' srv2 => Throw n' (done (sentEmails st) srv2)
            | Normal srv2 =>
                match agendaSchedule (retrySchedule iw) sendTime d srv2 with
                | Normal srv3 => Normal (done (sentEmails st ++ [e]) srv3)
                | Throw _ srv3 => Normal (done (sentEmails st) srv3)
                end
            end
          else Normal (done (sentEmails st) srv1)
      end
  else Normal st.

(** [for (const item of sequence)]; [i] is the position of the head of
    [items] in the sequence. *)
Fixpoint immediateLoop (z : Zone) (uid : string) (w : World) (i : nat)
    (items : list Item) (st : ImmediateState) : Completion ImmediateState :=
  match items with
  | [] => Normal st
  | item :: rest =>
      match immediateItem z uid (atItem w i) item st with
      | Normal st1 => immediateLoop z uid w (S i) rest st1
      | Throw n st1 => Throw n st1
      end
  end.

Definition noRecipientsMessage : string :=
  "None of your email nodes have recipient addresses. Please add recipient email addresses to your nodes.".

Definition noEmailNodesMessage : string :=
  "No valid email nodes found in the sequence.".

Definition immediateMode (z : Zone) (srv : Server) (w : World) (req : Request)
    : Response * Server :=
  match connectToDatabase srv with
  | Throw _ srv1 => (sequenceFailed, srv1)
  | Normal srv1 =>
      match immediateLoop z (userId req) w 0 (sequence req)
              {| hasValidEmails := false; hasMissingRecipients := false;
                 sentEmails := []; im_server := srv1 |} with
      | Throw _ st => (sequenceFailed, im_server st)
      | Normal st =>
          if negb (hasValidEmails st) then
            ({| status := 400;
                json := ErrorBody
                  (if hasMissingRecipients st then noRecipientsMessage
                   else noEmailNodesMessage)
                  (Some "Failed to send emails") None |}, im_server st)
          else (ok200 "Sequence sent successfully" (sentEmails st) None, im_server st)
      end
  end.

(** *** Deferred mode, server.js 995-1089 *)

(** The defaults, overridden by whatever [schedulingOptions] carries; the
    start date is then passed through [new Date(...)]. *)
Definition normalizeOptions (now : Z) (so : option SchedulingOptions) : Options :=
  let pick {A} (f : SchedulingOptions -> option A) (d : A) : A :=
    match so with
    | Some o => match f o with Some v => v | None => d end
    | None => d
    end in
  {| o_startDate := pick startDate (Some now);
     o_fromTime := pick fromTime "09:00";
     o_toTime := pick toTime "17:00";
     o_days := pick days ["monday"; "tuesday"; "wednesday"; "thursday"; "friday"] |}.

(** [const [h] = time.split(':').map(Number)] *)
Definition parseHour (time : string) : option Z := Number (firstSegment time).

(** The object literal [dayMap]; a name that is not a key yields [undefined]. *)
Definition dayMap (day : string) : option Z :=
  if String.eqb day "sunday" then Some 0
  else if String.eqb day "monday" then Some 1
  else if String.eqb day "tuesday" then Some 2
  else if String.eqb day "wednesday" then Some 3
  else if String.eqb day "thursday" then Some 4
  else if String.eqb day "friday" then Some 5
  else if String.eqb day "saturday" then Some 6
  else None.

Definition scheduleDays (ds : list string) : list (option Z) :=
  map (fun day => dayMap (toLowerCase day)) ds.

(** [scheduleDays.includes(dayOfWeek)] *)
Definition includes (sd : list (option Z)) (dayOfWeek : Z) : bool :=
  existsb (fun v => match v with Some d => d =? dayOfWeek | None => false end) sd.

(** [Math.floor(Math.random() * (toHour - fromHour + 1)) + fromHour] *)
Definition randomHour (fh th : Z) (iw : ItemWorld) : Z :=
  floorRandomTimes (hourBits iw) (th - fh + 1) + fh.

(** [Math.floor(Math.random() * 60)] *)
Definition randomMinute (iw : ItemWorld) : Z :=
  floorRandomTimes (minuteBits iw) 60.

Record DeferredState := {
  currentDate : option Z;
  scheduledEmails : list Entry;
  d_server : Server
}.

Definition withCursor (st : DeferredState) (c : option Z) : DeferredState :=
  {| currentDate := c; scheduledEmails := scheduledEmails st;
     d_server := d_server st |}.

Section Deferred.

Variable z : Zone.
Variable uid : string.
Variable fromHour toHour : option Z.
Variable sd : list (option Z).

(** The branch taken on an eligible day (server.js 1043-1072): draw a time,
    and schedule only if it is in the future.  With a [NaN] hour, or a time
    beyond the Date range, the send time is an Invalid Date and the
    comparison is false. *)
Definition scheduleOnDay (iw : ItemWorld) (item : Item) (st : DeferredState)
    : Completion DeferredState :=
  match currentDate st, fromHour, toHour with
  | Some c, Some fh, Some th =>
      match setHours z c (randomHour fh th iw) (randomMinute iw) 0 0 with
      | Some sendTime =>
          if clock iw <? sendTime then
            match data item with
            | None => Throw "TypeError" st
            | Some d =>
                match agendaSchedule (firstSchedule iw) sendTime
                        {| to := recipient d; job_subject := subject d;
                           job_body := body d; job_userId := uid |} (d_server st) with
                | Normal srv1 =>
                    Normal {| currentDate := addDays z c 1;
                              scheduledEmails := scheduledEmails st ++
                                [{| email := recipient d; entry_subject := subject d;
                                    scheduledFor := sendTime |}];
                              d_server := srv1 |}
                | Throw n srv1 =>
                    Throw n {| currentDate := currentDate st;
                               scheduledEmails := scheduledEmails st;
                               d_server := srv1 |}
                end
            end
          else Normal st
      | None => Normal st
      end
  | _, _, _ => Normal st
  end.

(** [while (!foundValidDay && daysChecked < 14)]; [left] is [14 - daysChecked].
    On an Invalid Date [getDay()] is [NaN], which no entry of [scheduleDays]
    equals, and [setDate] leaves the date invalid. *)
Fixpoint findValidDay (left : nat) (iw : ItemWorld) (item : Item)
    (st : DeferredState) : Completion DeferredState :=
  match left with
  | O => Normal st
  | S left' =>
      match currentDate st with
      | Some c =>
          if includes sd (getDay z c) then scheduleOnDay iw item st
          else findValidDay left' iw item (withCursor st (addDays z c 1))
      | None => findValidDay left' iw item st
      end
  end.

Definition deferredItem (iw : ItemWorld) (item : Item) (st : DeferredState)
    : Completion DeferredState :=
  if String.eqb (type item) "coldEmail" then findValidDay 14 iw item st
  else Normal st.

Fixpoint deferredLoop (w : World) (i : nat) (items : list Item)
    (st : DeferredState) : Completion DeferredState :=
  match items with
  | [] => Normal st
  | item :: rest =>
      match deferredItem (atItem w i) item st with
      | Normal st1 => deferredLoop w (S i) rest st1
      | Throw n st1 => Throw n st1
      end
  end.

End Deferred.

Definition deferredRun (z : Zone) (srv : Server) (w : World) (req : Request)
    : Completion DeferredState :=
  let options := normalizeOptions (requestClock w) (schedulingOptions req) in
  deferredLoop z (userId req) (parseHour (o_fromTime options))
    (parseHour (o_toTime options)) (scheduleDays (o_days options)) w 0
    (sequence req)
    {| currentDate := o_startDate options; scheduledEmails := [];
       d_server := srv |}.

Definition deferredMode (z : Zone) (srv : Server) (w : World) (req : Request)
    : Response * Server :=
  match deferredRun z srv w req with
  | Throw _ st => (sequenceFailed, d_server st)
  | Normal st =>
      (ok200 "Sequence scheduled successfully" (scheduledEmails st)
         (Some (normalizeOptions (requestClock w) (schedulingOptions req))),
       d_server st)
  end.

(** The route handler [POST /api/schedule-sequence], server.js 886-1094. *)
Definition scheduleSequenceRoute (z : Zone) (srv : Server) (w : World) (req : Request)
    : Response * Server :=
  match ensureAgenda srv with
  | Throw _ srv1 => (sequenceFailed, srv1)
  | Normal srv1 =>
      if negb (agenda srv1) then
        ({| status := 503;
            json := ErrorBody "Scheduling service is not available" None None |}, srv1)
      else if sendNow req then immediateMode z srv1 w req
      else deferredMode z srv1 w req
  end.

(** ** The job-health monitor, server.js 1166-1202 *)

Definition countDocuments (query : Job -> bool) (jobs : list Job) : nat :=
  List.length (filter query jobs).

Definition updateMany (query : Job -> bool) (update : Job -> Job)
    (jobs : list Job) : list Job :=
  map (fun j => if query j then update j else j) jobs.

(** [{ nextRunAt: { $ne: null }, lockedAt: null }] *)
Definition isPending (j : Job) : bool :=
  match nextRunAt j, lockedAt j with
  | Some _, None => true
  | _, _ => false
  end.

(** [{ lockedAt: { $ne: null } }] *)
Definition isLocked (j : Job) : bool :=
  match lockedAt j with Some _ => true | None => false end.

(** [{ lockedAt: { $lt: t } }]: a date comparison, which [null] never passes. *)
Definition lockedBefore (t : Z) (j : Job) : bool :=
  match lockedAt j with Some l => l <? t | None => false end.

(** [{ $set: { lockedAt: null } }] *)
Definition unlock (j : Job) : Job :=
  {| _id := _id j; name := name j; jobData := jobData j;
     nextRunAt := nextRunAt j; lockedAt := None |}.

(** One run of the interval callback. *)
Definition monitorSweep (srv : Server) (w : World) : Server :=
  if (agenda srv && agendaInitialized srv)%bool then
    match connectToDatabase srv with
    | Throw _ srv1 => srv1
    | Normal srv1 =>
        let jobs := emailJobs srv1 in
        let pendingJobs := countDocuments isPending jobs in
        let lockedJobs := countDocuments isLocked jobs in
        if Nat.ltb 0 lockedJobs then
          let fiveMinutesAgo := sweepClock w - 5 * 60 * 1000 in
          setJobs srv1 (updateMany (lockedBefore fiveMinutesAgo) unlock jobs)
        else srv1
    end
  else srv.

(** ** Vocabulary of the properties *)

(** The state a statement leaves behind, however it ended. *)
Definition stateOf {S : Type} (c : Completion S) : S :=
  match c with
  | Normal s => s
  | Throw _ s => s
  end.

Definition isColdEmail (item : Item) : bool := String.eqb (type item) "coldEmail".

(** An item the immediate mode accepts: a cold e-mail with a recipient. *)
Definition isEligible (item : Item) : bool :=
  (isColdEmail item && truthy (optRecipient item))%bool.

(** The [scheduledEmails] array of a response (empty for an error body). *)
Definition responseEntries (r : Response) : list Entry :=
  match json r with
  | SequenceBody _ es _ => es
  | _ => []
  end.

(** The [error] text of a response, if it is an error body. *)
Definition responseError (r : Response) : option string :=
  match json r with
  | ErrorBody e _ _ => Some e
  | _ => None
  end.

(** A time string whose hour part is an hour of the day. *)
Definition isHourOfDay (time : string) : bool :=
  match parseHour time with
  | Some h => ((0 <=? h) && (h <=? 23))%bool
  | None => false
  end.

(** The day on which the search of [findValidDay] stops, when it finds an
    allowed weekday within [left] days of the cursor [c]. *)
Fixpoint firstEligible (z : Zone) (sd : list (option Z)) (left : nat) (c : option Z)
    : option Z :=
  match left, c with
  | S left', Some t =>
      if includes sd (getDay z t) then Some t
      else firstEligible z sd left' (addDays z t 1)
  | _, _ => None
  end.

(** The send time drawn for a cursor resting on day [c]; [None] when the
    result is beyond the Date range. *)
Definition sendTimeOn (z : Zone) (fh th : Z) (iw : ItemWorld) (c : Z) : option Z :=
  setHours z c (randomHour fh th iw) (randomMinute iw) 0 0.

(** What an entry and a sequence item say about the message. *)
Definition entryKey (e : Entry) : option string * option string :=
  (email e, entry_subject e).

Definition itemKey (item : Item) : option string * option string :=
  match data item with
  | Some d => (recipient d, subject d)
  | None => (None, None)
  end.

(** The entry and the job the deferred mode records for item data [d]. *)
Definition deferredEntry (d : ItemData) (sendTime : Z) : Entry :=
  {| email := recipient d; entry_subject := subject d; scheduledFor := sendTime |}.

Definition deferredJobData (uid : string) (d : ItemData) : JobData :=
  {| to := recipient d; job_subject := subject d; job_body := body d;
     job_userId := uid |}.

(** The ways one sequence item can leave the deferred loop, as a relation
    between the state before and the completion after. *)
Inductive ItemStep (z : Zone) (uid : string) (fromHour toHour : option Z)
    (sd : list (option Z)) (iw : ItemWorld) (item : Item) (st : DeferredState)
    : Completion DeferredState -> Prop :=
| StepOther :
    isColdEmail item = false ->
    ItemStep z uid fromHour toHour sd iw item st (Normal st)
| StepNoDay :
    isColdEmail item = true ->
    firstEligible z sd 14 (currentDate st) = None ->
    ItemStep z uid fromHour toHour sd iw item st
      (Normal (withCursor st (stepDays z 14 (currentDate st))))
| StepNaN c :
    isColdEmail item = true ->
    firstEligible z sd 14 (currentDate st) = Some c ->
    fromHour = None \/ toHour = None ->
    ItemStep z uid fromHour toHour sd iw item st (Normal (withCursor st (Some c)))
| StepPast c fh th :
    isColdEmail item = true ->
    firstEligible z sd 14 (currentDate st) = Some c ->
    fromHour = Some fh -> toHour = Some th ->
    (forall t, sendTimeOn z fh th iw c = Some t -> t <= clock iw) ->
    ItemStep z uid fromHour toHour sd iw item st (Normal (withCursor st (Some c)))
| StepNoData c fh th t :
    isColdEmail item = true ->
    firstEligible z sd 14 (currentDate st) = Some c ->
    fromHour = Some fh -> toHour = Some th ->
    sendTimeOn z fh th iw c = Some t ->
    clock iw < t ->
    data item = None ->
    ItemStep z uid fromHour toHour sd iw item st
      (Throw "TypeError" (withCursor st (Some c)))
| StepRejected c fh th t d n :
    isColdEmail item = true ->
    firstEligible z sd 14 (currentDate st) = Some c ->
    fromHour = Some fh -> toHour = Some th ->
    sendTimeOn z fh th iw c = Some t ->
    clock iw < t ->
    data item = Some d ->
    firstSchedule iw = Some n ->
    ItemStep z uid fromHour toHour sd iw item st (Throw n (withCursor st (Some c)))
| StepScheduled c fh th t d :
    isColdEmail item = true ->
    firstEligible z sd 14 (currentDate st) = Some c ->
    fromHour = Some fh -> toHour = Some th ->
    sendTimeOn z fh th iw c = Some t ->
    clock iw < t ->
    data item = Some d ->
    firstSchedule iw = None ->
    ItemStep z uid fromHour toHour sd iw item st
      (Normal {| currentDate := addDays z c 1;
                 scheduledEmails := scheduledEmails st ++ [deferredEntry d t];
                 d_server := setJobs (d_server st)
                   (emailJobs (d_server st) ++
                    [newJob (emailJobs (d_server st)) t (deferredJobData uid d)]) |}).

(** The local calendar day an entry is scheduled for. *)
Definition entryDay (z : Zone) (e : Entry) : Z := localDay z (scheduledFor e).

(** An entry whose time was drawn while the cursor rested on an allowed day. *)
Definition drawnOnAllowedDay (z : Zone) (fromHour toHour : option Z)
    (sd : list (option Z)) (e : Entry) : Prop :=
  exists fh th iw c,
    fromHour = Some fh /\ toHour = Some th /\
    includes sd (getDay z c) = true /\
    sendTimeOn z fh th iw c = Some (scheduledFor e).

(** The entries are on strictly increasing days, all before the cursor while
    the cursor is a valid date. *)
Definition datesAscend (z : Zone) (st : DeferredState) : Prop :=
  StronglySorted Z.lt (map (entryDay z) (scheduledEmails st)) /\
  forall c, currentDate st = Some c ->
    Forall (fun e => entryDay z e < localDay z c) (scheduledEmails st).


(** Both hour bounds, when they are numbers, are hours of the day. *)
Definition hoursOfDay (fromHour toHour : option Z) : Prop :=
  forall fh th, fromHour = Some fh -> toHour = Some th ->
    0 <= fh <= 23 /\ 0 <= th <= 23.

(** The zone [z] keeps the offset [tz] from [lo] to [hi]: that offset is in
    force at every instant of the period, and every local time of the period
    is read with it.  No clock change falls in the period. *)
Definition keepsOffset (z : Zone) (tz lo hi : Z) : Prop :=
  forall t, lo <= t <= hi -> offsetAt z t = tz /\ offsetOfLocal z (t + tz) = tz.

(** The zone keeps its offset over the period a deferred run of [n] items
    can reach from the start date: from one day before it to 14 days per
    item after it.  A run from an Invalid Date reaches nothing. *)
Definition keepsOffsetDuring (z : Zone) (tz : Z) (start : option Z) (n : nat) : Prop :=
  match start with
  | Some s => keepsOffset z tz (s - msPerDay) (s + 14 * Z.of_nat n * msPerDay)
  | None => True
  end.

(** ** Concrete servers, worlds and requests *)

Definition readyServer : Server :=
  {| agenda := true; agendaInitialized := true; mongoReachable := true;
     emailConfigured := true; transporter := true; transporterInitOk := true;
     emailJobs := [] |}.

(** 2030-01-07T00:00:00Z, a Monday. *)
Definition monday2030 : Z := 21921 * msPerDay.

(** 2030-01-11T00:00:00Z, a Friday. *)
Definition friday2030 : Z := 21925 * msPerDay.

(** A world in which the clock always reads [now], every draw is made of the
    given bits and every [agenda.schedule] call resolves. *)
Definition steadyWorld (now : Z) (hbits : nat -> Z) : World :=
  {| requestClock := now; sweepClock := now;
     atItem := fun i =>
       {| hourBits := hbits i; minuteBits := 0; clock := now;
          firstSchedule := None; retrySchedule := None;
          verifyConnect := None; verifyFind := Found |} |}.

Definition coldEmailTo (n : string) (r : option string) : Item :=
  {| item_id := n; type := "coldEmail";
     data := Some {| recipient := r; subject := Some "Hello"; body := Some "Hi there" |} |}.

Definition coldEmailNoData (n : string) : Item :=
  {| item_id := n; type := "coldEmail"; data := None |}.

Definition optionsFrom (start : Z) (from to_ : string) (ds : list string)
    : option SchedulingOptions :=
  Some {| startDate := Some (Some start); fromTime := Some from; toTime := Some to_;
          days := Some ds |}.

Definition deferredRequest (items : list Item) (o : option SchedulingOptions)
    : Request :=
  {| sequence := items; schedulingOptions := o; sendNow := false; userId := "u1" |}.

Definition immediateRequest (items : list Item) : Request :=
  {| sequence := items; schedulingOptions := None; sendNow := true; userId := "u1" |}.

(** The largest value [Math.random()] can take. *)
Definition topBits : Z := two53 - 1.

(** The clock reads Sunday 2030-01-06 and every draw is the largest one. *)
Definition sundayTopWorld : World :=
  steadyWorld (monday2030 - msPerDay) (fun _ => topBits).

(** As before, but only the first item draws the largest hour. *)
Definition sundayTopThenBottomWorld : World :=
  steadyWorld (monday2030 - msPerDay) (fun i => match i with O => topBits | _ => 0 end).

Definition alice : Item := coldEmailTo "n1" (Some "alice@example.com").
Definition bob : Item := coldEmailTo "n2" (Some "bob@example.com").

(** Two e-mails, Mondays and Wednesdays, 09:00 to 17:00. *)
Definition officeHoursRequest : Request :=
  deferredRequest [alice; bob]
    (optionsFrom monday2030 "09:00" "17:00" ["Monday"; "Wednesday"]).

(** Two e-mails with the window written as the whole day, 00:00 to 24:00. *)
Definition wholeDayRequest : Request :=
  deferredRequest [alice; bob]
    (optionsFrom monday2030 "00:00" "24:00" ["monday"; "tuesday"]).


(** Monday 2030-01-07 at 10:00; the first item draws the earliest hour, the
    later ones the latest. *)
Definition mondayMorningWorld : World :=
  steadyWorld (monday2030 + 10 * msPerHour)
    (fun i => match i with O => 0 | _ => topBits end).


(** Monday 2030-01-07 at 06:00, before the default window opens. *)
Definition mondayDawnWorld : World :=
  steadyWorld (monday2030 + 6 * msPerHour) (fun _ => topBits).

(** Two e-mails and no scheduling options: every default applies. *)
Definition defaultsRequest : Request := deferredRequest [alice; bob] None.



(** A stored job for [alice], locked at [l] (or unlocked). *)
Definition jobLockedAt (n : Z) (l : option Z) : Job :=
  {| _id := n; name := "send email";
     jobData := {| to := Some "alice@example.com"; job_subject := Some "Hello";
                   job_body := Some "Hi there"; job_userId := "u1" |};
     nextRunAt := Some monday2030; lockedAt := l |}.

(** A store swept at Monday 06:00 holding a job locked six minutes before,
    one locked four minutes before, one locked exactly five minutes before
    and one that is not locked. *)
Definition sweptServer : Server :=
  setJobs readyServer
    [jobLockedAt 0 (Some (monday2030 + 6 * msPerHour - 6 * msPerMinute));
     jobLockedAt 1 (Some (monday2030 + 6 * msPerHour - 4 * msPerMinute));
     jobLockedAt 2 (Some (monday2030 + 6 * msPerHour - 5 * msPerMinute));
     jobLockedAt 3 None].

(** A single-email request whose unit is none of the three the route knows. *)
Definition weeksRequest : EmailRequest :=
  {| e_to := Some "alice@example.com"; e_subject := Some "Hello";
     e_body := Some "Hi there"; e_delay := 3; e_unit := Some "weeks";
     e_userId := "u1" |}.

(** A wait node, as the flow editor emits between e-mails. *)
Definition waitNode : Item :=
  {| item_id := "w1"; type := "waitDelay"; data := None |}.

(** A cold e-mail node whose [data] has a subject and a body but no recipient. *)
Definition noRecipient : Item := coldEmailTo "n5" None.

(** One e-mail, Fridays only, 00:00 to 24:00. *)
Definition fridayOnlyRequest : Request :=
  deferredRequest [alice] (optionsFrom friday2030 "00:00" "24:00" ["friday"]).

(** America/New_York around its two clock changes of 2030: clocks go from
    02:00 EST to 03:00 EDT on Sunday 10 March (07:00 UTC) and from 02:00 EDT
    back to 01:00 EST on Sunday 3 November (06:00 UTC). *)
Definition easternSpring2030 : Zone :=
  zoneWithChange (-5 * msPerHour) (-4 * msPerHour) (21983 * msPerDay + 7 * msPerHour).

Definition easternAutumn2030 : Zone :=
  zoneWithChange (-4 * msPerHour) (-5 * msPerHour) (22221 * msPerDay + 6 * msPerHour).

(** America/Nuuk around its clock change of spring 2030: at 01:00 UTC on
    Sunday 31 March local time goes from Saturday 23:00 (UTC-2) to Sunday
    00:00 (UTC-1), so Saturday 23:00 to 23:59 does not exist. *)
Definition nuukSpring2030 : Zone :=
  zoneWithChange (-2 * msPerHour) (-1 * msPerHour) (22004 * msPerDay + 1 * msPerHour).

(** Saturday 2030-03-30 at 10:00 in Nuuk. *)
Definition nuukSaturday : Z := 22003 * msPerDay + 12 * msPerHour.

(** Two e-mails, Saturdays and Sundays, at 23:00, from Saturday 30 March. *)
Definition lateWeekendRequest : Request :=
  deferredRequest [alice; bob]
    (optionsFrom nuukSaturday "23:00" "23:00" ["saturday"; "sunday"]).

(** One e-mail, Saturdays only, at 23:00, from Saturday 30 March. *)
Definition lateSaturdayRequest : Request :=
  deferredRequest [alice] (optionsFrom nuukSaturday "23:00" "23:00" ["saturday"]).

(** One e-mail, Sundays, at 02:00, from Sunday 2030-03-10 at 00:00 in New York. *)
Definition earlySundayRequest : Request :=
  deferredRequest [alice]
    (optionsFrom (21983 * msPerDay + 5 * msPerHour) "02:00" "02:00" ["sunday"]).

(** The clock reads Friday 2030-03-08, before either request above starts. *)
Definition earlyMarchWorld : World :=
  steadyWorld (21981 * msPerDay) (fun _ => 0).

(** The clock reads Sunday 2030-11-03 at 06:30 UTC, which is 01:30 EST, in
    the hour New York repeats. *)
Definition repeatedHourWorld : World :=
  steadyWorld (22221 * msPerDay + 6 * msPerHour + 30 * msPerMinute) (fun _ => 0).

(** ** Further vocabulary *)

(** The offsets of a zone differ by whole minutes: every zone that keeps one
    offset does, and so do the zones whose clocks change by an hour or half
    an hour. *)
Definition wholeMinuteShifts (z : Zone) : Prop :=
  forall t tl, (offsetAt z t - offsetOfLocal z tl) mod msPerMinute = 0.

(** What a stored job and a response entry say about one send: when, to whom
    and with which subject. *)
Definition jobSummary (j : Job) : option Z * option string * option string :=
  (nextRunAt j, to (jobData j), job_subject (jobData j)).

Definition entrySummary (e : Entry) : option Z * option string * option string :=
  (Some (scheduledFor e), email e, entry_subject e).

(** A job as [agenda.schedule] stores it on behalf of user [uid]. *)
Definition freshJobOf (uid : string) (j : Job) : Prop :=
  name j = "send email" /\ lockedAt j = None /\ job_userId (jobData j) = uid.

(** The store grew from [jobs0] by jobs of [uid] that match [entries]. *)
Definition recorded (uid : string) (jobs0 : list Job) (entries : list Entry)
    (srv : Server) : Prop :=
  exists added,
    emailJobs srv = jobs0 ++ added /\
    Forall (freshJobOf uid) added /\
    map jobSummary added = map entrySummary entries.

(** What the immediate mode reports for an eligible item. *)
Definition immediateKey (item : Item) : option string * option string :=
  (optRecipient item,
   orElse (match data item with Some d => subject d | None => None end) "No Subject").

(** A world in which the clock reads [now] and every scheduling call rejects
    with an error named [n]. *)
Definition rejectingWorld (now : Z) (n : string) : World :=
  {| requestClock := now; sweepClock := now;
     atItem := fun _ =>
       {| hourBits := 0; minuteBits := 0; clock := now;
          firstSchedule := Some n; retrySchedule := Some n;
          verifyConnect := None; verifyFind := Found |} |}.


(** Two e-mails with day names the server does not know. *)
Definition unknownDaysRequest : Request :=
  deferredRequest [alice; coldEmailNoData "n9"]
    (optionsFrom monday2030 "09:00" "17:00" ["mon"; "tue"; "lundi"]).

(** * The pages that call the sequence route

    [src/pages/Index.tsx] builds the sequence from the nodes on the canvas and
    the schedule page ([SchedulePage]) turns its form state into the body of
    [POST /api/schedule-sequence]. *)

(** The [data] object of a canvas node, with the fields the pages read. *)
Record NodeData := {
  nd_recipient : option string;
  nd_subject : option string;
  nd_body : option string;
  nd_delay : option Z;
  nd_unit : option string
}.

Record FlowNode := {
  n_id : string;
  n_type : string;
  n_data : option NodeData
}.

(** [getNodeDefaultData] for a node dropped on the canvas. *)
Definition getNodeDefaultData (type : string) : NodeData :=
  if String.eqb type "coldEmail" then
    {| nd_recipient := Some ""; nd_subject := Some "Introduction";
       nd_body := Some "Hello, I wanted to reach out and introduce myself...";
       nd_delay := None; nd_unit := None |}
  else if String.eqb type "waitDelay" then
    {| nd_recipient := None; nd_subject := None; nd_body := None;
       nd_delay := Some 1; nd_unit := Some "days" |}
  else
    {| nd_recipient := None; nd_subject := None; nd_body := None;
       nd_delay := None; nd_unit := None |}.

(** [buildSequenceFromFlow]: one item per node, in the order of the [nodes]
    array; the edges are not read.  Reading [node.data.delay] throws when a
    node has no [data] ([None] below).  The [delay] and [unit] the page copies
    next to [data] are left out: the server never reads them. *)
Fixpoint buildSequenceFromFlow (nodes : list FlowNode) : option (list Item) :=
  match nodes with
  | [] => Some []
  | node :: rest =>
      match n_data node with
      | None => None
      | Some d =>
          match buildSequenceFromFlow rest with
          | None => None
          | Some items =>
              Some ({| item_id := n_id node; type := n_type node;
                       data := Some {| recipient := nd_recipient d;
                                       subject := nd_subject d;
                                       body := nd_body d |} |} :: items)
          end
      end
  end.

(** What a page handler ends with: a toast, or the next step. *)
Inductive Outcome (A : Type) :=
| Toast (title : string)
| Proceed (a : A).
Arguments Toast {A} title.
Arguments Proceed {A} a.

(** [saveAndScheduleSequence]: navigates to the schedule page with the
    sequence, unless the canvas is empty or nobody is logged in. *)
Definition saveAndScheduleSequence (authToken : option string)
    (nodes : list FlowNode) : Outcome (list Item) :=
  match nodes with
  | [] => Toast "No sequence to save"
  | _ =>
      if negb (truthy authToken) then Toast "Error preparing sequence"
      else match buildSequenceFromFlow nodes with
           | Some items => Proceed items
           | None => Toast "Error preparing sequence"
           end
  end.

(** [i.toString()] and [s.padStart(width, c)] for a one-character pad. *)
Definition natToString (n : nat) : string :=
  NilEmpty.string_of_uint (Nat.to_uint n).

Definition padStart (width : nat) (c : ascii) (s : string) : string :=
  (string_of_list_ascii (repeat c (width - String.length s)) ++ s)%string.

(** The options of the two time dropdowns. *)
Definition hours : list string :=
  map (fun i => (padStart 2 "0" (natToString i) ++ ":00")%string) (seq 0 24).

(** The form state of the schedule page. *)
Record PageState := {
  pg_sequence : list Item;
  pg_date : option Z;
  pg_fromTime : string;
  pg_toTime : string;
  pg_sendOption : string;
  pg_days : list (string * bool)
}.

(** The state the page starts in, once it has received [sequence]. *)
Definition initialPage (now : Z) (items : list Item) : PageState :=
  {| pg_sequence := items; pg_date := Some now; pg_fromTime := "09:00";
     pg_toTime := "17:00"; pg_sendOption := "schedule";
     pg_days := [("monday", true); ("tuesday", true); ("wednesday", true);
                 ("thursday", true); ("friday", true); ("saturday", false);
                 ("sunday", false)] |}.

(** [handleDayToggle]: [{ ...days, [day]: !days[day] }] for one of the keys. *)
Definition handleDayToggle (day : string) (st : PageState) : PageState :=
  {| pg_sequence := pg_sequence st; pg_date := pg_date st;
     pg_fromTime := pg_fromTime st; pg_toTime := pg_toTime st;
     pg_sendOption := pg_sendOption st;
     pg_days := map (fun kv => if String.eqb (fst kv) day
                               then (fst kv, negb (snd kv)) else kv)
                    (pg_days st) |}.

(** [Object.entries(days).filter(([_, selected]) => selected).map(([day]) => day)] *)
Definition selectedDays (st : PageState) : list string :=
  map fst (filter snd (pg_days st)).

(** The JSON body the page posts. *)
Record PostBody := {
  b_sequence : list Item;
  b_schedulingOptions : option SchedulingOptions;
  b_sendNow : bool
}.

(** [handleSubmit]: the three checks, then the body of the request. *)
Definition handleSubmit (st : PageState) : Outcome PostBody :=
  let scheduling := String.eqb (pg_sendOption st) "schedule" in
  if (scheduling && match pg_date st with None => true | Some _ => false end)%bool
  then Toast "Date required"
  else if (scheduling && Nat.eqb (List.length (selectedDays st)) 0)%bool
  then Toast "Days required"
  else if (String.eqb (pg_sendOption st) "now" &&
           Nat.ltb 0 (List.length
                        (filter (fun item => isColdEmail item &&
                                             negb (truthy (optRecipient item)))
                                (pg_sequence st))))%bool
  then Toast "Missing recipients"
  else if scheduling then
    Proceed {| b_sequence := pg_sequence st;
               b_schedulingOptions :=
                 Some {| startDate := option_map Some (pg_date st);
                         fromTime := Some (pg_fromTime st);
                         toTime := Some (pg_toTime st);
                         days := Some (selectedDays st) |};
               b_sendNow := false |}
  else
    Proceed {| b_sequence := pg_sequence st; b_schedulingOptions := None;
               b_sendNow := true |}.

(** The request the route sees: the body, and the user of the token. *)
Definition requestOf (uid : string) (b : PostBody) : Request :=
  {| sequence := b_sequence b; schedulingOptions := b_schedulingOptions b;
     sendNow := b_sendNow b; userId := uid |}.

(** The state setters the widgets call: the two dropdowns, the calendar and
    the radio group. *)
Definition setFromTime (h : string) (st : PageState) : PageState :=
  {| pg_sequence := pg_sequence st; pg_date := pg_date st; pg_fromTime := h;
     pg_toTime := pg_toTime st; pg_sendOption := pg_sendOption st;
     pg_days := pg_days st |}.

Definition setToTime (h : string) (st : PageState) : PageState :=
  {| pg_sequence := pg_sequence st; pg_date := pg_date st;
     pg_fromTime := pg_fromTime st; pg_toTime := h;
     pg_sendOption := pg_sendOption st; pg_days := pg_days st |}.

Definition setDate (d : option Z) (st : PageState) : PageState :=
  {| pg_sequence := pg_sequence st; pg_date := d; pg_fromTime := pg_fromTime st;
     pg_toTime := pg_toTime st; pg_sendOption := pg_sendOption st;
     pg_days := pg_days st |}.

Definition setSendOption (o : string) (st : PageState) : PageState :=
  {| pg_sequence := pg_sequence st; pg_date := pg_date st;
     pg_fromTime := pg_fromTime st; pg_toTime := pg_toTime st;
     pg_sendOption := o; pg_days := pg_days st |}.

Definition weekdayNames : list string :=
  ["monday"; "tuesday"; "wednesday"; "thursday"; "friday"; "saturday"; "sunday"].

(** The states the form can be brought to: each dropdown offers [hours], the
    radio group ["now"] and ["schedule"], and there is one checkbox per
    weekday; the calendar may also clear the date. *)
Inductive Reachable : PageState -> Prop :=
| ReachInitial (now : Z) (items : list Item) :
    Reachable (initialPage now items)
| ReachToggle (day : string) (st : PageState) :
    In day weekdayNames -> Reachable st -> Reachable (handleDayToggle day st)
| ReachFromTime (h : string) (st : PageState) :
    In h hours -> Reachable st -> Reachable (setFromTime h st)
| ReachToTime (h : string) (st : PageState) :
    In h hours -> Reachable st -> Reachable (setToTime h st)
| ReachDate (d : option Z) (st : PageState) :
    Reachable st -> Reachable (setDate d st)
| ReachSendOption (o : string) (st : PageState) :
    In o ["now"; "schedule"] -> Reachable st -> Reachable (setSendOption o st).

(** A page on which Saturday was ticked and the times were picked backwards. *)
Definition weekendPage : PageState :=
  setToTime "08:00"
    (setFromTime "18:00"
       (handleDayToggle "saturday"
          (initialPage (monday2030 + 6 * msPerHour) [alice; waitNode; bob]))).

(** A page set to send now. *)
Definition sendNowPage : PageState :=
  setSendOption "now"
    (initialPage (monday2030 + 6 * msPerHour) [alice; waitNode; bob]).

(** A cold e-mail and a wait node as dropped on the canvas, the e-mail then
    given a recipient. *)
Definition canvasNodes : list FlowNode :=
  [{| n_id := "coldEmail_1"; n_type := "coldEmail";
      n_data := Some {| nd_recipient := Some "alice@example.com";
                        nd_subject := Some "Introduction";
                        nd_body := Some "Hello"; nd_delay := None;
                        nd_unit := None |} |};
   {| n_id := "waitDelay_2"; n_type := "waitDelay";
      n_data := Some (getNodeDefaultData "waitDelay") |};
   {| n_id := "coldEmail_3"; n_type := "coldEmail";
      n_data := Some (getNodeDefaultData "coldEmail") |}].

(** * The cached database connection, server.js 84-148

    The simple flag [mongoReachable] above says whether a call succeeds; this
    module follows the cache itself.  A client is known by the number under
    which it was created. *)

Module Cache.

(** The module variables [cachedClient] and [cachedDb] (set and cleared
    together), the clients created so far, and the clients on which
    [close(true)] has been called, latest first. *)
Record State := {
  cachedClient : option Z;
  created : Z;
  closeCalls : list Z
}.

(** What the network answers during one call: whether the ping wins the race
    against the two-second timer, whether closing the stale client resolves,
    and whether the new client connects. *)
Record Answers := {
  pingResolves : bool;
  closeResolves : bool;
  connectResolves : bool
}.

(** The value the call resolves with, or the rethrown connection error. *)
Inductive Result :=
| Resolved (client : Z)
| Rejected.

Definition connectToDatabase (a : Answers) (st : State) : Result * State :=
  let fresh (st1 : State) : Result * State :=
    (* [new MongoClient(...)], then [await client.connect()] *)
    let client := created st1 in
    if connectResolves a then
      (Resolved client,
       {| cachedClient := Some client; created := created st1 + 1;
          closeCalls := closeCalls st1 |})
    else
      (Rejected,
       {| cachedClient := cachedClient st1; created := created st1 + 1;
          closeCalls := closeCalls st1 |}) in
  match cachedClient st with
  | Some cached =>
      if pingResolves a then (Resolved cached, st)
      else
        (* [close(true)] is attempted; its failure is only logged *)
        fresh {| cachedClient := None; created := created st;
                 closeCalls := cached :: closeCalls st |}
  | None => fresh st
  end.

(** Every client the state mentions has been created. *)
Definition wellFormed (st : State) : Prop :=
  0 <= created st /\
  (forall c, cachedClient st = Some c -> 0 <= c < created st) /\
  (forall c, In c (closeCalls st) -> 0 <= c < created st).

Definition empty : State :=
  {| cachedClient := None; created := 0; closeCalls := [] |}.

Definition allGood : Answers :=
  {| pingResolves := true; closeResolves := true; connectResolves := true |}.

Definition pingTimesOut : Answers :=
  {| pingResolves := false; closeResolves := false; connectResolves := true |}.

End Cache.

(** * Accounts and tokens: users.js, auth.js and the client's [apiRequest]

    [bcrypt], [jsonwebtoken] and the rendering of an [ObjectId] are libraries
    outside the repository: they are parameters of the handlers. *)

(** A document of the [users] collection. *)
Record User := {
  u_id : Z;
  u_email : string;
  u_password : string;
  u_name : option string;
  u_createdAt : Z
}.

(** The body of [POST /api/register] and [POST /api/login]. *)
Record Credentials := {
  c_email : option string;
  c_password : option string;
  c_name : option string
}.

(** The claims a token carries. *)
Record TokenPayload := {
  tp_id : string;
  tp_email : string
}.

Inductive AccountBody :=
| AccountError (error : string)
| Registered (message : string) (userId : Z)
| LoggedIn (message : string) (token : string) (id : Z) (email : string)
    (name : option string).

Record AccountResponse := {
  a_status : Z;
  a_json : AccountBody
}.

(** Whether [MONGODB_URI] is set and whether [client.connect()] resolves. *)
Record Site := {
  mongoUri : bool;
  connects : bool
}.

(** [s.split(sep)] for a one-character separator. *)
Fixpoint splitOn (sep : ascii) (s : string) : list string :=
  match s with
  | EmptyString => [EmptyString]
  | String c r =>
      if Ascii.eqb c sep then EmptyString :: splitOn sep r
      else match splitOn sep r with
           | h :: t => String c h :: t
           | [] => [String c EmptyString]
           end
  end.

(** What the middleware does with a request. *)
Inductive Gate :=
| Denied (code : Z) (error : string)
| Next (user : TokenPayload).

Section Accounts.

Variable bcryptHash : string -> string.
Variable bcryptCompare : string -> string -> bool.
Variable jwtSign : TokenPayload -> string.
Variable jwtVerify : string -> option TokenPayload.
Variable oidString : Z -> string.

Definition accountError (code : Z) (msg : string) : AccountResponse :=
  {| a_status := code; a_json := AccountError msg |}.

(** [usersCollection.findOne({ email })] *)
Definition findByEmail (users : list User) (email : string) : option User :=
  find (fun u => String.eqb (u_email u) email) users.

(** How far [registerUser] gets before it writes: the answer it gives on
    the way, or the address and password it goes on to insert. *)
Inductive Checked :=
| Answered (r : AccountResponse)
| Unknown (email password : string).

(** [registerUser] up to the answer of [findOne], users.js 27-49, on the
    collection as [findOne] reads it. *)
Definition registerCheck (site : Site) (users : list User) (body : Credentials)
    : Checked :=
  match c_email body, c_password body with
  | Some email, Some password =>
      if (negb (truthy (Some email)) || negb (truthy (Some password)))%bool then
        Answered (accountError 400 "Email and password are required")
      else if negb (mongoUri site) then
        Answered (accountError 503 "Database service is not available")
      else if negb (connects site) then
        Answered (accountError 500 "Failed to register user")
      else
        match findByEmail users email with
        | Some _ => Answered (accountError 400 "User already exists")
        | None => Unknown email password
        end
  | _, _ => Answered (accountError 400 "Email and password are required")
  end.

(** [registerUser] from [bcrypt.hash] on, users.js 51-65, on the collection
    as [insertOne] finds it.  [insertedId] is the identifier the store gives
    the new document; the [users] collection has no unique index, so the
    insert goes through whatever is stored. *)
Definition registerInsert (now insertedId : Z) (users : list User)
    (name : option string) (email password : string)
    : AccountResponse * list User :=
  ({| a_status := 201;
      a_json := Registered "User registered successfully" insertedId |},
   users ++ [{| u_id := insertedId; u_email := email;
                u_password := bcryptHash password;
                u_name := name; u_createdAt := now |}]).

(** [registerUser], users.js 27-73, among other requests: [findOne] reads
    the collection [seen], and by the time [insertOne] runs, after the
    [await]s in between, the collection is [current]. *)
Definition registerUserAmid (site : Site) (now insertedId : Z)
    (seen current : list User) (body : Credentials)
    : AccountResponse * list User :=
  match registerCheck site seen body with
  | Answered r => (r, current)
  | Unknown email password =>
      registerInsert now insertedId current (c_name body) email password
  end.

(** [registerUser] with no other write between its two calls. *)
Definition registerUser (site : Site) (now insertedId : Z) (users : list User)
    (body : Credentials) : AccountResponse * list User :=
  registerUserAmid site now insertedId users users body.

(** [generateToken], auth.js 51-63. *)
Definition generateToken (user : User) : string :=
  jwtSign {| tp_id := oidString (u_id user); tp_email := u_email user |}.

(** [loginUser], users.js 80-131.  It only reads the collection. *)
Definition loginUser (site : Site) (users : list User) (body : Credentials)
    : AccountResponse :=
  match c_email body, c_password body with
  | Some email, Some password =>
      if (negb (truthy (Some email)) || negb (truthy (Some password)))%bool then
        accountError 400 "Email and password are required"
      else if negb (mongoUri site) then
        accountError 503 "Database service is not available"
      else if negb (connects site) then
        accountError 500 "Failed to login"
      else
        match findByEmail users email with
        | None => accountError 401 "Invalid credentials"
        | Some user =>
            if negb (bcryptCompare password (u_password user)) then
              accountError 401 "Invalid credentials"
            else
              {| a_status := 200;
                 a_json := LoggedIn "Login successful" (generateToken user)
                             (u_id user) (u_email user) (u_name user) |}
        end
  | _, _ => accountError 400 "Email and password are required"
  end.

(** [authenticateJWT], auth.js 27-44: the token is the second word of the
    [Authorization] header. *)
Definition authenticateJWT (authHeader : option string) : Gate :=
  match authHeader with
  | Some h =>
      if truthy (Some h) then
        match nth_error (splitOn " " h) 1 with
        | Some token =>
            match jwtVerify token with
            | Some user => Next user
            | None => Denied 403 "Token is invalid or expired"
            end
        | None => Denied 403 "Token is invalid or expired"
        end
      else Denied 401 "Authentication token is missing"
  | None => Denied 401 "Authentication token is missing"
  end.

End Accounts.

(** The [Authorization] header [apiRequest] adds for a stored token
    (api.ts 37-41); no header when nothing is stored. *)
Definition authorizationHeader (authToken : option string) : option string :=
  match authToken with
  | Some token => if truthy (Some token) then Some ("Bearer " ++ token)%string
                  else None
  | None => None
  end.

(** The [authToken] the login form stores from a response (it stores
    [data.token] of a successful answer). *)
Definition storedToken (r : AccountResponse) : option string :=
  match a_json r with
  | LoggedIn _ token _ _ _ => Some token
  | _ => None
  end.

(** Stand-ins for the libraries, for concrete runs: a hash that prefixes the
    password, a token that is the two claims joined by a dot. *)
Definition toyHash (password : string) : string := ("$2b$" ++ password)%string.
Definition toyCompare (password hash : string) : bool :=
  String.eqb hash (toyHash password).
Definition toySign (p : TokenPayload) : string :=
  (tp_id p ++ "." ++ tp_email p)%string.
Definition toyVerify (token : string) : option TokenPayload :=
  match splitOn "." token with
  | i :: rest => Some {| tp_id := i; tp_email := String.concat "." rest |}
  | [] => None
  end.
Definition toyOidString (i : Z) : string := natToString (Z.to_nat i).

Definition liveSite : Site := {| mongoUri := true; connects := true |}.

Definition carol : Credentials :=
  {| c_email := Some "carol@example"; c_password := Some "s3cret";
     c_name := Some "Carol" |}.

(** * Saved flows, server.js 239-470

    The [flows] collection is a list of documents in store order.  The
    [ObjectId] constructor is a parameter: it turns the text of a route
    parameter into an identifier, or throws ([None]).  Closing the database
    client after a request has no effect on the answer and is left out. *)

Record FlowEdge := {
  ed_id : string;
  ed_source : string;
  ed_target : string
}.

Record Flow := {
  f_id : Z;
  f_name : string;
  f_nodes : option (list FlowNode);
  f_edges : option (list FlowEdge);
  f_userId : string;
  f_createdAt : Z;
  f_updatedAt : Z
}.

(** The body of [POST /api/flows] and [PUT /api/flows/:id]. *)
Record FlowBody := {
  fb_name : option string;
  fb_nodes : option (list FlowNode);
  fb_edges : option (list FlowEdge)
}.

Record FlowSummary := {
  fs_id : Z;
  fs_name : string;
  fs_updatedAt : Z;
  fs_createdAt : Z
}.

Inductive FlowJson :=
| FlowError (error : string)
| FlowSaved (message : string) (flowId : Z) (name : string)
| FlowUpdated (message : string) (flowId : string) (name : string)
| FlowList (flows : list FlowSummary)
| FlowFull (id : Z) (name : string) (nodes : option (list FlowNode))
    (edges : option (list FlowEdge)) (createdAt updatedAt : Z)
| FlowDeleted (message : string) (flowId : string).

Record FlowResponse := {
  fl_status : Z;
  fl_json : FlowJson
}.

Definition flowError (code : Z) (msg : string) : FlowResponse :=
  {| fl_status := code; fl_json := FlowError msg |}.

(** [flowsCollection.findOne({ _id })] *)
Definition findById (flows : list Flow) (oid : Z) : option Flow :=
  find (fun f => f_id f =? oid) flows.

(** [flowsCollection.updateOne({ _id }, { $set })]: the first match. *)
Fixpoint updateOne (oid : Z) (set : Flow -> Flow) (flows : list Flow) : list Flow :=
  match flows with
  | [] => []
  | f :: rest =>
      if f_id f =? oid then set f :: rest else f :: updateOne oid set rest
  end.

(** [flowsCollection.deleteOne({ _id })]: the first match. *)
Fixpoint deleteOne (oid : Z) (flows : list Flow) : list Flow :=
  match flows with
  | [] => []
  | f :: rest => if f_id f =? oid then rest else f :: deleteOne oid rest
  end.

(** [.sort({ updatedAt: -1 })], most recent first; documents with equal
    times keep their store order. *)
Fixpoint insertByUpdate (f : Flow) (sorted : list Flow) : list Flow :=
  match sorted with
  | [] => [f]
  | g :: rest =>
      if f_updatedAt g <? f_updatedAt f then f :: g :: rest
      else g :: insertByUpdate f rest
  end.

Definition sortByUpdate (flows : list Flow) : list Flow :=
  fold_right insertByUpdate [] flows.

Definition summaryOf (f : Flow) : FlowSummary :=
  {| fs_id := f_id f; fs_name := f_name f; fs_updatedAt := f_updatedAt f;
     fs_createdAt := f_createdAt f |}.

Section Flows.

Variable newObjectId : string -> option Z.

(** [POST /api/flows], server.js 239-277. *)
Definition createFlow (dbUp : bool) (now insertedId : Z) (uid : string)
    (body : FlowBody) (flows : list Flow) : FlowResponse * list Flow :=
  match fb_name body with
  | Some name =>
      if negb (truthy (Some name)) then (flowError 400 "Flow name is required", flows)
      else if negb dbUp then (flowError 500 "Failed to save flow", flows)
      else
        ({| fl_status := 201;
            fl_json := FlowSaved "Flow saved successfully" insertedId name |},
         flows ++ [{| f_id := insertedId; f_name := name;
                      f_nodes := fb_nodes body; f_edges := fb_edges body;
                      f_userId := uid; f_createdAt := now; f_updatedAt := now |}])
  | None => (flowError 400 "Flow name is required", flows)
  end.

(** The [$set] of the update: [name || flow.name] and so on. *)
Definition applyUpdate (now : Z) (body : FlowBody) (flow : Flow) : Flow :=
  {| f_id := f_id flow;
     f_name := match fb_name body with
               | Some name => if truthy (Some name) then name else f_name flow
               | None => f_name flow
               end;
     f_nodes := match fb_nodes body with
                | Some nodes => Some nodes
                | None => f_nodes flow
                end;
     f_edges := match fb_edges body with
                | Some edges => Some edges
                | None => f_edges flow
                end;
     f_userId := f_userId flow;
     f_createdAt := f_createdAt flow;
     f_updatedAt := now |}.

(** [PUT /api/flows/:id], server.js 287-340. *)
Definition updateFlow (dbUp : bool) (now : Z) (uid : string) (id : string)
    (body : FlowBody) (flows : list Flow) : FlowResponse * list Flow :=
  if negb dbUp then (flowError 500 "Failed to update flow", flows)
  else
    match newObjectId id with
    | None => (flowError 500 "Failed to update flow", flows)
    | Some oid =>
        match findById flows oid with
        | None => (flowError 404 "Flow not found", flows)
        | Some flow =>
            if negb (String.eqb (f_userId flow) uid) then
              (flowError 403 "Not authorized to modify this flow", flows)
            else
              ({| fl_status := 200;
                  fl_json := FlowUpdated "Flow updated successfully" id
                               (f_name (applyUpdate now body flow)) |},
               updateOne oid (fun _ => applyUpdate now body flow) flows)
        end
    end.

(** [GET /api/flows], server.js 347-375. *)
Definition getFlows (dbUp : bool) (uid : string) (flows : list Flow)
    : FlowResponse :=
  if negb dbUp then flowError 500 "Failed to fetch flows"
  else
    {| fl_status := 200;
       fl_json := FlowList
         (map summaryOf
            (sortByUpdate (filter (fun f => String.eqb (f_userId f) uid) flows))) |}.

(** [GET /api/flows/:id], server.js 382-419. *)
Definition getFlow (dbUp : bool) (uid : string) (id : string) (flows : list Flow)
    : FlowResponse :=
  if negb dbUp then flowError 500 "Failed to fetch flow"
  else
    match newObjectId id with
    | None => flowError 500 "Failed to fetch flow"
    | Some oid =>
        match findById flows oid with
        | None => flowError 404 "Flow not found"
        | Some flow =>
            if negb (String.eqb (f_userId flow) uid) then
              flowError 403 "Not authorized to access this flow"
            else
              {| fl_status := 200;
                 fl_json := FlowFull (f_id flow) (f_name flow) (f_nodes flow)
                              (f_edges flow) (f_createdAt flow) (f_updatedAt flow) |}
        end
    end.

(** [DELETE /api/flows/:id], server.js 426-468. *)
Definition deleteFlow (dbUp : bool) (uid : string) (id : string)
    (flows : list Flow) : FlowResponse * list Flow :=
  if negb dbUp then (flowError 500 "Failed to delete flow", flows)
  else
    match newObjectId id with
    | None => (flowError 500 "Failed to delete flow", flows)
    | Some oid =>
        match findById flows oid with
        | None => (flowError 404 "Flow not found", flows)
        | Some flow =>
            if negb (String.eqb (f_userId flow) uid) then
              (flowError 403 "Not authorized to delete this flow", flows)
            else
              ({| fl_status := 200;
                  fl_json := FlowDeleted "Flow deleted successfully" id |},
               deleteOne oid flows)
        end
    end.

End Flows.

(** The flows of everybody but [uid], in store order. *)
Definition othersFlows (uid : string) (flows : list Flow) : list Flow :=
  filter (fun f => negb (String.eqb (f_userId f) uid)) flows.

(** A stand-in for the [ObjectId] constructor: decimal text. *)
Definition toyObjectId (id : string) : option Z :=
  match id with
  | EmptyString => None
  | _ => decimal id 0
  end.

Definition welcomeFlow : Flow :=
  {| f_id := 11; f_name := "Welcome"; f_nodes := Some canvasNodes;
     f_edges := Some []; f_userId := "u1"; f_createdAt := 100;
     f_updatedAt := 200 |}.

Definition followUpFlow : Flow :=
  {| f_id := 12; f_name := "Follow up"; f_nodes := Some []; f_edges := None;
     f_userId := "u2"; f_createdAt := 150; f_updatedAt := 150 |}.

Definition renameBody : FlowBody :=
  {| fb_name := Some "Welcome v2"; fb_nodes := None; fb_edges := None |}.

(** * Properties *)

(** ** Numbers *)

(** [Number] on spellings of an hour: the ones that denote an integer, and
    the ones that denote a fraction, an infinity or no number. *)
Lemma Number_spellings :
  map Number ["9"; "09"; " 9 "; ""; "0x10"; "0b101"; "0o17"; "1e1"; "10e-1";
              "9.0"; ".5e1"; "-7"; "1e-400"]
  = [Some 9; Some 9; Some 9; Some 0; Some 16; Some 5; Some 15; Some 10; Some 1;
     Some 9; Some 5; Some (-7); Some 0] /\
  map Number ["9.5"; "nine"; "."; "1e"; "0x"; "-0x10"; "9 9"; "1_0"; "Infinity";
              "1e400"]
  = [None; None; None; None; None; None; None; None; None; None].
Proof. split; vm_compute; reflexivity. Qed.

(** ** Draws *)

(** Rounding a magnitude keeps it non-negative, positive if it was, and below
    any multiple of [2^53] that the magnitude misses by the multiplier. *)
Lemma roundMagnitude_bounds (a m : Z) :
  0 <= a -> 0 < m -> a + m <= m * two53 ->
  0 <= roundMagnitude a < m * two53 /\ (0 < a -> 0 < roundMagnitude a).
Proof.
  intros Ha Hm Hle. unfold roundMagnitude.
  destruct (a <? two53) eqn:E; [lia |].
  apply Z.ltb_ge in E. cbv zeta.
  assert (Hapos : 0 < a) by (unfold two53 in E; lia).
  pose proof (Z.log2_spec a Hapos) as [Hlo Hhi].
  assert (Hlog : 53 <= Z.log2 a).
  { change 53 with (Z.log2 two53). now apply Z.log2_le_mono. }
  set (s := Z.log2 a - 52) in *.
  assert (Hs : 1 <= s) by (unfold s; lia).
  assert (EP : 2 ^ s = 2 * 2 ^ (s - 1)).
  { replace s with (Z.succ (s - 1)) at 1 by lia. apply Z.pow_succ_r. lia. }
  assert (EL : 2 ^ Z.log2 a = 2 ^ (s - 1) * two53).
  { replace (Z.log2 a) with ((s - 1) + 53) by (unfold s; lia).
    rewrite Z.pow_add_r by lia. reflexivity. }
  assert (HH : 0 < 2 ^ (s - 1)) by (apply Z.pow_pos_nonneg; lia).
  set (H := 2 ^ (s - 1)) in *.
  rewrite EP.
  pose proof (Z.div_mod a (2 * H) ltac:(lia)) as Hdm.
  pose proof (Z.mod_pos_bound a (2 * H) ltac:(lia)) as Hr.
  assert (Hq : 1 <= a / (2 * H)).
  { apply Z.div_le_lower_bound; [lia |]. unfold two53 in EL. lia. }
  set (q := a / (2 * H)) in *. set (r := a mod (2 * H)) in *.
  destruct ((H <? r) || ((r =? H) && Z.odd q))%bool eqn:Eup.
  - assert (Hrh : H <= r).
    { apply orb_prop in Eup. destruct Eup as [Eup | Eup].
      - apply Z.ltb_lt in Eup. lia.
      - apply andb_prop in Eup. destruct Eup as [Eup _]. apply Z.eqb_eq in Eup. lia. }
    unfold two53 in *. nia.
  - unfold two53 in *. nia.
Qed.

Lemma floorRandomTimes_nonneg (bits n : Z) :
  0 <= n -> 0 <= floorRandomTimes bits n /\ (0 < n -> floorRandomTimes bits n < n).
Proof.
  intros Hn. unfold floorRandomTimes, roundDouble.
  assert (Hk : 0 <= bits mod two53 < two53) by (apply Z.mod_pos_bound; reflexivity).
  set (k := bits mod two53) in *.
  destruct (Z.eq_dec (k * n) 0) as [E0 | Hne].
  - rewrite E0. cbn. lia.
  - assert (Hpos : 0 < k * n) by nia.
    assert (Hnpos : 0 < n) by nia.
    rewrite Z.sgn_pos, Z.abs_eq, Z.mul_1_l by lia.
    destruct (roundMagnitude_bounds (k * n) n) as [[H0 H1] _]; [lia | lia | nia |].
    split.
    + apply Z.div_pos; [exact H0 | reflexivity].
    + intros _. apply Z.div_lt_upper_bound; [reflexivity | lia].
Qed.

Lemma floorRandomTimes_nonpos (bits n : Z) :
  n <= 0 -> n <= floorRandomTimes bits n <= 0.
Proof.
  intros Hn. unfold floorRandomTimes, roundDouble.
  assert (Hk : 0 <= bits mod two53 < two53) by (apply Z.mod_pos_bound; reflexivity).
  set (k := bits mod two53) in *.
  destruct (Z.eq_dec (k * n) 0) as [E0 | Hne].
  - rewrite E0. cbn. lia.
  - assert (Hneg : k * n < 0) by nia.
    assert (Hnneg : n < 0) by nia.
    rewrite Z.sgn_neg, Z.abs_neq by lia.
    destruct (roundMagnitude_bounds (- (k * n)) (- n)) as [[H0 H1] _];
      [lia | lia | nia |].
    split.
    + apply Z.div_le_lower_bound; [reflexivity | lia].
    + assert (H : -1 * roundMagnitude (- (k * n)) / two53 < 1); [| lia].
      apply Z.div_lt_upper_bound; [reflexivity | lia].
Qed.

Lemma randomHour_window (fh th : Z) (iw : ItemWorld) :
  fh <= th -> fh <= randomHour fh th iw <= th.
Proof.
  intros H. unfold randomHour.
  destruct (floorRandomTimes_nonneg (hourBits iw) (th - fh + 1)) as [H0 H1]; lia.
Qed.

Lemma randomHour_in_day (fh th : Z) (iw : ItemWorld) :
  0 <= fh <= 23 -> 0 <= th <= 23 -> 0 <= randomHour fh th iw <= 23.
Proof.
  intros Hf Ht. destruct (Z_le_gt_dec fh th) as [Hle | Hgt].
  - pose proof (randomHour_window fh th iw Hle). lia.
  - unfold randomHour.
    pose proof (floorRandomTimes_nonpos (hourBits iw) (th - fh + 1)). lia.
Qed.

Lemma randomMinute_range (iw : ItemWorld) : 0 <= randomMinute iw <= 59.
Proof.
  unfold randomMinute.
  destruct (floorRandomTimes_nonneg (minuteBits iw) 60) as [H0 H1]; lia.
Qed.

(** ** Dates in a zone that keeps one offset *)

Lemma TimeClip_some (t t' : Z) : TimeClip t = Some t' -> t' = t.
Proof.
  unfold TimeClip. destruct (Z.abs t <=? maxTime); [| discriminate].
  now intros H; injection H as <-.
Qed.

Lemma TimeClip_in_range (t : Z) : Z.abs t <= maxTime -> TimeClip t = Some t.
Proof. intros H. unfold TimeClip. apply Z.leb_le in H. now rewrite H. Qed.

Lemma addDays_fixed (tz c k c' : Z) :
  addDays (fixedZone tz) c k = Some c' -> c' = c + k * msPerDay.
Proof.
  unfold addDays, utcOf, localTime. cbn [fixedZone offsetAt offsetOfLocal].
  intros H. apply TimeClip_some in H. lia.
Qed.

Lemma addDays_fixed_in_range (tz c k : Z) :
  Z.abs (c + k * msPerDay) <= maxTime ->
  addDays (fixedZone tz) c k = Some (c + k * msPerDay).
Proof.
  intros H. unfold addDays, utcOf, localTime. cbn [fixedZone offsetAt offsetOfLocal].
  replace (c + tz + k * msPerDay - tz) with (c + k * msPerDay) by ring.
  now apply TimeClip_in_range.
Qed.

Lemma localDay_plus_days (tz c k : Z) :
  localDay (fixedZone tz) (c + k * msPerDay) = localDay (fixedZone tz) c + k.
Proof.
  unfold localDay, localTime, msPerDay. cbn [fixedZone offsetAt].
  replace (c + k * 86400000 + tz) with (c + tz + k * 86400000) by ring.
  apply Z.div_add. discriminate.
Qed.

Lemma localDay_addDays (tz c k c' : Z) :
  addDays (fixedZone tz) c k = Some c' ->
  localDay (fixedZone tz) c' = localDay (fixedZone tz) c + k.
Proof.
  intros H. apply addDays_fixed in H. subst c'. apply localDay_plus_days.
Qed.

Lemma localTime_setHours (tz c h m t : Z) :
  setHours (fixedZone tz) c h m 0 0 = Some t ->
  localTime (fixedZone tz) t
  = localDay (fixedZone tz) c * msPerDay + (h * msPerHour + m * msPerMinute).
Proof.
  unfold setHours, utcOf. cbn [fixedZone offsetAt offsetOfLocal].
  intros H. apply TimeClip_some in H. subst t.
  unfold localTime. cbn [fixedZone offsetAt]. ring.
Qed.

Lemma localDay_setHours (tz c h m t : Z) :
  0 <= h <= 23 -> 0 <= m <= 59 ->
  setHours (fixedZone tz) c h m 0 0 = Some t ->
  localDay (fixedZone tz) t = localDay (fixedZone tz) c.
Proof.
  intros Hh Hm Ht. unfold localDay at 1. rewrite (localTime_setHours _ _ _ _ _ Ht).
  rewrite Z.add_comm, Z.div_add by discriminate.
  rewrite Z.div_small; [reflexivity |].
  unfold msPerHour, msPerMinute, msPerDay. lia.
Qed.

Lemma getHours_setHours (tz c h m t : Z) :
  0 <= h <= 23 -> 0 <= m <= 59 ->
  setHours (fixedZone tz) c h m 0 0 = Some t ->
  getHours (fixedZone tz) t = h.
Proof.
  intros Hh Hm Ht. unfold getHours. rewrite (localTime_setHours _ _ _ _ _ Ht).
  unfold msPerHour, msPerMinute, msPerDay.
  replace (localDay (fixedZone tz) c * 86400000 + (h * 3600000 + m * 60000))
    with (m * 60000 + (localDay (fixedZone tz) c * 24 + h) * 3600000) by ring.
  rewrite Z.div_add by discriminate.
  rewrite (Z.div_small (m * 60000)) by lia.
  rewrite Z.add_0_l, Z.add_comm, Z.mod_add by discriminate.
  apply Z.mod_small. lia.
Qed.


(** ** The deferred loop, one item at a time *)

Lemma withCursor_same (st : DeferredState) : withCursor st (currentDate st) = st.
Proof. destruct st; reflexivity. Qed.

Lemma withCursor_twice (st : DeferredState) (c c' : option Z) :
  withCursor (withCursor st c) c' = withCursor st c'.
Proof. reflexivity. Qed.

Lemma stepDays_invalid (z : Zone) (k : nat) : stepDays z k None = None.
Proof.
  unfold stepDays. induction k as [| k IH]; [reflexivity |].
  rewrite Nat.iter_succ_r. exact IH.
Qed.

Lemma firstEligible_invalid (z : Zone) (sd : list (option Z)) (left : nat) :
  firstEligible z sd left None = None.
Proof. now destruct left. Qed.

Section DeferredFacts.

Variable z : Zone.
Variable uid : string.
Variable fromHour toHour : option Z.
Variable sd : list (option Z).

(** The bounded search is the scan [firstEligible] followed, on success, by
    the draw on the day found. *)
Lemma findValidDay_firstEligible (left : nat) (iw : ItemWorld) (item : Item)
    (st : DeferredState) :
  findValidDay z uid fromHour toHour sd left iw item st =
  match firstEligible z sd left (currentDate st) with
  | Some c => scheduleOnDay z uid fromHour toHour iw item (withCursor st (Some c))
  | None => Normal (withCursor st (stepDays z left (currentDate st)))
  end.
Proof.
  revert st. induction left as [| left IH]; intros st.
  - cbn [findValidDay firstEligible stepDays Nat.iter].
    now rewrite withCursor_same.
  - cbn [findValidDay]. destruct (currentDate st) as [c |] eqn:Ec.
    + cbn [firstEligible].
      destruct (includes sd (getDay z c)).
      * now rewrite <- Ec, withCursor_same.
      * rewrite IH. cbn [withCursor currentDate].
        unfold stepDays. rewrite Nat.iter_succ_r. cbn [nextDay].
        destruct (firstEligible z sd left (addDays z c 1)); reflexivity.
    + rewrite IH, Ec, firstEligible_invalid, firstEligible_invalid.
      now rewrite !stepDays_invalid.
Qed.

Lemma firstEligible_sound (left : nat) (c : option Z) (c' : Z) :
  firstEligible z sd left c = Some c' -> includes sd (getDay z c') = true.
Proof.
  revert c. induction left as [| left IH]; intros c H; [discriminate |].
  destruct c as [t |]; [| discriminate]. cbn [firstEligible] in H.
  destruct (includes sd (getDay z t)) eqn:E.
  - now injection H as <-.
  - exact (IH _ H).
Qed.

Lemma firstEligible_here (left : nat) (c : Z) :
  includes sd (getDay z c) = true -> firstEligible z sd (S left) (Some c) = Some c.
Proof. intros H. cbn [firstEligible]. now rewrite H. Qed.

(** Every run of the loop body is one of the seven steps. *)
Lemma deferredItem_step (iw : ItemWorld) (item : Item) (st : DeferredState) :
  ItemStep z uid fromHour toHour sd iw item st
    (deferredItem z uid fromHour toHour sd iw item st).
Proof.
  unfold deferredItem. fold (isColdEmail item).
  destruct (isColdEmail item) eqn:Hcold; [| now apply StepOther].
  rewrite findValidDay_firstEligible.
  destruct (firstEligible z sd 14 (currentDate st)) as [c |] eqn:Hfirst;
    [| now apply StepNoDay].
  unfold scheduleOnDay. cbn [currentDate scheduledEmails d_server withCursor].
  destruct fromHour as [fh |] eqn:Hf; [| apply (StepNaN _ _ _ _ _ _ _ _ c); auto].
  destruct toHour as [th |] eqn:Ht; [| apply (StepNaN _ _ _ _ _ _ _ _ c); auto].
  fold (sendTimeOn z fh th iw c).
  destruct (sendTimeOn z fh th iw c) as [t |] eqn:Hsend.
  - destruct (clock iw <? t) eqn:Hcmp.
    + apply Z.ltb_lt in Hcmp.
      destruct (data item) as [d |] eqn:Hdata.
      * unfold agendaSchedule.
        destruct (firstSchedule iw) as [n |] eqn:Hs.
        -- cbn. apply (StepRejected _ _ _ _ _ _ _ _ c fh th t d n); auto.
        -- cbn. apply (StepScheduled _ _ _ _ _ _ _ _ c fh th t d); auto.
      * apply (StepNoData _ _ _ _ _ _ _ _ c fh th t); auto.
    + apply Z.ltb_ge in Hcmp.
      apply (StepPast _ _ _ _ _ _ _ _ c fh th); auto.
      intros t' Ht'. rewrite Hsend in Ht'. injection Ht' as <-. exact Hcmp.
  - apply (StepPast _ _ _ _ _ _ _ _ c fh th); auto.
    intros t' Ht'. rewrite Hsend in Ht'. discriminate.
Qed.

(** A property kept by every run of the loop body is kept by the loop. *)
Lemma deferredLoop_preserves (I : DeferredState -> Prop) :
  (forall iw item st, I st ->
     I (stateOf (deferredItem z uid fromHour toHour sd iw item st))) ->
  forall w items i st, I st ->
    I (stateOf (deferredLoop z uid fromHour toHour sd w i items st)).
Proof.
  intros Hitem w items. induction items as [| item rest IH]; intros i st Hst.
  - exact Hst.
  - cbn [deferredLoop].
    pose proof (Hitem (atItem w i) item st Hst) as H1.
    destruct (deferredItem z uid fromHour toHour sd (atItem w i) item st)
      as [st1 | n st1]; cbn [stateOf] in *.
    + now apply IH.
    + exact H1.
Qed.

Lemma deferredItem_drawn (iw : ItemWorld) (item : Item) (st : DeferredState) :
  Forall (drawnOnAllowedDay z fromHour toHour sd) (scheduledEmails st) ->
  Forall (drawnOnAllowedDay z fromHour toHour sd)
    (scheduledEmails (stateOf (deferredItem z uid fromHour toHour sd iw item st))).
Proof.
  intros Hst.
  destruct (deferredItem_step iw item st)
    as [ | | c | c fh th | c fh th t | c fh th t d n
       | c fh th t d Hc Hfirst Hf Ht Hsend];
    cbn [stateOf withCursor scheduledEmails]; try exact Hst.
  apply Forall_app. split; [exact Hst |]. constructor; [| constructor].
  exists fh, th, iw, c. repeat split; try assumption.
  now apply firstEligible_sound in Hfirst.
Qed.

Lemma deferredLoop_drawn (w : World) (items : list Item) (i : nat)
    (st : DeferredState) :
  Forall (drawnOnAllowedDay z fromHour toHour sd) (scheduledEmails st) ->
  Forall (drawnOnAllowedDay z fromHour toHour sd)
    (scheduledEmails (stateOf (deferredLoop z uid fromHour toHour sd w i items st))).
Proof.
  apply (deferredLoop_preserves
           (fun s => Forall (drawnOnAllowedDay z fromHour toHour sd)
                       (scheduledEmails s))).
  intros iw item s. apply deferredItem_drawn.
Qed.



End DeferredFacts.

(** ** Calendar days in a zone that keeps one offset *)

Lemma StronglySorted_snoc {A : Type} (R : A -> A -> Prop) (l : list A) (a : A) :
  StronglySorted R l -> Forall (fun x => R x a) l -> StronglySorted R (l ++ [a]).
Proof.
  induction 1 as [| x l Hs IH Hx]; intros Hall; cbn.
  - repeat constructor.
  - inversion Hall; subst. constructor; [now apply IH |].
    apply Forall_app. split; [exact Hx | now constructor].
Qed.

Section DeferredInvariants.

Variable tz : Z.
Variable uid : string.
Variable fromHour toHour : option Z.
Variable sd : list (option Z).

(** The day found lies a whole number of days after the cursor. *)
Lemma firstEligible_offset (left : nat) (c : option Z) (c' : Z) :
  firstEligible (fixedZone tz) sd left c = Some c' ->
  exists t (k : nat), c = Some t /\ (k < left)%nat /\ c' = t + Z.of_nat k * msPerDay.
Proof.
  revert c. induction left as [| left IH]; intros c H; [discriminate |].
  destruct c as [t |]; [| discriminate]. cbn [firstEligible] in H.
  destruct (includes sd (getDay (fixedZone tz) t)).
  - injection H as <-. exists t, 0%nat. split; [reflexivity |]. split; lia.
  - destruct (IH _ H) as [t1 [k [Ht1 [Hk ->]]]].
    apply addDays_fixed in Ht1. subst t1.
    exists t, (S k). split; [reflexivity |]. split; lia.
Qed.

Lemma firstEligible_later (left : nat) (c c' : Z) :
  firstEligible (fixedZone tz) sd left (Some c) = Some c' ->
  localDay (fixedZone tz) c <= localDay (fixedZone tz) c'.
Proof.
  intros H. apply firstEligible_offset in H.
  destruct H as [t [k [Ht [_ ->]]]]. injection Ht as <-.
  rewrite localDay_plus_days. lia.
Qed.

Lemma stepDays_later (k : nat) (c c' : Z) :
  stepDays (fixedZone tz) k (Some c) = Some c' ->
  localDay (fixedZone tz) c <= localDay (fixedZone tz) c'.
Proof.
  revert c'. unfold stepDays. induction k as [| k IH]; intros c' H.
  - cbn in H. injection H as <-. lia.
  - rewrite Nat.iter_succ in H.
    destruct (Nat.iter k (nextDay (fixedZone tz)) (Some c)) as [t |];
      [| discriminate H].
    cbn [nextDay] in H. apply localDay_addDays in H.
    specialize (IH t eq_refl). lia.
Qed.

Lemma datesAscend_withCursor (st : DeferredState) (c : option Z) :
  (forall t t', currentDate st = Some t -> c = Some t' ->
     localDay (fixedZone tz) t <= localDay (fixedZone tz) t') ->
  (currentDate st = None -> c = None) ->
  datesAscend (fixedZone tz) st -> datesAscend (fixedZone tz) (withCursor st c).
Proof.
  intros Hc Hnone [Hs Hb]. split; cbn [withCursor scheduledEmails currentDate].
  - exact Hs.
  - intros t' ->. destruct (currentDate st) as [t |] eqn:Ec.
    + specialize (Hc t t' eq_refl eq_refl).
      eapply Forall_impl; [| exact (Hb t eq_refl)]. cbn. intros e He. lia.
    + now specialize (Hnone eq_refl).
Qed.

Lemma deferredItem_datesAscend (iw : ItemWorld) (item : Item) (st : DeferredState) :
  hoursOfDay fromHour toHour ->
  datesAscend (fixedZone tz) st ->
  datesAscend (fixedZone tz)
    (stateOf (deferredItem (fixedZone tz) uid fromHour toHour sd iw item st)).
Proof.
  intros Hhours Hst.
  assert (Hfound : forall c, firstEligible (fixedZone tz) sd 14 (currentDate st) = Some c ->
            datesAscend (fixedZone tz) (withCursor st (Some c))).
  { intros c Hfirst. apply datesAscend_withCursor; [| | exact Hst].
    - intros t t' Et Et'. injection Et' as <-. rewrite Et in Hfirst.
      now apply firstEligible_later in Hfirst.
    - intros En. rewrite En, firstEligible_invalid in Hfirst. discriminate. }
  destruct (deferredItem_step (fixedZone tz) uid fromHour toHour sd iw item st)
    as [ | | c ? Hfirst | c fh th ? Hfirst | c fh th t ? Hfirst
       | c fh th t d n ? Hfirst | c fh th t d Hc Hfirst Hf Ht Hsend];
    cbn [stateOf]; try exact Hst; try (now apply Hfound).
  - apply datesAscend_withCursor; [| | exact Hst].
    + intros t t' Et Et'. rewrite Et in Et'. now apply stepDays_later in Et'.
    + intros ->. apply stepDays_invalid.
  - specialize (Hfound c Hfirst). destruct Hfound as [Hs Hb].
    cbn [withCursor scheduledEmails currentDate] in Hs, Hb.
    specialize (Hb c eq_refl).
    destruct (Hhours fh th Hf Ht) as [Hfh Hth].
    assert (Hday : entryDay (fixedZone tz) (deferredEntry d t)
                   = localDay (fixedZone tz) c).
    { unfold entryDay, deferredEntry. cbn [scheduledFor].
      apply (localDay_setHours tz c (randomHour fh th iw) (randomMinute iw));
        [now apply randomHour_in_day | apply randomMinute_range | exact Hsend]. }
    split; cbn [scheduledEmails currentDate].
    + rewrite map_app. cbn [map]. apply StronglySorted_snoc; [exact Hs |].
      rewrite Forall_map. eapply Forall_impl; [| exact Hb].
      cbn. intros e He. rewrite Hday. lia.
    + intros c' Hc'. apply localDay_addDays in Hc'. apply Forall_app. split.
      * eapply Forall_impl; [| exact Hb]. cbn. intros e He. lia.
      * constructor; [| constructor]. rewrite Hday. lia.
Qed.

Lemma deferredLoop_datesAscend (w : World) (items : list Item) (i : nat)
    (st : DeferredState) :
  hoursOfDay fromHour toHour ->
  datesAscend (fixedZone tz) st ->
  datesAscend (fixedZone tz)
    (stateOf (deferredLoop (fixedZone tz) uid fromHour toHour sd w i items st)).
Proof.
  intros Hhours.
  apply (deferredLoop_preserves (fixedZone tz) uid fromHour toHour sd
           (datesAscend (fixedZone tz))).
  intros iw item s. now apply deferredItem_datesAscend.
Qed.

End DeferredInvariants.

(** ** Entries against the items that produced them *)

Section DeferredOrder.

Variable z : Zone.
Variable uid : string.
Variable fromHour toHour : option Z.
Variable sd : list (option Z).

Lemma deferredItem_added (iw : ItemWorld) (item : Item) (st : DeferredState) :
  exists added,
    scheduledEmails (stateOf (deferredItem z uid fromHour toHour sd iw item st))
    = scheduledEmails st ++ added /\
    (added = [] \/
     isColdEmail item = true /\ exists e, added = [e] /\ entryKey e = itemKey item).
Proof.
  destruct (deferredItem_step z uid fromHour toHour sd iw item st)
    as [ | | | | | | c fh th t d Hc Hfirst Hf Ht Hsend Hcmp Hdata Hs];
    cbn [stateOf withCursor scheduledEmails];
    try (exists []; split; [now rewrite app_nil_r | now left]).
  eexists. split; [reflexivity |]. right. split; [exact Hc |].
  eexists. split; [reflexivity |].
  unfold entryKey, itemKey, deferredEntry. now rewrite Hdata.
Qed.

Lemma deferredLoop_added (w : World) (items : list Item) :
  forall (i : nat) (st : DeferredState),
  exists added,
    scheduledEmails (stateOf (deferredLoop z uid fromHour toHour sd w i items st))
    = scheduledEmails st ++ added /\
    (List.length added <= List.length (filter isColdEmail items))%nat /\
    (List.length added = List.length (filter isColdEmail items) ->
     map entryKey added = map itemKey (filter isColdEmail items)).
Proof.
  induction items as [| item rest IH]; intros i st.
  - exists []. cbn. now rewrite app_nil_r.
  - cbn [deferredLoop filter].
    destruct (deferredItem_added (atItem w i) item st) as [a0 [Ha0 Hcase]].
    assert (Hrest : exists a1,
      scheduledEmails
        (stateOf
           match deferredItem z uid fromHour toHour sd (atItem w i) item st with
           | Normal st1 => deferredLoop z uid fromHour toHour sd w (S i) rest st1
           | Throw n st1 => Throw n st1
           end)
      = scheduledEmails st ++ a0 ++ a1 /\
      (List.length a1 <= List.length (filter isColdEmail rest))%nat /\
      (List.length a1 = List.length (filter isColdEmail rest) ->
       map entryKey a1 = map itemKey (filter isColdEmail rest))).
    { destruct (deferredItem z uid fromHour toHour sd (atItem w i) item st)
        as [st1 | n st1]; cbn [stateOf] in *.
      - destruct (IH (S i) st1) as [a1 [Ha1 Hlen]].
        exists a1. split; [| exact Hlen].
        now rewrite Ha1, Ha0, <- app_assoc.
      - exists []. split; [now rewrite app_nil_r |]. split; [cbn; lia |].
        cbn [List.length]. intros Hz. symmetry in Hz.
        apply length_zero_iff_nil in Hz. now rewrite Hz. }
    destruct Hrest as [a1 [Hall [Hle Hkeys]]].
    exists (a0 ++ a1). split; [exact Hall |].
    destruct Hcase as [-> | [Hcold [e [-> Hkey]]]].
    + cbn [app]. destruct (isColdEmail item); cbn [List.length map].
      * split; [lia |]. intros Heq. lia.
      * split; [exact Hle | exact Hkeys].
    + rewrite Hcold. cbn [app List.length map]. split; [lia |].
      intros Heq. rewrite Hkey. f_equal. apply Hkeys. lia.
Qed.


End DeferredOrder.

(** ** The route in deferred mode *)

Lemma ensureAgenda_ready (srv srv1 : Server) :
  ensureAgenda srv = Normal srv1 ->
  agenda srv1 = true /\ emailJobs srv1 = emailJobs srv /\
  mongoReachable srv1 = mongoReachable srv /\
  emailConfigured srv1 = emailConfigured srv /\
  transporter srv1 = transporter srv /\
  transporterInitOk srv1 = transporterInitOk srv.
Proof.
  unfold ensureAgenda, initializeAgenda.
  destruct (agenda srv) eqn:Ha, (agendaInitialized srv) eqn:Hi,
    (mongoReachable srv) eqn:Hm; cbn; intros H; inversion H; subst; cbn;
    repeat split; auto.
Qed.

Lemma ensureAgenda_jobs (srv : Server) :
  emailJobs (stateOf (ensureAgenda srv)) = emailJobs srv.
Proof.
  unfold ensureAgenda, initializeAgenda.
  destruct (agenda srv), (agendaInitialized srv), (mongoReachable srv);
    reflexivity.
Qed.

(** In deferred mode the entries of the response are those of the run, and
    the response carries entries only when the run completed. *)
Lemma route_deferred (z : Zone) (srv : Server) (w : World) (req : Request) :
  sendNow req = false ->
  responseEntries (fst (scheduleSequenceRoute z srv w req)) = [] \/
  exists srv1 st,
    ensureAgenda srv = Normal srv1 /\
    deferredRun z srv1 w req = Normal st /\
    scheduleSequenceRoute z srv w req =
      (ok200 "Sequence scheduled successfully" (scheduledEmails st)
         (Some (normalizeOptions (requestClock w) (schedulingOptions req))),
       d_server st).
Proof.
  intros Hmode. unfold scheduleSequenceRoute.
  destruct (ensureAgenda srv) as [srv1 | n srv1] eqn:He; [| now left].
  destruct (ensureAgenda_ready _ _ He) as [Ha _]. rewrite Ha, Hmode. cbn [negb].
  unfold deferredMode.
  destruct (deferredRun z srv1 w req) as [st | n st] eqn:Hrun; [| now left].
  right. exists srv1, st. auto.
Qed.

Lemma isHourOfDay_parse (time : string) :
  isHourOfDay time = true -> exists h, parseHour time = Some h /\ 0 <= h <= 23.
Proof.
  unfold isHourOfDay. destruct (parseHour time) as [h |]; [| discriminate].
  intros H. apply andb_prop in H. destruct H as [H1 H2].
  exists h. split; [reflexivity | lia].
Qed.

Lemma hoursOfDay_parsed (from to_ : string) :
  isHourOfDay from = true -> isHourOfDay to_ = true ->
  hoursOfDay (parseHour from) (parseHour to_).
Proof.
  intros Hf Ht fh th Ef Et.
  destruct (isHourOfDay_parse _ Hf) as [h1 [E1 R1]].
  destruct (isHourOfDay_parse _ Ht) as [h2 [E2 R2]].
  rewrite E1 in Ef. rewrite E2 in Et. injection Ef as <-. injection Et as <-.
  now split.
Qed.

Lemma route_entries_drawn (z : Zone) (srv : Server) (w : World) (req : Request) :
  sendNow req = false ->
  let options := normalizeOptions (requestClock w) (schedulingOptions req) in
  Forall (drawnOnAllowedDay z (parseHour (o_fromTime options))
            (parseHour (o_toTime options)) (scheduleDays (o_days options)))
    (responseEntries (fst (scheduleSequenceRoute z srv w req))).
Proof.
  intros Hmode options.
  destruct (route_deferred z srv w req Hmode) as [-> | [srv1 [st [_ [Hrun ->]]]]];
    [constructor |].
  cbn [fst responseEntries ok200 json].
  change st with (stateOf (Normal st)). rewrite <- Hrun.
  unfold deferredRun. apply deferredLoop_drawn. constructor.
Qed.

Lemma route_entries_ascend (tz : Z) (srv : Server) (w : World) (req : Request) :
  sendNow req = false ->
  let options := normalizeOptions (requestClock w) (schedulingOptions req) in
  hoursOfDay (parseHour (o_fromTime options)) (parseHour (o_toTime options)) ->
  StronglySorted Z.lt
    (map (entryDay (fixedZone tz))
       (responseEntries (fst (scheduleSequenceRoute (fixedZone tz) srv w req)))).
Proof.
  intros Hmode options Hhours.
  destruct (route_deferred (fixedZone tz) srv w req Hmode)
    as [-> | [srv1 [st [_ [Hrun ->]]]]];
    [constructor |].
  cbn [fst responseEntries ok200 json].
  change st with (stateOf (Normal st)). rewrite <- Hrun.
  unfold deferredRun. apply deferredLoop_datesAscend; [exact Hhours |].
  split; [constructor | intros c _; constructor].
Qed.

Lemma route_entries_keys (z : Zone) (srv : Server) (w : World) (req : Request) :
  sendNow req = false ->
  let es := responseEntries (fst (scheduleSequenceRoute z srv w req)) in
  List.length es = List.length (filter isColdEmail (sequence req)) ->
  map entryKey es = map itemKey (filter isColdEmail (sequence req)).
Proof.
  intros Hmode es. subst es.
  destruct (route_deferred z srv w req Hmode) as [-> | [srv1 [st [_ [Hrun ->]]]]].
  - cbn [List.length map]. intros Hz. symmetry in Hz.
    apply length_zero_iff_nil in Hz. now rewrite Hz.
  - cbn [fst responseEntries ok200 json].
    change st with (stateOf (Normal st)). rewrite <- Hrun.
    unfold deferredRun.
    match goal with
    | |- context [deferredLoop ?a ?b ?c ?d ?e ?f ?g ?h ?k] =>
        destruct (deferredLoop_added a b c d e f h g k) as [added [-> [_ Hkeys]]]
    end.
    exact Hkeys.
Qed.

(** ** Zones that keep their offset for a while *)

Lemma keepsOffset_fixed (tz lo hi : Z) : keepsOffset (fixedZone tz) tz lo hi.
Proof. intros t _. split; reflexivity. Qed.

Lemma keepsOffsetDuring_fixed (tz : Z) (start : option Z) (n : nat) :
  keepsOffsetDuring (fixedZone tz) tz start n.
Proof. destruct start; [apply keepsOffset_fixed | exact I]. Qed.

Lemma keepsOffset_narrow (z : Zone) (tz lo hi lo' hi' : Z) :
  keepsOffset z tz lo hi -> lo <= lo' -> hi' <= hi -> keepsOffset z tz lo' hi'.
Proof. intros H Hlo Hhi t Ht. apply H. lia. Qed.

Lemma stepDays_fixed (tz : Z) (k : nat) (c c' : Z) :
  stepDays (fixedZone tz) k (Some c) = Some c' -> c' = c + Z.of_nat k * msPerDay.
Proof.
  revert c'. unfold stepDays. induction k as [| k IH]; intros c' H.
  - cbn in H. injection H as <-. lia.
  - rewrite Nat.iter_succ in H.
    destruct (Nat.iter k (nextDay (fixedZone tz)) (Some c)) as [t |];
      [| discriminate H].
    cbn [nextDay] in H. apply addDays_fixed in H.
    specialize (IH t eq_refl). lia.
Qed.

(** [setHours] with an hour of the day stays within a day of the date. *)
Lemma setHours_near (tz c h m t : Z) :
  0 <= h <= 23 -> 0 <= m <= 59 ->
  setHours (fixedZone tz) c h m 0 0 = Some t ->
  c - msPerDay < t < c + msPerDay.
Proof.
  intros Hh Hm H. unfold setHours, utcOf in H.
  cbn [fixedZone offsetAt offsetOfLocal] in H. apply TimeClip_some in H.
  unfold localDay, localTime in H. cbn [fixedZone offsetAt] in H.
  pose proof (Z.div_mod (c + tz) msPerDay ltac:(discriminate)) as E.
  pose proof (Z.mod_pos_bound (c + tz) msPerDay ltac:(reflexivity)) as B.
  unfold msPerDay, msPerHour, msPerMinute in *. lia.
Qed.

Section Steady.

Variable z : Zone.
Variables tz lo hi : Z.
Hypothesis Hz : keepsOffset z tz lo hi.

Lemma localTime_steady (t : Z) :
  lo <= t <= hi -> localTime z t = localTime (fixedZone tz) t.
Proof.
  intros H. unfold localTime. cbn [fixedZone offsetAt].
  now rewrite (proj1 (Hz t H)).
Qed.

Lemma utcOf_steady (t : Z) : lo <= t <= hi -> utcOf z (t + tz) = t.
Proof. intros H. unfold utcOf. rewrite (proj2 (Hz t H)). ring. Qed.

Lemma getDay_steady (t : Z) :
  lo <= t <= hi -> getDay z t = getDay (fixedZone tz) t.
Proof. intros H. unfold getDay, localDay. now rewrite localTime_steady. Qed.

Lemma addDays_steady (c : Z) :
  lo <= c -> c + msPerDay <= hi ->
  addDays z c 1 = addDays (fixedZone tz) c 1.
Proof.
  intros Hlo Hhi. unfold addDays.
  assert (Hc : lo <= c <= hi) by (unfold msPerDay in *; lia).
  rewrite (localTime_steady c Hc). unfold localTime. cbn [fixedZone offsetAt].
  replace (c + tz + 1 * msPerDay) with (c + msPerDay + tz) by ring.
  rewrite utcOf_steady by (unfold msPerDay in *; lia).
  unfold utcOf. cbn [fixedZone offsetOfLocal]. f_equal. ring.
Qed.

Lemma setHours_steady (c h m : Z) :
  lo + msPerDay <= c -> c + msPerDay <= hi ->
  0 <= h <= 23 -> 0 <= m <= 59 ->
  setHours z c h m 0 0 = setHours (fixedZone tz) c h m 0 0.
Proof.
  intros Hlo Hhi Hh Hm. unfold setHours, localDay.
  assert (Hc : lo <= c <= hi) by (unfold msPerDay in *; lia).
  rewrite (localTime_steady c Hc). unfold localTime. cbn [fixedZone offsetAt].
  set (d := (c + tz) / msPerDay).
  set (t := d * msPerDay + h * msPerHour + m * msPerMinute + 0 * 1000 + 0 - tz).
  replace (d * msPerDay + h * msPerHour + m * msPerMinute + 0 * 1000 + 0)
    with (t + tz) by (unfold t; ring).
  assert (Ht : lo <= t <= hi).
  { pose proof (Z.div_mod (c + tz) msPerDay ltac:(discriminate)) as E.
    pose proof (Z.mod_pos_bound (c + tz) msPerDay ltac:(reflexivity)) as B.
    fold d in E. unfold t, msPerDay, msPerHour, msPerMinute in *. lia. }
  rewrite (utcOf_steady t Ht). unfold utcOf. cbn [fixedZone offsetOfLocal].
  f_equal. ring.
Qed.

Lemma scheduleOnDay_steady (uid : string) (fromHour toHour : option Z)
    (iw : ItemWorld) (item : Item) (st : DeferredState) :
  hoursOfDay fromHour toHour ->
  (forall c, currentDate st = Some c -> lo + msPerDay <= c /\ c + msPerDay <= hi) ->
  scheduleOnDay z uid fromHour toHour iw item st
  = scheduleOnDay (fixedZone tz) uid fromHour toHour iw item st.
Proof.
  intros Hhours Hc. unfold scheduleOnDay.
  destruct (currentDate st) as [c |]; [| reflexivity].
  destruct fromHour as [fh |]; [| reflexivity].
  destruct toHour as [th |]; [| reflexivity].
  destruct (Hc c eq_refl) as [Hlo Hhi].
  destruct (Hhours fh th eq_refl eq_refl) as [Rf Rt].
  rewrite (setHours_steady c _ _ Hlo Hhi (randomHour_in_day fh th iw Rf Rt)
             (randomMinute_range iw)).
  rewrite addDays_steady by (unfold msPerDay in *; lia).
  reflexivity.
Qed.

Lemma findValidDay_steady (uid : string) (fromHour toHour : option Z)
    (sd : list (option Z)) (left : nat) :
  hoursOfDay fromHour toHour ->
  forall (iw : ItemWorld) (item : Item) (st : DeferredState),
    (forall c, currentDate st = Some c ->
       lo + msPerDay <= c /\ c + Z.of_nat left * msPerDay <= hi) ->
    findValidDay z uid fromHour toHour sd left iw item st
    = findValidDay (fixedZone tz) uid fromHour toHour sd left iw item st.
Proof.
  intros Hhours. induction left as [| left IH]; intros iw item st Hc;
    [reflexivity |].
  cbn [findValidDay]. destruct (currentDate st) as [c |] eqn:Ec.
  - destruct (Hc c eq_refl) as [Hlo Hhi].
    assert (Hday : c + msPerDay <= hi) by (unfold msPerDay in *; lia).
    rewrite getDay_steady by (unfold msPerDay in *; lia).
    destruct (includes sd (getDay (fixedZone tz) c)).
    + apply scheduleOnDay_steady; [exact Hhours |].
      intros c' Ec'. rewrite Ec in Ec'. injection Ec' as <-. now split.
    + rewrite addDays_steady by (unfold msPerDay in *; lia).
      apply IH. cbn [withCursor currentDate]. intros c1 Hc1.
      apply addDays_fixed in Hc1. subst c1. unfold msPerDay in *. lia.
  - apply IH. intros c Hc'. rewrite Ec in Hc'. discriminate.
Qed.

End Steady.

(** In a zone that keeps one offset, a run of the loop body leaves the
    cursor at most 14 days on, and times what it schedules within a day of
    the days it searched. *)
Lemma deferredItem_reach (tz : Z) (uid : string) (fromHour toHour : option Z)
    (sd : list (option Z)) (iw : ItemWorld) (item : Item) (st : DeferredState) :
  hoursOfDay fromHour toHour ->
  let st' := stateOf (deferredItem (fixedZone tz) uid fromHour toHour sd iw item st) in
  (forall c', currentDate st' = Some c' ->
     exists c, currentDate st = Some c /\ c <= c' <= c + 14 * msPerDay) /\
  exists added,
    scheduledEmails st' = scheduledEmails st ++ added /\
    forall e, In e added ->
      exists c, currentDate st = Some c /\
                c - msPerDay < scheduledFor e < c + 14 * msPerDay.
Proof.
  intros Hhours st'. subst st'.
  assert (Hsame : forall st1,
            scheduledEmails st1 = scheduledEmails st ->
            exists added,
              scheduledEmails st1 = scheduledEmails st ++ added /\
              forall e, In e added ->
                exists c, currentDate st = Some c /\
                          c - msPerDay < scheduledFor e < c + 14 * msPerDay).
  { intros st1 H. exists []. rewrite app_nil_r. split; [exact H |].
    intros e []. }
  assert (Hfound : forall c, firstEligible (fixedZone tz) sd 14 (currentDate st) = Some c ->
            exists c0, currentDate st = Some c0 /\ c0 <= c <= c0 + 13 * msPerDay).
  { intros c H. apply firstEligible_offset in H.
    destruct H as [t [k [Ht [Hk ->]]]]. exists t. split; [exact Ht |].
    unfold msPerDay. lia. }
  destruct (deferredItem_step (fixedZone tz) uid fromHour toHour sd iw item st)
    as [ | _ _ | c _ Hfirst _ | c fh th _ Hfirst _ _ _ | c fh th t _ Hfirst _ _ _ _ _
       | c fh th t d n _ Hfirst _ _ _ _ _ _
       | c fh th t d _ Hfirst Hf Ht Hsend _ _ _];
    cbn [stateOf withCursor currentDate scheduledEmails].
  - split; [| now apply Hsame]. intros c' Hc'. exists c'. split; [exact Hc' | unfold msPerDay; lia].
  - split; [| now apply Hsame]. intros c' Hc'.
    destruct (currentDate st) as [c0 |]; [| now rewrite stepDays_invalid in Hc'].
    apply stepDays_fixed in Hc'. exists c0. split; [reflexivity |].
    subst c'. unfold msPerDay. lia.
  - split; [| now apply Hsame]. intros c' Hc'. injection Hc' as <-.
    destruct (Hfound c Hfirst) as [c0 [E0 B0]]. exists c0. split; [exact E0 |].
    unfold msPerDay in *. lia.
  - split; [| now apply Hsame]. intros c' Hc'. injection Hc' as <-.
    destruct (Hfound c Hfirst) as [c0 [E0 B0]]. exists c0. split; [exact E0 |].
    unfold msPerDay in *. lia.
  - split; [| now apply Hsame]. intros c' Hc'. injection Hc' as <-.
    destruct (Hfound c Hfirst) as [c0 [E0 B0]]. exists c0. split; [exact E0 |].
    unfold msPerDay in *. lia.
  - split; [| now apply Hsame]. intros c' Hc'. injection Hc' as <-.
    destruct (Hfound c Hfirst) as [c0 [E0 B0]]. exists c0. split; [exact E0 |].
    unfold msPerDay in *. lia.
  - destruct (Hfound c Hfirst) as [c0 [E0 B0]]. split.
    + intros c' Hc'. apply addDays_fixed in Hc'. exists c0. split; [exact E0 |].
      unfold msPerDay in *. lia.
    + exists [deferredEntry d t]. split; [reflexivity |].
      intros e [<- | []]. exists c0. split; [exact E0 |].
      cbn [deferredEntry scheduledFor].
      destruct (Hhours fh th Hf Ht) as [Rf Rt].
      pose proof (setHours_near tz c _ _ t (randomHour_in_day fh th iw Rf Rt)
                    (randomMinute_range iw) Hsend) as Hnear.
      unfold msPerDay in *. lia.
Qed.

Section SteadyLoop.

Variable z : Zone.
Variables tz lo hi : Z.
Hypothesis Hz : keepsOffset z tz lo hi.
Variable uid : string.
Variable fromHour toHour : option Z.
Variable sd : list (option Z).
Hypothesis Hhours : hoursOfDay fromHour toHour.

(** While the zone keeps its offset over the period the loop can reach, the
    loop runs as it does in the zone that always has that offset, and every
    time it schedules lies within the period. *)
Lemma deferredLoop_steady (w : World) (items : list Item) :
  forall (i : nat) (st : DeferredState),
    (forall c, currentDate st = Some c ->
       lo + msPerDay <= c /\
       c + 14 * Z.of_nat (List.length items) * msPerDay <= hi) ->
    Forall (fun e => lo <= scheduledFor e <= hi) (scheduledEmails st) ->
    deferredLoop z uid fromHour toHour sd w i items st
    = deferredLoop (fixedZone tz) uid fromHour toHour sd w i items st /\
    Forall (fun e => lo <= scheduledFor e <= hi)
      (scheduledEmails
         (stateOf (deferredLoop (fixedZone tz) uid fromHour toHour sd w i items st))).
Proof.
  induction items as [| item rest IH]; intros i st Hc Hes.
  - split; [reflexivity | exact Hes].
  - cbn [deferredLoop].
    assert (Hitem : deferredItem z uid fromHour toHour sd (atItem w i) item st
                    = deferredItem (fixedZone tz) uid fromHour toHour sd
                        (atItem w i) item st).
    { unfold deferredItem. destruct (String.eqb (type item) "coldEmail");
        [| reflexivity].
      apply (findValidDay_steady z tz lo hi Hz); [exact Hhours |].
      intros c E. destruct (Hc c E) as [Hlo Hhi]. split; [exact Hlo |].
      cbn [List.length] in Hhi. unfold msPerDay in *. lia. }
    rewrite Hitem.
    destruct (deferredItem_reach tz uid fromHour toHour sd (atItem w i) item st
                Hhours) as [Hcur [added [Hadd Hin]]].
    assert (Hes1 : Forall (fun e => lo <= scheduledFor e <= hi)
                     (scheduledEmails
                        (stateOf (deferredItem (fixedZone tz) uid fromHour toHour sd
                                    (atItem w i) item st)))).
    { rewrite Hadd. apply Forall_app. split; [exact Hes |].
      apply Forall_forall. intros e He. destruct (Hin e He) as [c [E B]].
      destruct (Hc c E) as [Hlo Hhi]. cbn [List.length] in Hhi.
      unfold msPerDay in *. lia. }
    destruct (deferredItem (fixedZone tz) uid fromHour toHour sd (atItem w i) item st)
      as [st1 | n st1]; cbn [stateOf] in *.
    + apply IH; [| exact Hes1].
      intros c1 E1. destruct (Hcur c1 E1) as [c [E B]].
      destruct (Hc c E) as [Hlo Hhi]. cbn [List.length] in Hhi.
      unfold msPerDay in *. lia.
    + split; [reflexivity | exact Hes1].
Qed.

End SteadyLoop.

(** From an Invalid Date the loop schedules nothing, whatever the zone. *)
Lemma findValidDay_invalid (z : Zone) (uid : string) (fromHour toHour : option Z)
    (sd : list (option Z)) (left : nat) (iw : ItemWorld) (item : Item)
    (st : DeferredState) :
  currentDate st = None ->
  findValidDay z uid fromHour toHour sd left iw item st = Normal st.
Proof.
  intros H. induction left as [| left IH]; [reflexivity |].
  cbn [findValidDay]. now rewrite H.
Qed.

Lemma deferredLoop_invalid (z : Zone) (uid : string) (fromHour toHour : option Z)
    (sd : list (option Z)) (w : World) (items : list Item) :
  forall (i : nat) (st : DeferredState),
    currentDate st = None ->
    deferredLoop z uid fromHour toHour sd w i items st = Normal st.
Proof.
  induction items as [| item rest IH]; intros i st H; [reflexivity |].
  cbn [deferredLoop]. unfold deferredItem.
  destruct (String.eqb (type item) "coldEmail");
    [rewrite findValidDay_invalid by exact H |]; now apply IH.
Qed.

(** On a host whose clocks do not change from the day before the start date
    to 14 days per item after it, the deferred mode answers as it does on a
    host that always has that offset, and the local time of every send it
    reports is the same on both. *)
Lemma route_steady (z : Zone) (tz : Z) (srv : Server) (w : World) (req : Request) :
  sendNow req = false ->
  let options := normalizeOptions (requestClock w) (schedulingOptions req) in
  hoursOfDay (parseHour (o_fromTime options)) (parseHour (o_toTime options)) ->
  keepsOffsetDuring z tz (o_startDate options) (List.length (sequence req)) ->
  scheduleSequenceRoute z srv w req = scheduleSequenceRoute (fixedZone tz) srv w req /\
  forall e,
    In e (responseEntries (fst (scheduleSequenceRoute (fixedZone tz) srv w req))) ->
    localTime z (scheduledFor e) = localTime (fixedZone tz) (scheduledFor e).
Proof.
  intros Hmode options Hhours Hkeeps.
  assert (Hrun : forall srv1,
            deferredRun z srv1 w req = deferredRun (fixedZone tz) srv1 w req /\
            forall e,
              In e (scheduledEmails (stateOf (deferredRun (fixedZone tz) srv1 w req))) ->
              localTime z (scheduledFor e) = localTime (fixedZone tz) (scheduledFor e)).
  { intros srv1. unfold deferredRun. fold options.
    destruct (o_startDate options) as [s |] eqn:Es; cbn [keepsOffsetDuring] in Hkeeps.
    - destruct (deferredLoop_steady z tz _ _ Hkeeps (userId req) _ _
                  (scheduleDays (o_days options)) Hhours w (sequence req) 0
                  {| currentDate := Some s; scheduledEmails := [];
                     d_server := srv1 |}) as [Heq Hrange].
      + cbn [currentDate]. intros c E. injection E as <-. unfold msPerDay. lia.
      + constructor.
      + split; [exact Heq |]. intros e He.
        rewrite Forall_forall in Hrange.
        apply (localTime_steady z tz _ _ Hkeeps). now apply Hrange.
    - rewrite !deferredLoop_invalid by reflexivity.
      split; [reflexivity |]. intros e []. }
  split.
  - unfold scheduleSequenceRoute.
    destruct (ensureAgenda srv) as [srv1 | n srv1]; [| reflexivity].
    destruct (agenda srv1); cbn [negb]; [| reflexivity].
    rewrite Hmode. unfold deferredMode. now rewrite (proj1 (Hrun srv1)).
  - intros e He.
    destruct (route_deferred (fixedZone tz) srv w req Hmode)
      as [Hnil | [srv1 [st [_ [Hst Hroute]]]]].
    + rewrite Hnil in He. contradiction.
    + rewrite Hroute in He. cbn [fst responseEntries ok200 json] in He.
      apply (proj2 (Hrun srv1)). now rewrite Hst.
Qed.

(** What the transfer gives for one entry of the response. *)
Lemma route_steady_entry (z : Zone) (tz : Z) (srv : Server) (w : World)
    (req : Request) (e : Entry) :
  sendNow req = false ->
  let options := normalizeOptions (requestClock w) (schedulingOptions req) in
  hoursOfDay (parseHour (o_fromTime options)) (parseHour (o_toTime options)) ->
  keepsOffsetDuring z tz (o_startDate options) (List.length (sequence req)) ->
  In e (responseEntries (fst (scheduleSequenceRoute z srv w req))) ->
  In e (responseEntries (fst (scheduleSequenceRoute (fixedZone tz) srv w req))) /\
  getHours z (scheduledFor e) = getHours (fixedZone tz) (scheduledFor e) /\
  getMinutes z (scheduledFor e) = getMinutes (fixedZone tz) (scheduledFor e) /\
  getDay z (scheduledFor e) = getDay (fixedZone tz) (scheduledFor e).
Proof.
  intros Hmode options Hhours Hkeeps He.
  destruct (route_steady z tz srv w req Hmode Hhours Hkeeps) as [Hroute Hlocal].
  rewrite Hroute in He. split; [exact He |].
  unfold getHours, getMinutes, getDay, localDay. now rewrite (Hlocal e He).
Qed.

(** A zone whose clocks change once keeps its first offset until then. *)
Lemma zoneWithChange_keepsOffset (before after change lo hi : Z) :
  hi < change -> keepsOffset (zoneWithChange before after change) before lo hi.
Proof.
  intros H t Ht. cbn [zoneWithChange offsetAt offsetOfLocal].
  assert (E1 : (t <? change) = true) by (apply Z.ltb_lt; lia).
  assert (E2 : (t + before <? change + Z.max before after) = true)
    by (apply Z.ltb_lt; lia).
  now rewrite E1, E2.
Qed.

(** The search for an allowed day goes the same way while the zone keeps its
    offset from the cursor to the day found. *)
Lemma firstEligible_steady (z : Zone) (tz lo hi : Z) (sd : list (option Z))
    (left : nat) :
  keepsOffset z tz lo hi ->
  forall c c',
    lo <= c -> c' <= hi ->
    firstEligible (fixedZone tz) sd left (Some c) = Some c' ->
    firstEligible z sd left (Some c) = Some c'.
Proof.
  intros Hz. induction left as [| left IH]; intros c c' Hlo Hhi H;
    [discriminate |].
  pose proof (firstEligible_offset tz sd _ _ _ H) as [t [k [Et [_ Ek]]]].
  injection Et as <-.
  assert (Hc : lo <= c <= hi) by (unfold msPerDay in *; lia).
  cbn [firstEligible] in *. rewrite (getDay_steady z tz lo hi Hz c Hc).
  destruct (includes sd (getDay (fixedZone tz) c)); [exact H |].
  destruct (addDays (fixedZone tz) c 1) as [c1 |] eqn:E1;
    [| destruct left; discriminate H].
  pose proof (addDays_fixed _ _ _ _ E1) as Ec1.
  pose proof (firstEligible_offset tz sd _ _ _ H) as [t1 [k1 [Et1 [_ Ek1]]]].
  injection Et1 as <-.
  rewrite (addDays_steady z tz lo hi Hz c) by (unfold msPerDay in *; lia).
  rewrite E1. apply IH; [unfold msPerDay in *; lia | exact Hhi | exact H].
Qed.

(** ** Properties of the deferred mode *)

(** C1 (as amended).  On a host whose clocks do not change over the period
    the run can reach (from the day before the start date to 14 days per
    item after it), in a deferred-mode call whose [fromTime] and [toTime]
    both name an hour of the day (0 to 23), the entries of the response fall
    on strictly increasing local calendar days; and when every cold e-mail
    of the sequence was scheduled (it found an allowed day and drew a time
    in the future), the entries are exactly those items, in input order.
    (Across a clock change the days need not increase: see
    [skipped_hour_puts_two_sends_on_one_day].) *)
Theorem C1_dates_strictly_increase (z : Zone) (tz : Z) (srv : Server) (w : World)
    (req : Request) :
  sendNow req = false ->
  isHourOfDay (o_fromTime (normalizeOptions (requestClock w) (schedulingOptions req)))
    = true ->
  isHourOfDay (o_toTime (normalizeOptions (requestClock w) (schedulingOptions req)))
    = true ->
  keepsOffsetDuring z tz
    (o_startDate (normalizeOptions (requestClock w) (schedulingOptions req)))
    (List.length (sequence req)) ->
  let es := responseEntries (fst (scheduleSequenceRoute z srv w req)) in
  StronglySorted Z.lt (map (entryDay z) es) /\
  (List.length es = List.length (filter isColdEmail (sequence req)) ->
   map entryKey es = map itemKey (filter isColdEmail (sequence req))).
Proof.
  intros Hmode Hfrom Hto Hkeeps es. split.
  - pose proof (hoursOfDay_parsed _ _ Hfrom Hto) as Hhours.
    destruct (route_steady z tz srv w req Hmode Hhours Hkeeps) as [Hroute Hlocal].
    subst es. rewrite Hroute.
    rewrite (map_ext_in (entryDay z) (entryDay (fixedZone tz))).
    + apply route_entries_ascend; [exact Hmode | exact Hhours].
    + intros e He. unfold entryDay, localDay. now rewrite (Hlocal e He).
  - now apply route_entries_keys.
Qed.


(** C5 (as amended).  On a host whose clocks do not change over the period
    the run can reach (from the day before the start date to 14 days per
    item after it), in deferred mode, when [fromTime] and [toTime] both name
    an hour of the day (0 to 23), the local weekday of every entry of the
    response is one of the numbers the caller's [days] map to.  (Across a
    clock change the entry can fall on another weekday: see
    [skipped_hour_changes_the_weekday].) *)
Theorem C5_allowed_weekday (z : Zone) (tz : Z) (srv : Server) (w : World)
    (req : Request) :
  sendNow req = false ->
  isHourOfDay (o_fromTime (normalizeOptions (requestClock w) (schedulingOptions req)))
    = true ->
  isHourOfDay (o_toTime (normalizeOptions (requestClock w) (schedulingOptions req)))
    = true ->
  keepsOffsetDuring z tz
    (o_startDate (normalizeOptions (requestClock w) (schedulingOptions req)))
    (List.length (sequence req)) ->
  forall e,
    In e (responseEntries (fst (scheduleSequenceRoute z srv w req))) ->
    includes
      (scheduleDays (o_days (normalizeOptions (requestClock w) (schedulingOptions req))))
      (getDay z (scheduledFor e)) = true.
Proof.
  intros Hmode Hfrom Hto Hkeeps e Hz.
  destruct (route_steady_entry z tz srv w req e Hmode
              (hoursOfDay_parsed _ _ Hfrom Hto) Hkeeps Hz) as [He [_ [_ ->]]].
  pose proof (route_entries_drawn (fixedZone tz) srv w req Hmode) as Hall.
  cbv zeta in Hall. rewrite Forall_forall in Hall.
  destruct (Hall e He) as [fh [th [iw [c [Ef [Et [Hday Hsend]]]]]]].
  destruct (hoursOfDay_parsed _ _ Hfrom Hto fh th Ef Et) as [Hfh Hth].
  unfold sendTimeOn in Hsend. unfold getDay.
  rewrite (localDay_setHours _ _ _ _ _ (randomHour_in_day fh th iw Hfh Hth)
             (randomMinute_range iw) Hsend).
  exact Hday.
Qed.

Lemma C1_dates_strictly_increase_witness :
  (sendNow officeHoursRequest = false /\
   isHourOfDay "09:00" = true /\ isHourOfDay "17:00" = true /\
   keepsOffsetDuring easternSpring2030 (-5 * msPerHour) (Some monday2030) 2) /\
  let es := responseEntries
              (fst (scheduleSequenceRoute easternSpring2030 readyServer sundayTopWorld
                      officeHoursRequest)) in
  StronglySorted Z.lt (map (entryDay easternSpring2030) es) /\
  (List.length es = List.length (filter isColdEmail (sequence officeHoursRequest)) ->
   map entryKey es = map itemKey (filter isColdEmail (sequence officeHoursRequest))).
Proof.
  assert (Hkeeps : keepsOffsetDuring easternSpring2030 (-5 * msPerHour)
                     (Some monday2030) 2).
  { apply zoneWithChange_keepsOffset. vm_compute. reflexivity. }
  split; [split; [reflexivity | split; [reflexivity | split; [reflexivity | exact Hkeeps]]] |].
  apply (C1_dates_strictly_increase easternSpring2030 (-5 * msPerHour) readyServer
           sundayTopWorld officeHoursRequest);
    [reflexivity | reflexivity | reflexivity | exact Hkeeps].
Defined.

(** C1 as stated fails when the window reaches past 23:00.  With the window
    00:00 to 24:00 the first item draws hour 24, which [setHours] carries to
    Tuesday 00:00, and the second item then draws Tuesday 00:00 as well: both
    items are scheduled, both in the future, on the same calendar day. *)
Lemma C1_same_day_counterexample :
  let es := responseEntries
              (fst (scheduleSequenceRoute utc readyServer sundayTopThenBottomWorld
                      wholeDayRequest)) in
  List.length es = List.length (filter isColdEmail (sequence wholeDayRequest)) /\
  Forall (fun e => requestClock sundayTopThenBottomWorld < scheduledFor e) es /\
  map (entryDay utc) es = [21922; 21922] /\
  ~ StronglySorted Z.lt (map (entryDay utc) es).
Proof.
  cbv zeta. split; [reflexivity |]. split; [| split].
  - vm_compute. repeat constructor.
  - vm_compute. reflexivity.
  - assert (E : map (entryDay utc)
             (responseEntries
                (fst (scheduleSequenceRoute utc readyServer sundayTopThenBottomWorld
                        wholeDayRequest))) = [21922; 21922])
      by (vm_compute; reflexivity).
    rewrite E. intros Hs. apply StronglySorted_inv in Hs. destruct Hs as [_ Hall].
    inversion Hall; subst. lia.
Qed.

(** The clocks must not change either.  In Nuuk, with Saturdays and Sundays
    allowed and the window 23:00 to 23:00 (both bounds hours of the day), the
    first item is given Saturday 30 March 2030 at 23:00, an hour the clock
    change skips; it is stored as Sunday 00:00, and the second item is given
    Sunday 23:00: two sends on one local calendar day. *)
Lemma skipped_hour_puts_two_sends_on_one_day :
  let es := responseEntries
              (fst (scheduleSequenceRoute nuukSpring2030 readyServer earlyMarchWorld
                      lateWeekendRequest)) in
  isHourOfDay "23:00" = true /\
  map (fun e => (email e, entryDay nuukSpring2030 e,
                 getHours nuukSpring2030 (scheduledFor e))) es
  = [(Some "alice@example.com", 22004, 0); (Some "bob@example.com", 22004, 23)].
Proof. cbv zeta. split; vm_compute; reflexivity. Qed.



(** The clocks must not change either.  In New York, with the window 02:00
    to 02:00 on Sunday 10 March 2030, the hour drawn is 2, which the clock
    change skips: the entry is stored as 03:00 local time, outside the
    window although [0 <= 2 <= 2 <= 23]. *)
Lemma skipped_hour_leaves_the_window :
  parseHour "02:00" = Some 2 /\
  map (fun e => getHours easternSpring2030 (scheduledFor e))
    (responseEntries
       (fst (scheduleSequenceRoute easternSpring2030 readyServer earlyMarchWorld
               earlySundayRequest)))
  = [3].
Proof. split; vm_compute; reflexivity. Qed.

Lemma C5_allowed_weekday_witness :
  (sendNow officeHoursRequest = false /\
   isHourOfDay "09:00" = true /\ isHourOfDay "17:00" = true /\
   keepsOffsetDuring easternSpring2030 (-5 * msPerHour) (Some monday2030) 2) /\
  forall e,
    In e (responseEntries
            (fst (scheduleSequenceRoute easternSpring2030 readyServer sundayTopWorld
                    officeHoursRequest))) ->
    includes (scheduleDays ["Monday"; "Wednesday"])
      (getDay easternSpring2030 (scheduledFor e)) = true.
Proof.
  assert (Hkeeps : keepsOffsetDuring easternSpring2030 (-5 * msPerHour)
                     (Some monday2030) 2).
  { apply zoneWithChange_keepsOffset. vm_compute. reflexivity. }
  split; [split; [reflexivity | split; [reflexivity | split; [reflexivity | exact Hkeeps]]] |].
  apply (C5_allowed_weekday easternSpring2030 (-5 * msPerHour) readyServer
           sundayTopWorld officeHoursRequest);
    [reflexivity | reflexivity | reflexivity | exact Hkeeps].
Defined.

(** C5 as stated fails when the window reaches past 23:00.  With Fridays only
    and the window 00:00 to 24:00, the largest draw gives hour 24 and the
    entry lands on Saturday 00:00. *)
Lemma C5_saturday_counterexample :
  exists e,
    In e (responseEntries
            (fst (scheduleSequenceRoute utc readyServer sundayTopWorld
                    fridayOnlyRequest))) /\
    getDay utc (scheduledFor e) = 6 /\
    scheduleDays ["friday"] = [Some 5] /\
    includes (scheduleDays ["friday"]) (getDay utc (scheduledFor e)) = false.
Proof.
  exists {| email := Some "alice@example.com"; entry_subject := Some "Hello";
            scheduledFor := friday2030 + msPerDay |}.
  split; [vm_compute; left; reflexivity |].
  repeat split; reflexivity.
Qed.

(** The clocks must not change either.  In Nuuk, with Saturdays only and the
    window 23:00 to 23:00, the send drawn for Saturday 30 March 2030 falls in
    the skipped hour and is stored on Sunday. *)
Lemma skipped_hour_changes_the_weekday :
  isHourOfDay "23:00" = true /\
  scheduleDays ["saturday"] = [Some 6] /\
  map (fun e => getDay nuukSpring2030 (scheduledFor e))
    (responseEntries
       (fst (scheduleSequenceRoute nuukSpring2030 readyServer earlyMarchWorld
               lateSaturdayRequest)))
  = [0].
Proof. repeat split; vm_compute; reflexivity. Qed.

(** C2 (as amended).  In deferred mode, a cold e-mail whose search finds an
    allowed day [c] but whose drawn send time is not in the future (or is
    not a valid date) is dropped: no entry and no job are added.  The cursor
    is left on the day [c] itself, not moved past it, so the search of the
    next item stops on [c] again. *)
Theorem C2_past_draw_keeps_cursor (z : Zone) (uid : string) (fh th : Z)
    (sd : list (option Z)) (iw : ItemWorld) (item : Item) (st : DeferredState)
    (c : Z) :
  isColdEmail item = true ->
  firstEligible z sd 14 (currentDate st) = Some c ->
  (forall t, sendTimeOn z fh th iw c = Some t -> t <= clock iw) ->
  exists st',
    deferredItem z uid (Some fh) (Some th) sd iw item st = Normal st' /\
    scheduledEmails st' = scheduledEmails st /\
    d_server st' = d_server st /\
    currentDate st' = Some c /\
    firstEligible z sd 14 (currentDate st') = Some c.
Proof.
  intros Hcold Hfirst Hpast. exists (withCursor st (Some c)).
  split; [| repeat split].
  - unfold deferredItem. fold (isColdEmail item). rewrite Hcold.
    rewrite findValidDay_firstEligible, Hfirst.
    unfold scheduleOnDay. cbn [withCursor currentDate].
    fold (sendTimeOn z fh th iw c).
    destruct (sendTimeOn z fh th iw c) as [t |]; [| reflexivity].
    specialize (Hpast t eq_refl). apply Z.ltb_ge in Hpast. now rewrite Hpast.
  - cbn [withCursor currentDate]. apply firstEligible_here.
    now apply firstEligible_sound in Hfirst.
Qed.

Lemma C2_past_draw_keeps_cursor_witness :
  let iw := atItem mondayMorningWorld 0 in
  let st := {| currentDate := Some (monday2030 + 10 * msPerHour);
               scheduledEmails := []; d_server := readyServer |} in
  let sd := scheduleDays ["monday"; "tuesday"] in
  isColdEmail alice = true /\
  firstEligible utc sd 14 (currentDate st) = Some (monday2030 + 10 * msPerHour) /\
  (forall t, sendTimeOn utc 9 17 iw (monday2030 + 10 * msPerHour) = Some t ->
             t <= clock iw) /\
  exists st',
    deferredItem utc "u1" (Some 9) (Some 17) sd iw alice st = Normal st' /\
    scheduledEmails st' = scheduledEmails st /\
    d_server st' = d_server st /\
    currentDate st' = Some (monday2030 + 10 * msPerHour) /\
    firstEligible utc sd 14 (currentDate st') = Some (monday2030 + 10 * msPerHour).
Proof.
  assert (Hpast : forall t,
            sendTimeOn utc 9 17 (atItem mondayMorningWorld 0)
              (monday2030 + 10 * msPerHour) = Some t ->
            t <= clock (atItem mondayMorningWorld 0)).
  { intros t Ht. vm_compute in Ht. injection Ht as <-. vm_compute. discriminate. }
  cbv zeta. split; [reflexivity |]. split; [reflexivity |].
  split; [exact Hpast |].
  apply (C2_past_draw_keeps_cursor utc "u1" 9 17
           (scheduleDays ["monday"; "tuesday"]) (atItem mondayMorningWorld 0) alice
           {| currentDate := Some (monday2030 + 10 * msPerHour); scheduledEmails := [];
              d_server := readyServer |} (monday2030 + 10 * msPerHour)).
  - reflexivity.
  - reflexivity.
  - exact Hpast.
Defined.

(** C2 as stated fails: the cursor is not advanced.  On Monday at 10:00 with
    the default options, the first item draws Monday 09:00, which is past,
    and is dropped with the cursor unchanged; the second item is therefore
    scheduled on that same Monday (17:00), not on Tuesday. *)
Lemma C2_cursor_not_advanced_counterexample :
  let iw := atItem mondayMorningWorld 0 in
  let c := monday2030 + 10 * msPerHour in
  let st := {| currentDate := Some c; scheduledEmails := [];
               d_server := readyServer |} in
  let sd := scheduleDays ["monday"; "tuesday"; "wednesday"; "thursday"; "friday"] in
  firstEligible utc sd 14 (currentDate st) = Some c /\
  sendTimeOn utc 9 17 iw c = Some (monday2030 + 9 * msPerHour) /\
  monday2030 + 9 * msPerHour < clock iw /\
  deferredItem utc "u1" (Some 9) (Some 17) sd iw alice st = Normal st /\
  currentDate st <> addDays utc c 1 /\
  map (fun e => (email e, entryDay utc e, getHours utc (scheduledFor e)))
    (responseEntries
       (fst (scheduleSequenceRoute utc readyServer mondayMorningWorld defaultsRequest)))
  = [(Some "bob@example.com", 21921, 17)].
Proof.
  cbv zeta. repeat split; try (vm_compute; reflexivity).
  vm_compute; discriminate.
Qed.




(** C3, evaluated where the code departs from it.  In deferred mode a cold
    e-mail whose [data] has no recipient is scheduled all the same: the store
    receives a job whose [to] is undefined and the response lists an entry
    whose [email] is undefined.  The same item in immediate mode is skipped
    and reported as a missing recipient. *)
Theorem C3_deferred_schedules_item_without_recipient :
  optRecipient noRecipient = None /\
  (let result := scheduleSequenceRoute utc readyServer mondayDawnWorld
                   (deferredRequest [noRecipient] None) in
   status (fst result) = 200 /\
   map entryKey (responseEntries (fst result)) = [(None, Some "Hello")] /\
   map (fun j => (to (jobData j), nextRunAt j)) (emailJobs (snd result))
     = [(None, Some (monday2030 + 17 * msPerHour))]) /\
  (let result := scheduleSequenceRoute utc readyServer mondayDawnWorld
                   (immediateRequest [noRecipient]) in
   status (fst result) = 400 /\
   responseError (fst result) = Some noRecipientsMessage /\
   emailJobs (snd result) = []).
Proof.
  cbv zeta. repeat split; vm_compute; reflexivity.
Qed.

(** ** The immediate mode *)

Lemma ensureAgenda_reachable (srv : Server) :
  mongoReachable srv = true -> exists srv1, ensureAgenda srv = Normal srv1.
Proof.
  intros Hm. unfold ensureAgenda, initializeAgenda. rewrite Hm.
  destruct (agenda srv), (agendaInitialized srv); cbn; eauto.
Qed.

(** A sequence without eligible items only raises the missing-recipient flag. *)
Lemma immediateLoop_none_eligible (z : Zone) (uid : string) (w : World)
    (items : list Item) :
  forallb (fun item => negb (isEligible item)) items = true ->
  forall (i : nat) (st : ImmediateState),
    immediateLoop z uid w i items st =
    Normal {| hasValidEmails := hasValidEmails st;
              hasMissingRecipients :=
                (hasMissingRecipients st || existsb isColdEmail items)%bool;
              sentEmails := sentEmails st; im_server := im_server st |}.
Proof.
  induction items as [| item rest IH]; intros Hnone i st.
  - cbn. rewrite orb_false_r. now destruct st.
  - cbn [forallb] in Hnone. apply andb_prop in Hnone. destruct Hnone as [Hitem Hrest].
    cbn [immediateLoop existsb]. unfold immediateItem. fold (isColdEmail item).
    unfold isEligible in Hitem.
    destruct (isColdEmail item) eqn:Hcold; cbn [andb negb] in Hitem.
    + rewrite Hitem. rewrite (IH Hrest).
      cbn [hasValidEmails hasMissingRecipients sentEmails im_server orb].
      now rewrite orb_true_r.
    + rewrite (IH Hrest). reflexivity.
Qed.

Lemma initializeAgenda_jobs (srv : Server) :
  emailJobs (stateOf (initializeAgenda srv)) = emailJobs srv.
Proof.
  unfold initializeAgenda.
  destruct (agenda srv && agendaInitialized srv)%bool, (mongoReachable srv);
    reflexivity.
Qed.

(** C6.  An immediate-mode call that finds no eligible item (no cold e-mail
    with a recipient) is answered with 400.  The error text is the
    missing-recipient message when the sequence has a cold e-mail, the
    no-e-mail-nodes message when it has none, and the two texts differ.
    Nothing is stored. *)
Theorem C6_no_eligible_items_is_rejected (z : Zone) (srv : Server) (w : World)
    (req : Request) :
  sendNow req = true ->
  mongoReachable srv = true ->
  forallb (fun item => negb (isEligible item)) (sequence req) = true ->
  let result := scheduleSequenceRoute z srv w req in
  status (fst result) = 400 /\
  (existsb isColdEmail (sequence req) = true ->
   responseError (fst result) = Some noRecipientsMessage) /\
  (existsb isColdEmail (sequence req) = false ->
   responseError (fst result) = Some noEmailNodesMessage) /\
  noRecipientsMessage <> noEmailNodesMessage /\
  emailJobs (snd result) = emailJobs srv.
Proof.
  intros Hmode Hmongo Hnone result. subst result.
  destruct (ensureAgenda_reachable srv Hmongo) as [srv1 Hens].
  destruct (ensureAgenda_ready _ _ Hens) as [Ha [Hjobs [Hm _]]].
  unfold scheduleSequenceRoute. rewrite Hens, Ha, Hmode. cbn [negb].
  unfold immediateMode, connectToDatabase. rewrite Hm, Hmongo.
  rewrite (immediateLoop_none_eligible _ _ _ _ Hnone).
  cbn [hasValidEmails hasMissingRecipients sentEmails im_server negb orb fst snd
       status json responseError].
  repeat split.
  - intros E. now rewrite E.
  - intros E. now rewrite E.
  - discriminate.
  - exact Hjobs.
Qed.

Lemma C6_no_eligible_items_is_rejected_witness :
  let req := immediateRequest [noRecipient; waitNode] in
  (sendNow req = true /\ mongoReachable readyServer = true /\
   forallb (fun item => negb (isEligible item)) (sequence req) = true) /\
  status (fst (scheduleSequenceRoute utc readyServer mondayDawnWorld req)) = 400 /\
  (existsb isColdEmail (sequence req) = true ->
   responseError (fst (scheduleSequenceRoute utc readyServer mondayDawnWorld req))
     = Some noRecipientsMessage) /\
  (existsb isColdEmail (sequence req) = false ->
   responseError (fst (scheduleSequenceRoute utc readyServer mondayDawnWorld req))
     = Some noEmailNodesMessage) /\
  noRecipientsMessage <> noEmailNodesMessage /\
  emailJobs (snd (scheduleSequenceRoute utc readyServer mondayDawnWorld req))
    = emailJobs readyServer.
Proof.
  cbv zeta. split; [repeat split |].
  apply (C6_no_eligible_items_is_rejected utc readyServer mondayDawnWorld
           (immediateRequest [noRecipient; waitNode])); reflexivity.
Defined.

(** While the clocks do not change in the minute after the request, the
    minute added to the local fields is a minute added to the instant. *)
Lemma immediateSendTime_steady (z : Zone) (tz now : Z) :
  keepsOffset z tz now (now + msPerMinute) ->
  immediateSendTime z now = now + msPerMinute.
Proof.
  intros Hz. unfold immediateSendTime.
  rewrite (localTime_steady z tz _ _ Hz now) by (unfold msPerMinute; lia).
  unfold localTime. cbn [fixedZone offsetAt].
  replace (now + tz + msPerMinute) with (now + msPerMinute + tz) by ring.
  apply (utcOf_steady z tz _ _ Hz). unfold msPerMinute. lia.
Qed.

(** C7, evaluated where the code departs from it.  The send time of an
    immediate e-mail is built with [setMinutes(getMinutes() + 1)], which
    works on the local fields of the date.  In New York on Sunday 3 November
    2030 at 01:30 EST, in the hour the clocks repeat, the local time 01:31 is
    read back as 01:31 EDT: the request is answered 200, and the entry and
    the stored job are timed 59 minutes before the request instead of at
    least one minute after it.  The same request on a host whose clocks do
    not change in that minute is timed one minute after the clock reading
    ([immediateSendTime_steady]). *)
Theorem C7_immediate_send_time_before_the_request :
  let now := requestClock repeatedHourWorld in
  let req := immediateRequest [alice] in
  isEligible alice = true /\
  (getHours easternAutumn2030 now, getMinutes easternAutumn2030 now) = (1, 30) /\
  (let result := scheduleSequenceRoute easternAutumn2030 readyServer
                   repeatedHourWorld req in
   status (fst result) = 200 /\
   map (fun e => (email e, scheduledFor e)) (responseEntries (fst result))
     = [(Some "alice@example.com", now - 59 * msPerMinute)] /\
   map nextRunAt (emailJobs (snd result)) = [Some (now - 59 * msPerMinute)] /\
   now - 59 * msPerMinute < now) /\
  (let result := scheduleSequenceRoute utc readyServer repeatedHourWorld req in
   map scheduledFor (responseEntries (fst result)) = [now + msPerMinute]).
Proof.
  cbv zeta.
  split; [reflexivity |].
  split; [vm_compute; reflexivity |].
  split; [| vm_compute; reflexivity].
  split; [vm_compute; reflexivity |].
  split; [vm_compute; reflexivity |].
  split; [vm_compute; reflexivity |].
  reflexivity.
Qed.

(** ** The job-health monitor *)

Lemma nth_error_updateMany (query : Job -> bool) (update : Job -> Job)
    (jobs : list Job) (i : nat) (j : Job) :
  nth_error jobs i = Some j ->
  nth_error (updateMany query update jobs) i
  = Some (if query j then update j else j).
Proof.
  intros H. unfold updateMany. now rewrite nth_error_map, H.
Qed.

Lemma countDocuments_positive (query : Job -> bool) (jobs : list Job) (j : Job) :
  In j jobs -> query j = true -> Nat.ltb 0 (countDocuments query jobs) = true.
Proof.
  intros Hin Hq. apply Nat.ltb_lt. unfold countDocuments.
  assert (Hf : In j (filter query jobs)) by (apply filter_In; now split).
  destruct (filter query jobs); [contradiction | cbn; lia].
Qed.

(** C8.  One sweep of the monitor, run with the scheduler initialised and the
    database reachable, keeps the number and order of the jobs and treats the
    job at each position as follows: a job whose [lockedAt] is earlier than
    five minutes before the sweep gets [lockedAt] set to null and keeps every
    other field; any other job -- unlocked, or locked five minutes ago or
    less -- is left exactly as it was. *)
Theorem C8_sweep_unlocks_exactly_stale_jobs (srv : Server) (w : World) :
  agenda srv = true -> agendaInitialized srv = true -> mongoReachable srv = true ->
  let fiveMinutesAgo := sweepClock w - 5 * msPerMinute in
  let jobs' := emailJobs (monitorSweep srv w) in
  List.length jobs' = List.length (emailJobs srv) /\
  forall (i : nat) (j : Job), nth_error (emailJobs srv) i = Some j ->
    (forall l, lockedAt j = Some l -> l < fiveMinutesAgo ->
       exists j', nth_error jobs' i = Some j' /\
         lockedAt j' = None /\ _id j' = _id j /\ name j' = name j /\
         jobData j' = jobData j /\ nextRunAt j' = nextRunAt j) /\
    (lockedAt j = None \/ (exists l, lockedAt j = Some l /\ fiveMinutesAgo <= l) ->
       nth_error jobs' i = Some j).
Proof.
  intros Ha Hi Hm fiveMinutesAgo jobs'.
  assert (Hsweep :
    (jobs' = emailJobs srv /\ forall j, In j (emailJobs srv) -> lockedAt j = None) \/
    jobs' = updateMany (lockedBefore fiveMinutesAgo) unlock (emailJobs srv)).
  { subst jobs'. unfold monitorSweep, connectToDatabase. rewrite Ha, Hi, Hm.
    cbn [andb].
    destruct (Nat.ltb 0 (countDocuments isLocked (emailJobs srv))) eqn:Hcount;
      [right; reflexivity | left].
    split; [reflexivity |]. intros j Hin.
    destruct (lockedAt j) as [l |] eqn:Hl; [| reflexivity].
    rewrite (countDocuments_positive isLocked (emailJobs srv) j Hin) in Hcount
      by (unfold isLocked; now rewrite Hl).
    discriminate. }
  split.
  - destruct Hsweep as [[-> _] | ->]; [reflexivity |].
    unfold updateMany. apply length_map.
  - intros i j Hnth. split.
    + intros l Hl Hstale. destruct Hsweep as [[_ Hnone] | ->].
      * apply nth_error_In in Hnth. rewrite (Hnone j Hnth) in Hl. discriminate.
      * rewrite (nth_error_updateMany _ _ _ _ _ Hnth).
        unfold lockedBefore. rewrite Hl.
        apply Z.ltb_lt in Hstale. rewrite Hstale.
        exists (unlock j). repeat split.
    + intros Hfresh. destruct Hsweep as [[-> _] | ->]; [exact Hnth |].
      rewrite (nth_error_updateMany _ _ _ _ _ Hnth). unfold lockedBefore.
      destruct Hfresh as [-> | [l [-> Hle]]]; [reflexivity |].
      apply Z.ltb_ge in Hle. now rewrite Hle.
Qed.

Lemma C8_sweep_unlocks_exactly_stale_jobs_witness :
  (agenda sweptServer = true /\ agendaInitialized sweptServer = true /\
   mongoReachable sweptServer = true) /\
  map lockedAt (emailJobs (monitorSweep sweptServer mondayDawnWorld))
    = [None;
       Some (monday2030 + 6 * msPerHour - 4 * msPerMinute);
       Some (monday2030 + 6 * msPerHour - 5 * msPerMinute);
       None] /\
  List.length (emailJobs (monitorSweep sweptServer mondayDawnWorld))
    = List.length (emailJobs sweptServer) /\
  forall (i : nat) (j : Job), nth_error (emailJobs sweptServer) i = Some j ->
    (forall l, lockedAt j = Some l -> l < sweepClock mondayDawnWorld - 5 * msPerMinute ->
       exists j', nth_error (emailJobs (monitorSweep sweptServer mondayDawnWorld)) i
                  = Some j' /\
         lockedAt j' = None /\ _id j' = _id j /\ name j' = name j /\
         jobData j' = jobData j /\ nextRunAt j' = nextRunAt j) /\
    (lockedAt j = None \/
     (exists l, lockedAt j = Some l /\ sweepClock mondayDawnWorld - 5 * msPerMinute <= l) ->
       nth_error (emailJobs (monitorSweep sweptServer mondayDawnWorld)) i = Some j).
Proof.
  split; [repeat split |]. split; [vm_compute; reflexivity |].
  apply (C8_sweep_unlocks_exactly_stale_jobs sweptServer mondayDawnWorld);
    reflexivity.
Defined.

(** ** Scheduling a single e-mail *)

Lemma computeSendTime_unknown_unit (z : Zone) (now delay : Z) (unit : option string) :
  unit <> Some "minutes" -> unit <> Some "hours" -> unit <> Some "days" ->
  computeSendTime z now delay unit = Some now.
Proof.
  intros Hm Hh Hd. unfold computeSendTime.
  destruct unit as [u |]; [| reflexivity].
  destruct (String.eqb_spec u "minutes") as [-> | _]; [now elim Hm |].
  destruct (String.eqb_spec u "hours") as [-> | _]; [now elim Hh |].
  destruct (String.eqb_spec u "days") as [-> | _]; [now elim Hd |].
  reflexivity.
Qed.

(** What the [catch] of the single-email route can do to the store and say
    in its answer: nothing stored and a failure, or one more job for the
    request, due at the send time, and a success naming it. *)
Lemma retryEmail_outcome (iw : ItemWorld) (t : Z) (req : EmailRequest)
    (n : string) (srv : Server) :
  (emailJobs (snd (retryEmail iw t req n srv)) = emailJobs srv /\
   status (fst (retryEmail iw t req n srv)) = 500 /\
   exists d, json (fst (retryEmail iw t req n srv))
             = ErrorBody "Failed to schedule email" None d) \/
  (n = "MongoNotConnectedError" /\ retrySchedule iw = None /\
   exists j,
     emailJobs (snd (retryEmail iw t req n srv)) = emailJobs srv ++ [j] /\
     nextRunAt j = Some t /\ jobData j = emailJobData req /\ lockedAt j = None /\
     name j = "send email" /\
     fst (retryEmail iw t req n srv)
     = {| status := 200;
          json := EmailBody "Email scheduled successfully after reconnection"
                    t (_id j) |}).
Proof.
  unfold retryEmail.
  destruct (String.eqb_spec n "MongoNotConnectedError") as [-> | Hn];
    [| left; cbn; eauto].
  pose proof (initializeAgenda_jobs srv) as Hinit.
  destruct (initializeAgenda srv) as [srv1 | n' srv1]; cbn [stateOf] in Hinit;
    [| left; cbn; eauto].
  unfold agendaSchedule.
  destruct (retrySchedule iw) as [n2 |]; [left; cbn; eauto |].
  right. split; [reflexivity |]. split; [reflexivity |].
  exists (newJob (emailJobs srv1) t (emailJobData req)).
  cbn [fst snd setJobs emailJobs newJob nextRunAt jobData lockedAt _id name].
  rewrite Hinit. repeat split.
Qed.

(** C9.  A single-email request whose [unit] is none of ['minutes'],
    ['hours'], ['days'] (or is missing) gets no delay: the send time is the
    clock reading itself.  With the mail settings present, the database
    reachable, a transporter available and the scheduling call resolving, a
    job due at that time is stored, whatever the route then answers, and no
    answer names another time; when the two database calls that follow the
    scheduling call resolve as well, the route answers 200 with that time as
    [scheduledFor]; the helper [scheduleEmail] returns the same time. *)
Theorem C9_unknown_unit_adds_no_delay (z : Zone) (srv : Server) (iw : ItemWorld)
    (req : EmailRequest) :
  e_unit req <> Some "minutes" ->
  e_unit req <> Some "hours" ->
  e_unit req <> Some "days" ->
  emailConfigured srv = true ->
  mongoReachable srv = true ->
  (transporter srv || transporterInitOk srv)%bool = true ->
  firstSchedule iw = None ->
  computeSendTime z (clock iw) (e_delay req) (e_unit req) = Some (clock iw) /\
  (exists j, In j (emailJobs (snd (scheduleEmailRoute z srv iw req))) /\
             nextRunAt j = Some (clock iw) /\ jobData j = emailJobData req) /\
  (forall msg t jobId,
     json (fst (scheduleEmailRoute z srv iw req)) = EmailBody msg t jobId ->
     status (fst (scheduleEmailRoute z srv iw req)) = 200 /\ t = clock iw) /\
  (verifyConnect iw = None -> verifyFind iw = Found ->
   exists jobId srv',
     scheduleEmailRoute z srv iw req =
       ({| status := 200;
           json := EmailBody "Email scheduled successfully" (clock iw) jobId |}, srv') /\
     exists j, In j (emailJobs srv') /\ _id j = jobId /\
               nextRunAt j = Some (clock iw) /\ jobData j = emailJobData req) /\
  (exists srv', scheduleEmail z srv iw req = Scheduled (clock iw) false srv').
Proof.
  intros Hm Hh Hd Hconf Hmongo Htrans Hsched.
  pose proof (computeSendTime_unknown_unit z (clock iw) (e_delay req) (e_unit req)
                Hm Hh Hd) as Htime.
  destruct (ensureAgenda_reachable srv Hmongo) as [srv1 Hens].
  destruct (ensureAgenda_ready _ _ Hens) as [Ha [Hjobs [Hm1 [_ [Ht1 Hi1]]]]].
  assert (Hno : (negb (transporter srv) && negb (transporterInitOk srv))%bool = false).
  { destruct (transporter srv), (transporterInitOk srv); try reflexivity.
    discriminate. }
  set (srv3 := setTransporter srv1 true).
  set (job := newJob (emailJobs srv3) (clock iw) (emailJobData req)).
  set (srv4 := setJobs srv3 (emailJobs srv3 ++ [job])).
  assert (Hroute : scheduleEmailRoute z srv iw req =
            match verifyConnect iw with
            | Some n => retryEmail iw (clock iw) req n srv4
            | None =>
                match verifyFind iw with
                | LookupFails n => retryEmail iw (clock iw) req n srv4
                | Missing =>
                    (failed 500 "Failed to verify job was scheduled" None, srv4)
                | Found =>
                    ({| status := 200;
                        json := EmailBody "Email scheduled successfully" (clock iw)
                                  (_id job) |}, srv4)
                end
            end).
  { unfold scheduleEmailRoute. rewrite Hconf, Hens, Ha. cbn [negb].
    rewrite Htime. unfold connectToDatabase. rewrite Hm1, Hmongo, Ht1, Hi1.
    rewrite Hno, Hsched. reflexivity. }
  assert (Hin4 : In job (emailJobs srv4)).
  { unfold srv4. cbn [setJobs emailJobs]. apply in_or_app. right. now left. }
  assert (Hretry : forall n,
            (exists j, In j (emailJobs (snd (retryEmail iw (clock iw) req n srv4))) /\
                       nextRunAt j = Some (clock iw) /\
                       jobData j = emailJobData req) /\
            (forall msg t jobId,
               json (fst (retryEmail iw (clock iw) req n srv4))
               = EmailBody msg t jobId ->
               status (fst (retryEmail iw (clock iw) req n srv4)) = 200 /\
               t = clock iw)).
  { intros n.
    destruct (retryEmail_outcome iw (clock iw) req n srv4)
      as [[Hsame [_ [d Hjson]]] | [_ [_ [j [Hadd [_ [_ [_ [_ Hfst]]]]]]]]].
    - split.
      + exists job. rewrite Hsame. now repeat split.
      + intros msg t jobId H. rewrite Hjson in H. discriminate.
    - split.
      + exists job. rewrite Hadd. split; [apply in_or_app; now left |].
        now split.
      + intros msg t jobId H. rewrite Hfst in *. cbn [json status] in *.
        injection H as _ <- _. now split. }
  split; [exact Htime |]. rewrite Hroute. split; [| split; [| split]].
  - destruct (verifyConnect iw) as [n |]; [apply Hretry |].
    destruct (verifyFind iw) as [ | | n]; [| | apply Hretry];
      exists job; cbn [snd]; now repeat split.
  - destruct (verifyConnect iw) as [n |]; [apply Hretry |].
    destruct (verifyFind iw) as [ | | n]; [| | apply Hretry];
      intros msg t jobId H; cbn [fst json status failed] in *;
      [injection H as _ <- _; now split | discriminate].
  - intros -> ->. exists (_id job), srv4. split; [reflexivity |].
    exists job. now repeat split.
  - unfold scheduleEmail. rewrite Hens, Ha. cbn [negb].
    rewrite Htime. unfold connectToDatabase. rewrite Hm1, Hmongo, Hsched.
    cbn [agendaSchedule]. eexists. reflexivity.
Qed.

Lemma C9_unknown_unit_adds_no_delay_witness :
  let iw := atItem mondayDawnWorld 0 in
  let result := scheduleEmailRoute utc readyServer iw weeksRequest in
  (e_unit weeksRequest = Some "weeks" /\ e_delay weeksRequest = 3 /\
   emailConfigured readyServer = true /\ mongoReachable readyServer = true /\
   (transporter readyServer || transporterInitOk readyServer)%bool = true /\
   firstSchedule iw = None /\ verifyConnect iw = None /\ verifyFind iw = Found) /\
  computeSendTime utc (clock iw) (e_delay weeksRequest) (e_unit weeksRequest)
    = Some (clock iw) /\
  (exists j, In j (emailJobs (snd result)) /\
             nextRunAt j = Some (clock iw) /\ jobData j = emailJobData weeksRequest) /\
  (forall msg t jobId,
     json (fst result) = EmailBody msg t jobId ->
     status (fst result) = 200 /\ t = clock iw) /\
  (exists jobId srv',
     result =
       ({| status := 200;
           json := EmailBody "Email scheduled successfully" (clock iw) jobId |}, srv') /\
     exists j, In j (emailJobs srv') /\ _id j = jobId /\
               nextRunAt j = Some (clock iw) /\
               jobData j = emailJobData weeksRequest) /\
  (exists srv', scheduleEmail utc readyServer iw weeksRequest
                = Scheduled (clock iw) false srv').
Proof.
  cbv zeta. split; [repeat split |].
  destruct (C9_unknown_unit_adds_no_delay utc readyServer
              (atItem mondayDawnWorld 0) weeksRequest)
    as [Htime [Hjob [Hanswer [Hok Hhelper]]]];
    try reflexivity; try (cbn; discriminate).
  split; [exact Htime |]. split; [exact Hjob |]. split; [exact Hanswer |].
  split; [apply Hok; reflexivity | exact Hhelper].
Defined.

(** * Further properties of the scheduling routes *)

(** ** Weekdays *)

Lemma getDay_range (z : Zone) (t : Z) : 0 <= getDay z t <= 6.
Proof.
  unfold getDay. pose proof (Z.mod_pos_bound (localDay z t + 4) 7). lia.
Qed.

Lemma getDay_plus_days (tz c k : Z) :
  getDay (fixedZone tz) (c + k * msPerDay) = (getDay (fixedZone tz) c + k) mod 7.
Proof.
  unfold getDay. rewrite localDay_plus_days.
  rewrite Z.add_mod_idemp_l by discriminate. f_equal. ring.
Qed.

Lemma dayMap_range (day : string) (d : Z) : dayMap day = Some d -> 0 <= d <= 6.
Proof.
  unfold dayMap.
  repeat match goal with
         | |- context [String.eqb day ?s] => destruct (String.eqb day s)
         end; intros H; inversion H; lia.
Qed.

Lemma includes_In (sd : list (option Z)) (d : Z) :
  In (Some d) sd -> includes sd d = true.
Proof.
  intros H. unfold includes. apply existsb_exists.
  exists (Some d). split; [exact H | apply Z.eqb_refl].
Qed.

Lemma includes_none (sd : list (option Z)) (d : Z) :
  (forall v, In v sd -> v = None) -> includes sd d = false.
Proof.
  intros H. unfold includes.
  destruct (existsb _ sd) eqn:E; [| reflexivity].
  apply existsb_exists in E. destruct E as [v [Hin Hv]].
  rewrite (H v Hin) in Hv. discriminate.
Qed.

Lemma firstEligible_within (tz : Z) (sd : list (option Z)) (k : nat) :
  forall (left : nat) (c : Z),
    (k < left)%nat ->
    Z.abs c + Z.of_nat k * msPerDay <= maxTime ->
    includes sd (getDay (fixedZone tz) (c + Z.of_nat k * msPerDay)) = true ->
    exists k', (k' <= k)%nat /\
      firstEligible (fixedZone tz) sd left (Some c)
      = Some (c + Z.of_nat k' * msPerDay).
Proof.
  induction k as [| k IH]; intros left c Hlt Hrange Hinc.
  - destruct left as [| left]; [lia |].
    exists 0%nat. split; [lia |].
    replace (c + Z.of_nat 0 * msPerDay) with c in * by lia.
    cbn [firstEligible]. now rewrite Hinc.
  - destruct left as [| left]; [lia |]. cbn [firstEligible].
    destruct (includes sd (getDay (fixedZone tz) c)) eqn:Hc.
    + exists 0%nat. split; [lia |]. f_equal. lia.
    + assert (Hday : 0 < msPerDay) by reflexivity.
      rewrite addDays_fixed_in_range by lia.
      destruct (IH left (c + 1 * msPerDay)) as [k' [Hk' Hfirst]]; [lia | lia | |].
      * replace (c + 1 * msPerDay + Z.of_nat k * msPerDay)
          with (c + Z.of_nat (S k) * msPerDay) by lia.
        exact Hinc.
      * exists (S k'). split; [lia |]. rewrite Hfirst. f_equal. lia.
Qed.

Lemma firstEligible_none (z : Zone) (sd : list (option Z)) (left : nat)
    (c : option Z) :
  (forall v, In v sd -> v = None) -> firstEligible z sd left c = None.
Proof.
  intros H. revert c. induction left as [| left IH]; intros c; [reflexivity |].
  destruct c as [t |]; [| reflexivity].
  cbn [firstEligible]. now rewrite (includes_none sd _ H).
Qed.

Lemma scheduleDays_recognised (days : list string) :
  (exists day, In day days /\ dayMap (toLowerCase day) <> None) ->
  exists d, In (Some d) (scheduleDays days) /\ 0 <= d <= 6.
Proof.
  intros [day [Hin Hsome]].
  destruct (dayMap (toLowerCase day)) as [d |] eqn:E; [| now elim Hsome].
  exists d. split; [| now apply (dayMap_range _ _ E)].
  unfold scheduleDays. apply in_map_iff. exists day. now split.
Qed.

(** The scan from a valid cursor, at least six days before the end of the
    Date range, in a zone that keeps one offset. *)
Lemma firstEligible_within_a_week (tz : Z) (days : list string) (c : Z) :
  Z.abs c + 6 * msPerDay <= maxTime ->
  (exists day, In day days /\ dayMap (toLowerCase day) <> None) ->
  exists k : nat,
    (k < 7)%nat /\
    firstEligible (fixedZone tz) (scheduleDays days) 14 (Some c)
    = Some (c + Z.of_nat k * msPerDay).
Proof.
  intros Hrange Hknown.
  destruct (scheduleDays_recognised days Hknown) as [d [Hin Hd]].
  pose proof (getDay_range (fixedZone tz) c) as Hg.
  set (k := Z.to_nat ((d - getDay (fixedZone tz) c) mod 7)).
  pose proof (Z.mod_pos_bound (d - getDay (fixedZone tz) c) 7) as Hk.
  assert (Hday : getDay (fixedZone tz) (c + Z.of_nat k * msPerDay) = d).
  { rewrite getDay_plus_days. subst k. rewrite Z2Nat.id by lia.
    rewrite Z.add_mod_idemp_r by discriminate.
    replace (getDay (fixedZone tz) c + (d - getDay (fixedZone tz) c))
      with d by ring.
    apply Z.mod_small. lia. }
  assert (Hday0 : 0 < msPerDay) by reflexivity.
  destruct (firstEligible_within tz (scheduleDays days) k 14 c)
    as [k' [Hk' Hfirst]].
  - subst k. lia.
  - subst k. nia.
  - rewrite Hday. now apply includes_In.
  - exists k'. split; [subst k; lia | exact Hfirst].
Qed.



(** Across a clock change the search can take longer.  In Nuuk, from Friday
    29 March 2030 at 23:30 with only Saturdays allowed, the step onto
    Saturday 23:30 falls in the skipped hour and lands on Sunday 00:30; the
    first Saturday the cursor meets is 6 April, eight days on. *)
Lemma skipped_day_lengthens_the_search :
  let friday := 22003 * msPerDay + 1 * msPerHour + 30 * msPerMinute in
  (getDay nuukSpring2030 friday, getHours nuukSpring2030 friday) = (5, 23) /\
  option_map (fun c => (localDay nuukSpring2030 c, getDay nuukSpring2030 c))
    (firstEligible nuukSpring2030 (scheduleDays ["saturday"]) 14 (Some friday))
  = Some (22010, 6) /\
  nextDay nuukSpring2030 (Some friday) = Some (22004 * msPerDay + 1 * msPerHour + 30 * msPerMinute) /\
  getDay nuukSpring2030 (22004 * msPerDay + 1 * msPerHour + 30 * msPerMinute) = 0.
Proof. cbv zeta. repeat split; vm_compute; reflexivity. Qed.

(** With a [startDate] that is not a date the cursor is an Invalid Date: no
    weekday ever matches and nothing is scheduled, whatever the days. *)
Lemma invalid_start_date_schedules_nothing :
  scheduleSequenceRoute utc readyServer earlyMarchWorld
    (deferredRequest [alice; bob]
       (Some {| startDate := Some None; fromTime := None; toTime := None;
                days := None |}))
  = (ok200 "Sequence scheduled successfully" []
       (Some {| o_startDate := None; o_fromTime := "09:00"; o_toTime := "17:00";
                o_days := ["monday"; "tuesday"; "wednesday"; "thursday"; "friday"] |}),
     readyServer).
Proof. vm_compute. reflexivity. Qed.

Lemma deferredLoop_no_known_day (z : Zone) (uid : string) (fromHour toHour : option Z)
    (sd : list (option Z)) (w : World) (items : list Item) :
  (forall v, In v sd -> v = None) ->
  forall (i : nat) (st : DeferredState),
  exists c,
    deferredLoop z uid fromHour toHour sd w i items st = Normal (withCursor st c).
Proof.
  intros Hnone. induction items as [| item rest IH]; intros i st.
  - exists (currentDate st). cbn. now rewrite withCursor_same.
  - cbn [deferredLoop]. unfold deferredItem.
    destruct (String.eqb (type item) "coldEmail").
    + rewrite findValidDay_firstEligible, (firstEligible_none z sd 14 _ Hnone).
      destruct (IH (S i) (withCursor st (stepDays z 14 (currentDate st))))
        as [c Hc].
      exists c. rewrite Hc. reflexivity.
    + apply IH.
Qed.

(** X2.  When none of the caller's [days] is a name the server knows (an
    empty list included), a deferred-mode call schedules nothing: whatever
    the sequence holds, the answer is 200 with an empty [scheduledEmails]
    and the store is left as it was. *)
Theorem unrecognised_days_schedule_nothing (z : Zone) (srv : Server) (w : World)
    (req : Request) :
  sendNow req = false ->
  mongoReachable srv = true ->
  (forall day,
     In day (o_days (normalizeOptions (requestClock w) (schedulingOptions req))) ->
     dayMap (toLowerCase day) = None) ->
  fst (scheduleSequenceRoute z srv w req) =
    ok200 "Sequence scheduled successfully" []
      (Some (normalizeOptions (requestClock w) (schedulingOptions req))) /\
  emailJobs (snd (scheduleSequenceRoute z srv w req)) = emailJobs srv.
Proof.
  intros Hmode Hmongo Hdays.
  destruct (ensureAgenda_reachable srv Hmongo) as [srv1 Hens].
  destruct (ensureAgenda_ready _ _ Hens) as [Ha [Hjobs _]].
  unfold scheduleSequenceRoute. rewrite Hens, Ha, Hmode. cbn [negb].
  unfold deferredMode, deferredRun.
  match goal with
  | |- context [deferredLoop ?a ?b ?c ?d ?e ?f ?g ?h ?k] =>
      destruct (deferredLoop_no_known_day a b c d e f h) with (i := g) (st := k)
        as [cur Hloop]
  end.
  - intros v Hv. unfold scheduleDays in Hv. apply in_map_iff in Hv.
    destruct Hv as [day [<- Hin]]. now apply Hdays.
  - rewrite Hloop. cbn [withCursor scheduledEmails d_server fst snd].
    now split.
Qed.

Lemma unrecognised_days_schedule_nothing_witness :
  (sendNow unknownDaysRequest = false /\ mongoReachable readyServer = true /\
   forall day, In day ["mon"; "tue"; "lundi"] -> dayMap (toLowerCase day) = None) /\
  fst (scheduleSequenceRoute utc readyServer sundayTopWorld unknownDaysRequest) =
    ok200 "Sequence scheduled successfully" []
      (Some (normalizeOptions (requestClock sundayTopWorld)
               (schedulingOptions unknownDaysRequest))) /\
  emailJobs (snd (scheduleSequenceRoute utc readyServer sundayTopWorld
                    unknownDaysRequest)) = emailJobs readyServer.
Proof.
  assert (Hdays : forall day, In day ["mon"; "tue"; "lundi"] ->
                    dayMap (toLowerCase day) = None).
  { intros day [<- | [<- | [<- | []]]]; reflexivity. }
  split; [repeat split; exact Hdays |].
  apply (unrecognised_days_schedule_nothing utc readyServer sundayTopWorld
           unknownDaysRequest); [reflexivity | reflexivity | exact Hdays].
Defined.

(** ** The store against the response *)

Lemma recorded_start (uid : string) (srv : Server) :
  recorded uid (emailJobs srv) [] srv.
Proof.
  exists []. split; [now rewrite app_nil_r |]. split; constructor.
Qed.

Lemma recorded_same_jobs (uid : string) (jobs0 : list Job) (es : list Entry)
    (srv srv' : Server) :
  emailJobs srv' = emailJobs srv ->
  recorded uid jobs0 es srv -> recorded uid jobs0 es srv'.
Proof.
  intros Hsame [added H]. exists added. now rewrite Hsame.
Qed.

Lemma recorded_push (uid : string) (jobs0 : list Job) (es : list Entry)
    (srv : Server) (e : Entry) (when : Z) (d : JobData) :
  job_userId d = uid ->
  (Some when, to d, job_subject d) = entrySummary e ->
  recorded uid jobs0 es srv ->
  recorded uid jobs0 (es ++ [e])
    (setJobs srv (emailJobs srv ++ [newJob (emailJobs srv) when d])).
Proof.
  intros Huid Hsum [added [Hjobs [Hfresh Hmap]]].
  exists (added ++ [newJob (emailJobs srv) when d]).
  cbn [setJobs emailJobs]. split; [| split].
  - rewrite Hjobs at 1. now rewrite app_assoc.
  - apply Forall_app. split; [exact Hfresh |].
    constructor; [| constructor]. now repeat split.
  - rewrite !map_app, Hmap. cbn [map]. f_equal. f_equal.
    unfold jobSummary. cbn [newJob nextRunAt jobData]. exact Hsum.
Qed.

Lemma deferredItem_recorded (z : Zone) (uid : string) (fromHour toHour : option Z)
    (sd : list (option Z)) (jobs0 : list Job) (iw : ItemWorld) (item : Item)
    (st : DeferredState) :
  recorded uid jobs0 (scheduledEmails st) (d_server st) ->
  let st' := stateOf (deferredItem z uid fromHour toHour sd iw item st) in
  recorded uid jobs0 (scheduledEmails st') (d_server st').
Proof.
  intros Hst.
  destruct (deferredItem_step z uid fromHour toHour sd iw item st);
    cbn [stateOf withCursor scheduledEmails d_server]; try exact Hst.
  apply recorded_push; [reflexivity | reflexivity | exact Hst].
Qed.

Lemma immediateItem_recorded (z : Zone) (uid : string) (jobs0 : list Job)
    (iw : ItemWorld) (item : Item) (st : ImmediateState) :
  recorded uid jobs0 (sentEmails st) (im_server st) ->
  let st' := stateOf (immediateItem z uid iw item st) in
  recorded uid jobs0 (sentEmails st') (im_server st').
Proof.
  intros Hst. unfold immediateItem.
  destruct (String.eqb (type item) "coldEmail"); [| exact Hst].
  destruct (negb (truthy (optRecipient item))); [exact Hst |].
  unfold agendaSchedule.
  destruct (firstSchedule iw) as [n |].
  - destruct (String.eqb n "MongoNotConnectedError"); [| exact Hst].
    pose proof (initializeAgenda_jobs (im_server st)) as Hinit.
    destruct (initializeAgenda (im_server st)) as [srv2 | n' srv2];
      cbn [stateOf] in Hinit.
    + destruct (retrySchedule iw) as [n2 |];
        cbn [stateOf sentEmails im_server].
      * now apply (recorded_same_jobs uid jobs0 _ (im_server st)).
      * apply recorded_push; [reflexivity | reflexivity |].
        now apply (recorded_same_jobs uid jobs0 _ (im_server st)).
    + cbn [stateOf sentEmails im_server].
      now apply (recorded_same_jobs uid jobs0 _ (im_server st)).
  - cbn [stateOf sentEmails im_server].
    apply recorded_push; [reflexivity | reflexivity | exact Hst].
Qed.

Lemma immediateLoop_recorded (z : Zone) (uid : string) (jobs0 : list Job)
    (w : World) (items : list Item) :
  forall (i : nat) (st : ImmediateState),
    recorded uid jobs0 (sentEmails st) (im_server st) ->
    let st' := stateOf (immediateLoop z uid w i items st) in
    recorded uid jobs0 (sentEmails st') (im_server st').
Proof.
  induction items as [| item rest IH]; intros i st Hst; [exact Hst |].
  cbn [immediateLoop].
  pose proof (immediateItem_recorded z uid jobs0 (atItem w i) item st Hst) as H1.
  cbv zeta in *.
  destruct (immediateItem z uid (atItem w i) item st) as [st1 | n st1];
    cbn [stateOf] in *; [now apply IH | exact H1].
Qed.

(** X3.  Whatever [POST /api/schedule-sequence] answers, in either mode, it
    only appends to the job store: the jobs already there are untouched, and
    every job it adds is an unlocked ['send email'] job of the requesting
    user.  When it answers 200, the added jobs are exactly the entries of
    [scheduledEmails], in order: same time, same recipient, same subject. *)
Theorem sequence_route_store_matches_response (z : Zone) (srv : Server) (w : World)
    (req : Request) :
  exists added,
    emailJobs (snd (scheduleSequenceRoute z srv w req)) = emailJobs srv ++ added /\
    Forall (freshJobOf (userId req)) added /\
    (status (fst (scheduleSequenceRoute z srv w req)) = 200 ->
     map jobSummary added =
     map entrySummary (responseEntries (fst (scheduleSequenceRoute z srv w req)))).
Proof.
  assert (Hnone : forall (r : Response) (s : Server),
            status r <> 200 -> emailJobs s = emailJobs srv ->
            exists added, emailJobs s = emailJobs srv ++ added /\
              Forall (freshJobOf (userId req)) added /\
              (status r = 200 ->
               map jobSummary added = map entrySummary (responseEntries r))).
  { intros r s Hr Hs. exists []. rewrite app_nil_r.
    split; [exact Hs |]. split; [constructor | now intros]. }
  assert (Hrec : forall (r : Response) (es : list Entry) (s : Server),
            recorded (userId req) (emailJobs srv) es s ->
            (status r = 200 -> responseEntries r = es) ->
            exists added, emailJobs s = emailJobs srv ++ added /\
              Forall (freshJobOf (userId req)) added /\
              (status r = 200 ->
               map jobSummary added = map entrySummary (responseEntries r))).
  { intros r es s [added [Hj [Hf Hm]]] Hes. exists added.
    split; [exact Hj |]. split; [exact Hf |].
    intros H200. now rewrite (Hes H200). }
  unfold scheduleSequenceRoute.
  pose proof (ensureAgenda_jobs srv) as Hjobs.
  destruct (ensureAgenda srv) as [srv1 | n srv1] eqn:Hens; cbn [stateOf] in Hjobs;
    [| apply Hnone; [cbn; discriminate | exact Hjobs]].
  destruct (ensureAgenda_ready _ _ Hens) as [Ha _]. rewrite Ha. cbn [negb].
  pose proof (recorded_same_jobs (userId req) (emailJobs srv) [] srv srv1 Hjobs
                (recorded_start (userId req) srv)) as Hstart.
  destruct (sendNow req).
  - unfold immediateMode, connectToDatabase.
    destruct (mongoReachable srv1);
      [| apply Hnone; [cbn; discriminate | exact Hjobs]].
    pose proof (immediateLoop_recorded z (userId req) (emailJobs srv) w (sequence req)
                  0%nat {| hasValidEmails := false; hasMissingRecipients := false;
                           sentEmails := []; im_server := srv1 |} Hstart) as Hloop.
    cbv zeta in Hloop.
    destruct (immediateLoop z (userId req) w 0 (sequence req) _) as [st | n st];
      cbn [stateOf] in Hloop; cbn [fst snd].
    + destruct (hasValidEmails st); cbn [negb fst snd].
      * apply (Hrec _ (sentEmails st)); [exact Hloop | reflexivity].
      * apply (Hrec _ (sentEmails st)); [exact Hloop | cbn; discriminate].
    + apply (Hrec _ (sentEmails st)); [exact Hloop | cbn; discriminate].
  - unfold deferredMode, deferredRun.
    match goal with
    | |- context [deferredLoop ?a ?b ?c ?d ?e ?f ?g ?h ?k] =>
        pose proof (deferredLoop_preserves a b c d e
          (fun s => recorded (userId req) (emailJobs srv) (scheduledEmails s)
                      (d_server s))
          (fun iw item s => deferredItem_recorded a b c d e (emailJobs srv) iw item s)
          f h g k Hstart) as Hloop;
        destruct (deferredLoop a b c d e f g h k) as [st | n st]
    end; cbn [stateOf] in Hloop; cbn [fst snd].
    + apply (Hrec _ (scheduledEmails st)); [exact Hloop | reflexivity].
    + apply (Hrec _ (scheduledEmails st)); [exact Hloop | cbn; discriminate].
Qed.

(** ** Send times of the deferred mode *)

Lemma deferredLoop_after_clock (z : Zone) (uid : string) (fromHour toHour : option Z)
    (sd : list (option Z)) (w : World) (t0 : Z) (items : list Item) :
  (forall i, t0 <= clock (atItem w i)) ->
  forall (i : nat) (st : DeferredState),
    Forall (fun e => t0 < scheduledFor e) (scheduledEmails st) ->
    Forall (fun e => t0 < scheduledFor e)
      (scheduledEmails (stateOf (deferredLoop z uid fromHour toHour sd w i items st))).
Proof.
  intros Hclock. induction items as [| item rest IH]; intros i st Hst; [exact Hst |].
  cbn [deferredLoop].
  assert (H1 : Forall (fun e => t0 < scheduledFor e)
                 (scheduledEmails
                    (stateOf (deferredItem z uid fromHour toHour sd (atItem w i)
                                item st)))).
  { destruct (deferredItem_step z uid fromHour toHour sd (atItem w i) item st)
      as [ | | | | | | c fh th t d Hc Hfirst Hf Ht Hsend Hcmp Hdata Hs];
      cbn [stateOf withCursor scheduledEmails]; try exact Hst.
    apply Forall_app. split; [exact Hst |]. constructor; [| constructor].
    cbn [deferredEntry scheduledFor]. specialize (Hclock i). lia. }
  destruct (deferredItem z uid fromHour toHour sd (atItem w i) item st)
    as [st1 | n st1]; cbn [stateOf] in *; [now apply IH | exact H1].
Qed.

(** X4.  The deferred mode never reports a send time that has already
    passed: when the clock never reads earlier than the arrival time [t0] of
    the request, every entry of the response is timed strictly after [t0]. *)
Theorem deferred_sends_are_in_the_future (z : Zone) (srv : Server) (w : World)
    (req : Request) (t0 : Z) :
  sendNow req = false ->
  (forall i, t0 <= clock (atItem w i)) ->
  forall e, In e (responseEntries (fst (scheduleSequenceRoute z srv w req))) ->
    t0 < scheduledFor e.
Proof.
  intros Hmode Hclock e He.
  destruct (route_deferred z srv w req Hmode) as [Hnil | [srv1 [st [_ [Hrun Hres]]]]].
  - rewrite Hnil in He. contradiction.
  - rewrite Hres in He. cbn [fst responseEntries ok200 json] in He.
    assert (Hall : Forall (fun e => t0 < scheduledFor e) (scheduledEmails st)).
    { change st with (stateOf (Normal st)). rewrite <- Hrun. unfold deferredRun.
      apply deferredLoop_after_clock; [exact Hclock | constructor]. }
    rewrite Forall_forall in Hall. now apply Hall.
Qed.

Lemma deferred_sends_are_in_the_future_witness :
  let t0 := monday2030 + 10 * msPerHour in
  (sendNow defaultsRequest = false /\
   forall i, t0 <= clock (atItem mondayMorningWorld i)) /\
  forall e,
    In e (responseEntries
            (fst (scheduleSequenceRoute utc readyServer mondayMorningWorld
                    defaultsRequest))) ->
    t0 < scheduledFor e.
Proof.
  cbv zeta. split.
  - split; [reflexivity |]. intros i. cbn. discriminate.
  - apply (deferred_sends_are_in_the_future utc readyServer mondayMorningWorld
             defaultsRequest (monday2030 + 10 * msPerHour)).
    + reflexivity.
    + intros i. cbn. discriminate.
Defined.

(** A zone that keeps one offset has whole-minute shifts, whatever the
    offset is. *)
Lemma fixedZone_wholeMinuteShifts (tz : Z) : wholeMinuteShifts (fixedZone tz).
Proof.
  intros t tl. cbn [fixedZone offsetAt offsetOfLocal].
  now rewrite Z.sub_diag.
Qed.

Lemma getSeconds_setHours (z : Zone) (c h m t : Z) :
  wholeMinuteShifts z ->
  setHours z c h m 0 0 = Some t ->
  getSeconds z t = 0 /\ getMilliseconds z t = 0.
Proof.
  intros Hz Ht. unfold setHours in Ht. apply TimeClip_some in Ht.
  set (tl := localDay z c * msPerDay + h * msPerHour + m * msPerMinute + 0 * 1000 + 0)
    in *.
  specialize (Hz t tl).
  apply Z.mod_divide in Hz; [| discriminate]. destruct Hz as [q Hq].
  assert (E : localTime z t = ((localDay z c * 1440 + h * 60 + m + q) * 60) * 1000).
  { unfold localTime. unfold utcOf in Ht.
    unfold tl, msPerDay, msPerHour, msPerMinute in *. lia. }
  unfold getSeconds, getMilliseconds. rewrite E. split.
  - rewrite Z.div_mul by discriminate. apply Z.mod_mul. discriminate.
  - apply Z.mod_mul. discriminate.
Qed.

(** X5.  Every send time the deferred mode reports falls on a whole minute of
    local time: its seconds and milliseconds are zero, whatever the hour
    bounds and the draws were, in every zone whose offsets differ by whole
    minutes (a zone that keeps one offset, whatever it is, among them). *)
Theorem deferred_sends_on_whole_minutes (z : Zone) (srv : Server) (w : World)
    (req : Request) :
  wholeMinuteShifts z ->
  sendNow req = false ->
  forall e, In e (responseEntries (fst (scheduleSequenceRoute z srv w req))) ->
    getSeconds z (scheduledFor e) = 0 /\ getMilliseconds z (scheduledFor e) = 0.
Proof.
  intros Hz Hmode e He.
  pose proof (route_entries_drawn z srv w req Hmode) as Hall. cbv zeta in Hall.
  rewrite Forall_forall in Hall.
  destruct (Hall e He) as [fh [th [iw [c [_ [_ [_ Hsend]]]]]]].
  unfold sendTimeOn in Hsend. exact (getSeconds_setHours _ _ _ _ _ Hz Hsend).
Qed.

Lemma deferred_sends_on_whole_minutes_witness :
  (wholeMinuteShifts nuukSpring2030 /\ sendNow lateWeekendRequest = false) /\
  forall e,
    In e (responseEntries
            (fst (scheduleSequenceRoute nuukSpring2030 readyServer earlyMarchWorld
                    lateWeekendRequest))) ->
    getSeconds nuukSpring2030 (scheduledFor e) = 0 /\
    getMilliseconds nuukSpring2030 (scheduledFor e) = 0.
Proof.
  assert (Hz : wholeMinuteShifts nuukSpring2030).
  { intros t tl. cbn [nuukSpring2030 zoneWithChange offsetAt offsetOfLocal].
    destruct (t <? _), (tl <? _); reflexivity. }
  split; [split; [exact Hz | reflexivity] |].
  apply (deferred_sends_on_whole_minutes nuukSpring2030 readyServer earlyMarchWorld
           lateWeekendRequest); [exact Hz | reflexivity].
Defined.

Lemma randomHour_reversed (fh th : Z) (iw : ItemWorld) :
  th < fh -> th + 1 <= randomHour fh th iw <= fh.
Proof.
  intros H. unfold randomHour.
  pose proof (floorRandomTimes_nonpos (hourBits iw) (th - fh + 1)). lia.
Qed.



(** ** Outcomes of the immediate mode *)

Lemma immediateLoop_all_resolve (z : Zone) (uid : string) (w : World)
    (items : list Item) :
  (forall i, firstSchedule (atItem w i) = None) ->
  forall (i : nat) (st : ImmediateState),
  exists st' added,
    immediateLoop z uid w i items st = Normal st' /\
    sentEmails st' = sentEmails st ++ added /\
    map entryKey added = map immediateKey (filter isEligible items) /\
    hasValidEmails st' = (hasValidEmails st || existsb isEligible items)%bool.
Proof.
  intros Hres. induction items as [| item rest IH]; intros i st.
  - exists st, []. cbn. now rewrite app_nil_r, orb_false_r.
  - cbn [immediateLoop filter existsb].
    replace (isEligible item) with (isColdEmail item && truthy (optRecipient item))%bool
      by reflexivity.
    unfold immediateItem. fold (isColdEmail item).
    destruct (isColdEmail item); cbn [andb orb]; [| apply IH].
    destruct (truthy (optRecipient item)); cbn [negb].
    + rewrite (Hres i). cbn [agendaSchedule].
      match goal with
      | |- context [immediateLoop z uid w (S i) rest ?s] =>
          destruct (IH (S i) s) as [st' [added [Hloop [Hsent [Hkeys Hvalid]]]]]
      end.
      exists st'. eexists (_ :: added). split; [exact Hloop |].
      cbn [sentEmails hasValidEmails] in *. split; [| split].
      * rewrite Hsent, <- app_assoc. reflexivity.
      * cbn [map]. now rewrite Hkeys.
      * rewrite Hvalid. now rewrite orb_true_r.
    + match goal with
      | |- context [immediateLoop z uid w (S i) rest ?s] =>
          destruct (IH (S i) s) as [st' [added [Hloop [Hsent [Hkeys Hvalid]]]]]
      end.
      exists st', added. cbn [sentEmails hasValidEmails] in *. auto.
Qed.

(** X7.  In immediate mode, when the database is reachable and every
    scheduling call resolves, a sequence with at least one eligible item is
    answered 200 with one entry per eligible item, in input order: the
    item's recipient and its subject, or ['No Subject'] when the subject is
    missing or empty.  Items of other types and cold e-mails without a
    recipient leave no entry. *)
Theorem immediate_mode_reports_every_eligible_item (z : Zone) (srv : Server)
    (w : World) (req : Request) :
  sendNow req = true ->
  mongoReachable srv = true ->
  (forall i, firstSchedule (atItem w i) = None) ->
  existsb isEligible (sequence req) = true ->
  status (fst (scheduleSequenceRoute z srv w req)) = 200 /\
  map entryKey (responseEntries (fst (scheduleSequenceRoute z srv w req)))
  = map immediateKey (filter isEligible (sequence req)).
Proof.
  intros Hmode Hmongo Hres Hsome.
  destruct (ensureAgenda_reachable srv Hmongo) as [srv1 Hens].
  destruct (ensureAgenda_ready _ _ Hens) as [Ha [_ [Hm _]]].
  unfold scheduleSequenceRoute. rewrite Hens, Ha, Hmode. cbn [negb].
  unfold immediateMode, connectToDatabase. rewrite Hm, Hmongo.
  match goal with
  | |- context [immediateLoop ?zz ?u w 0 ?items ?s] =>
      destruct (immediateLoop_all_resolve zz u w items Hres 0%nat s)
        as [st' [added [Hloop [Hsent [Hkeys Hvalid]]]]]
  end.
  rewrite Hloop. cbn [sentEmails hasValidEmails orb app] in Hsent, Hvalid.
  rewrite Hvalid, Hsome. cbn [negb fst status ok200 responseEntries json].
  split; [reflexivity |]. now rewrite Hsent.
Qed.

Lemma immediate_mode_reports_every_eligible_item_witness :
  let req := immediateRequest [alice; waitNode; noRecipient; bob] in
  (sendNow req = true /\ mongoReachable readyServer = true /\
   (forall i, firstSchedule (atItem mondayDawnWorld i) = None) /\
   existsb isEligible (sequence req) = true) /\
  status (fst (scheduleSequenceRoute utc readyServer mondayDawnWorld req)) = 200 /\
  map entryKey (responseEntries (fst (scheduleSequenceRoute utc readyServer
                                        mondayDawnWorld req)))
  = map immediateKey (filter isEligible (sequence req)).
Proof.
  cbv zeta. split; [repeat split |].
  apply (immediate_mode_reports_every_eligible_item utc readyServer mondayDawnWorld
           (immediateRequest [alice; waitNode; noRecipient; bob]));
    reflexivity.
Defined.

Lemma immediateLoop_all_reject (z : Zone) (uid : string) (w : World)
    (items : list Item) :
  (forall i, exists n, firstSchedule (atItem w i) = Some n /\
                       n <> "MongoNotConnectedError") ->
  forall (i : nat) (st : ImmediateState),
  exists st',
    immediateLoop z uid w i items st = Normal st' /\
    sentEmails st' = sentEmails st /\
    im_server st' = im_server st /\
    hasValidEmails st' = (hasValidEmails st || existsb isEligible items)%bool.
Proof.
  intros Hrej. induction items as [| item rest IH]; intros i st.
  - exists st. cbn. now rewrite orb_false_r.
  - cbn [immediateLoop existsb].
    replace (isEligible item) with (isColdEmail item && truthy (optRecipient item))%bool
      by reflexivity.
    unfold immediateItem. fold (isColdEmail item).
    destruct (isColdEmail item); cbn [andb orb]; [| apply IH].
    destruct (truthy (optRecipient item)); cbn [negb].
    + destruct (Hrej i) as [n [Hn Hname]]. rewrite Hn. cbn [agendaSchedule].
      apply String.eqb_neq in Hname. rewrite Hname.
      match goal with
      | |- context [immediateLoop z uid w (S i) rest ?s] =>
          destruct (IH (S i) s) as [st' [Hloop [Hsent [Hsrv Hvalid]]]]
      end.
      exists st'. cbn [sentEmails hasValidEmails im_server] in *.
      rewrite Hvalid. now rewrite orb_true_r.
    + match goal with
      | |- context [immediateLoop z uid w (S i) rest ?s] =>
          destruct (IH (S i) s) as [st' [Hloop [Hsent [Hsrv Hvalid]]]]
      end.
      exists st'. cbn [sentEmails hasValidEmails im_server] in *. auto.
Qed.

(** X8.  The immediate mode does not report scheduling failures.  When the
    sequence has an eligible item and every scheduling call rejects with an
    error other than a lost connection, each failure is caught and logged,
    and the answer is still 200 ['Sequence sent successfully'], with an empty
    [scheduledEmails] and nothing stored. *)
Theorem immediate_mode_hides_schedule_failures (z : Zone) (srv : Server) (w : World)
    (req : Request) :
  sendNow req = true ->
  mongoReachable srv = true ->
  (forall i, exists n, firstSchedule (atItem w i) = Some n /\
                       n <> "MongoNotConnectedError") ->
  existsb isEligible (sequence req) = true ->
  fst (scheduleSequenceRoute z srv w req)
    = ok200 "Sequence sent successfully" [] None /\
  emailJobs (snd (scheduleSequenceRoute z srv w req)) = emailJobs srv.
Proof.
  intros Hmode Hmongo Hrej Hsome.
  destruct (ensureAgenda_reachable srv Hmongo) as [srv1 Hens].
  destruct (ensureAgenda_ready _ _ Hens) as [Ha [Hjobs [Hm _]]].
  unfold scheduleSequenceRoute. rewrite Hens, Ha, Hmode. cbn [negb].
  unfold immediateMode, connectToDatabase. rewrite Hm, Hmongo.
  match goal with
  | |- context [immediateLoop ?zz ?u w 0 ?items ?s] =>
      destruct (immediateLoop_all_reject zz u w items Hrej 0%nat s)
        as [st' [Hloop [Hsent [Hsrv Hvalid]]]]
  end.
  rewrite Hloop. cbn [sentEmails hasValidEmails im_server orb] in Hsent, Hsrv, Hvalid.
  rewrite Hvalid, Hsome, Hsent, Hsrv. cbn [negb fst snd]. now split.
Qed.

Lemma immediate_mode_hides_schedule_failures_witness :
  let w := rejectingWorld (monday2030 + 6 * msPerHour) "ValidationError" in
  let req := immediateRequest [alice; bob] in
  (sendNow req = true /\ mongoReachable readyServer = true /\
   (forall i, exists n, firstSchedule (atItem w i) = Some n /\
                        n <> "MongoNotConnectedError") /\
   existsb isEligible (sequence req) = true) /\
  fst (scheduleSequenceRoute utc readyServer w req)
    = ok200 "Sequence sent successfully" [] None /\
  emailJobs (snd (scheduleSequenceRoute utc readyServer w req))
    = emailJobs readyServer.
Proof.
  assert (Hrej : forall i, exists n,
            firstSchedule
              (atItem (rejectingWorld (monday2030 + 6 * msPerHour) "ValidationError") i)
            = Some n /\ n <> "MongoNotConnectedError").
  { intros i. exists "ValidationError". split; [reflexivity | discriminate]. }
  cbv zeta. split; [repeat split; exact Hrej |].
  apply (immediate_mode_hides_schedule_failures utc readyServer
           (rejectingWorld (monday2030 + 6 * msPerHour) "ValidationError")
           (immediateRequest [alice; bob])); try reflexivity.
  exact Hrej.
Defined.

(** ** The single-email route and the store *)

(** X9.  What [POST /api/schedule-email] stores against what it answers.
    The route only appends to the store, at most two jobs, each an unlocked
    ['send email'] job carrying the request's recipient, subject, body and
    user and due at the send time computed from the request.  A 200 answer
    names, as [jobId], the job stored last, due at the [scheduledFor] it
    reports.  An answer other than 200 can leave a job behind, but only when
    the scheduling call resolved and one of the two database calls made
    after it did not come back with the job. *)
Theorem schedule_email_store_against_answer (z : Zone) (srv : Server)
    (iw : ItemWorld) (req : EmailRequest) :
  let result := scheduleEmailRoute z srv iw req in
  exists added,
    emailJobs (snd result) = emailJobs srv ++ added /\
    (List.length added <= 2)%nat /\
    Forall (fun j =>
              nextRunAt j = computeSendTime z (clock iw) (e_delay req) (e_unit req) /\
              jobData j = emailJobData req /\ lockedAt j = None /\
              name j = "send email") added /\
    (status (fst result) = 200 ->
     exists msg t j before,
       json (fst result) = EmailBody msg t (_id j) /\
       added = before ++ [j] /\ nextRunAt j = Some t) /\
    (status (fst result) <> 200 -> added <> [] ->
     firstSchedule iw = None /\
     (verifyConnect iw <> None \/ verifyFind iw <> Found)).
Proof.
  cbv zeta.
  set (P := fun r : Response * Server =>
    exists added,
      emailJobs (snd r) = emailJobs srv ++ added /\
      (List.length added <= 2)%nat /\
      Forall (fun j =>
                nextRunAt j = computeSendTime z (clock iw) (e_delay req) (e_unit req) /\
                jobData j = emailJobData req /\ lockedAt j = None /\
                name j = "send email") added /\
      (status (fst r) = 200 ->
       exists msg t j before,
         json (fst r) = EmailBody msg t (_id j) /\
         added = before ++ [j] /\ nextRunAt j = Some t) /\
      (status (fst r) <> 200 -> added <> [] ->
       firstSchedule iw = None /\
       (verifyConnect iw <> None \/ verifyFind iw <> Found))).
  change (P (scheduleEmailRoute z srv iw req)).
  assert (Hfail : forall code msg details s,
            code <> 200 -> emailJobs s = emailJobs srv ->
            P (failed code msg details, s)).
  { intros code msg details s Hcode Hs. exists []. cbn [fst snd failed status].
    rewrite app_nil_r. split; [exact Hs |]. split; [cbn; lia |].
    split; [constructor |]. split; [intros H; contradiction |].
    intros _ H. now elim H. }
  unfold scheduleEmailRoute.
  destruct (emailConfigured srv); cbn [negb]; [| apply Hfail; [lia | reflexivity]].
  pose proof (ensureAgenda_jobs srv) as Hj1.
  destruct (ensureAgenda srv) as [srv1 | n srv1]; cbn [stateOf] in Hj1;
    [| apply Hfail; [lia | exact Hj1]].
  destruct (agenda srv1); cbn [negb]; [| apply Hfail; [lia | exact Hj1]].
  destruct (computeSendTime z (clock iw) (e_delay req) (e_unit req)) as [t |] eqn:Htime;
    [| apply Hfail; [lia | exact Hj1]].
  assert (Hretry : forall n s pre,
            emailJobs s = emailJobs srv ++ pre ->
            (List.length pre <= 1)%nat ->
            Forall (fun j => nextRunAt j = Some t /\ jobData j = emailJobData req /\
                             lockedAt j = None /\ name j = "send email") pre ->
            (pre <> [] -> firstSchedule iw = None /\
                          (verifyConnect iw <> None \/ verifyFind iw <> Found)) ->
            P (retryEmail iw t req n s)).
  { intros n s pre Hs Hlen Hpre Hwhy.
    destruct (retryEmail_outcome iw t req n s)
      as [[Hsame [H500 _]] | [_ [_ [j [Hadd [Hrun [Hdata [Hlock [Hname Hfst]]]]]]]]].
    - exists pre. rewrite Hsame. split; [exact Hs |]. split; [lia |].
      split; [exact Hpre |]. rewrite H500. split; [discriminate |].
      intros _. exact Hwhy.
    - exists (pre ++ [j]). rewrite Hadd, Hs, <- app_assoc.
      split; [reflexivity |]. split; [rewrite length_app; cbn; lia |].
      split; [| split].
      + apply Forall_app. split; [exact Hpre |].
        constructor; [| constructor]. now repeat split.
      + intros _. rewrite Hfst. cbn [json].
        now exists "Email scheduled successfully after reconnection", t, j, pre.
      + rewrite Hfst. cbn [status]. intros H. now elim H. }
  unfold connectToDatabase.
  destruct (mongoReachable srv1).
  2:{ apply (Hretry _ _ []); [now rewrite app_nil_r | cbn; lia | constructor |].
      intros H. now elim H. }
  destruct (negb (transporter srv1) && negb (transporterInitOk srv1))%bool;
    [apply Hfail; [lia | exact Hj1] |].
  unfold agendaSchedule.
  destruct (firstSchedule iw) as [n |] eqn:Hfirst.
  { apply (Hretry _ _ []);
      [cbn [setTransporter emailJobs]; now rewrite app_nil_r | cbn; lia
      | constructor |].
    intros H. now elim H. }
  set (job := newJob (emailJobs (setTransporter srv1 true)) t (emailJobData req)).
  assert (Hstored : emailJobs (setJobs (setTransporter srv1 true)
                      (emailJobs (setTransporter srv1 true) ++ [job]))
                    = emailJobs srv ++ [job]).
  { cbn [setJobs setTransporter emailJobs]. now rewrite Hj1. }
  assert (Hgood : Forall (fun j => nextRunAt j = Some t /\
                            jobData j = emailJobData req /\
                            lockedAt j = None /\ name j = "send email") [job]).
  { constructor; [| constructor]. now repeat split. }
  destruct (verifyConnect iw) as [n |] eqn:Hvc.
  { apply (Hretry _ _ [job]); [exact Hstored | cbn; lia | exact Hgood |].
    intros _. split; [reflexivity |]. left. discriminate. }
  destruct (verifyFind iw) as [ | | n] eqn:Hvf.
  - exists [job]. cbn [fst snd status json]. split; [exact Hstored |].
    split; [cbn; lia |]. split; [exact Hgood |]. split.
    + intros _. now exists "Email scheduled successfully", t, job, [].
    + intros H. now elim H.
  - exists [job]. cbn [fst snd status failed]. split; [exact Hstored |].
    split; [cbn; lia |]. split; [exact Hgood |]. split; [discriminate |].
    intros _ _. split; [reflexivity |]. right. discriminate.
  - apply (Hretry _ _ [job]); [exact Hstored | cbn; lia | exact Hgood |].
    intros _. split; [reflexivity |]. right. discriminate.
Qed.

(** ** The monitor sweep, continued *)

(** X10.  After one sweep of the monitor, run with the scheduler initialised
    and the database reachable, no job in the store holds a lock older than
    five minutes: every [lockedAt] that remains is at most five minutes
    before the sweep. *)
Theorem sweep_leaves_no_stale_lock (srv : Server) (w : World) :
  agenda srv = true -> agendaInitialized srv = true -> mongoReachable srv = true ->
  forall j l, In j (emailJobs (monitorSweep srv w)) -> lockedAt j = Some l ->
    sweepClock w - 5 * msPerMinute <= l.
Proof.
  intros Ha Hi Hm j l Hin Hl.
  unfold monitorSweep, connectToDatabase in Hin. rewrite Ha, Hi, Hm in Hin.
  cbn [andb] in Hin.
  destruct (Nat.ltb 0 (countDocuments isLocked (emailJobs srv))) eqn:Hcount.
  - cbn [setJobs emailJobs] in Hin. unfold updateMany in Hin.
    apply in_map_iff in Hin. destruct Hin as [j0 [Hj0 _]].
    unfold lockedBefore in Hj0.
    destruct (lockedAt j0) as [l0 |] eqn:Hl0.
    + destruct (l0 <? sweepClock w - 5 * 60 * 1000) eqn:Hcmp.
      * subst j. cbn in Hl. discriminate.
      * subst j. rewrite Hl0 in Hl. injection Hl as <-.
        apply Z.ltb_ge in Hcmp. unfold msPerMinute. lia.
    + subst j. rewrite Hl0 in Hl. discriminate.
  - rewrite (countDocuments_positive isLocked (emailJobs srv) j Hin) in Hcount
      by (unfold isLocked; now rewrite Hl).
    discriminate.
Qed.

Lemma sweep_leaves_no_stale_lock_witness :
  (agenda sweptServer = true /\ agendaInitialized sweptServer = true /\
   mongoReachable sweptServer = true) /\
  forall j l, In j (emailJobs (monitorSweep sweptServer mondayDawnWorld)) ->
    lockedAt j = Some l -> sweepClock mondayDawnWorld - 5 * msPerMinute <= l.
Proof.
  split; [repeat split |].
  apply (sweep_leaves_no_stale_lock sweptServer mondayDawnWorld); reflexivity.
Defined.

Lemma updateMany_unlock_idempotent (t : Z) (jobs : list Job) :
  updateMany (lockedBefore t) unlock (updateMany (lockedBefore t) unlock jobs)
  = updateMany (lockedBefore t) unlock jobs.
Proof.
  unfold updateMany. rewrite map_map. apply map_ext. intros j.
  destruct (lockedBefore t j) eqn:E; [reflexivity | now rewrite E].
Qed.

Lemma updateMany_unlock_none_locked (t : Z) (jobs : list Job) :
  Nat.ltb 0 (countDocuments isLocked jobs) = false ->
  updateMany (lockedBefore t) unlock jobs = jobs.
Proof.
  intros Hcount. unfold updateMany. rewrite <- (map_id jobs) at 2.
  apply map_ext_in. intros j Hin. unfold lockedBefore.
  destruct (lockedAt j) as [l |] eqn:Hl; [| reflexivity].
  rewrite (countDocuments_positive isLocked jobs j Hin) in Hcount
    by (unfold isLocked; now rewrite Hl).
  discriminate.
Qed.

Lemma monitorSweep_jobs (srv : Server) (w : World) :
  monitorSweep srv w = srv \/
  monitorSweep srv w =
    setJobs srv (updateMany (lockedBefore (sweepClock w - 5 * 60 * 1000)) unlock
                   (emailJobs srv)).
Proof.
  unfold monitorSweep, connectToDatabase.
  destruct (agenda srv && agendaInitialized srv)%bool; [| now left].
  destruct (mongoReachable srv); [| now left].
  destruct (Nat.ltb 0 (countDocuments isLocked (emailJobs srv)));
    [now right | now left].
Qed.

Lemma countDocuments_map_le (p q : Job -> bool) (g : Job -> Job) (jobs : list Job) :
  (forall j, p j = true -> q (g j) = true) ->
  (countDocuments p jobs <= countDocuments q (map g jobs))%nat.
Proof.
  intros H. unfold countDocuments. induction jobs as [| j rest IH]; [cbn; lia |].
  cbn [filter map]. destruct (p j) eqn:Hp.
  - rewrite (H j Hp). cbn [List.length]. lia.
  - destruct (q (g j)); cbn [List.length]; lia.
Qed.

Lemma countDocuments_map_ge (p : Job -> bool) (g : Job -> Job) (jobs : list Job) :
  (forall j, p (g j) = true -> p j = true) ->
  (countDocuments p (map g jobs) <= countDocuments p jobs)%nat.
Proof.
  intros H. unfold countDocuments. induction jobs as [| j rest IH]; [cbn; lia |].
  cbn [filter map]. destruct (p (g j)) eqn:Hp.
  - rewrite (H j Hp). cbn [List.length]. lia.
  - destruct (p j); cbn [List.length]; lia.
Qed.

(** X11.  The sweep is safe to repeat and only ever releases.  Sweeping twice
    at the same clock reading gives the same server state as sweeping once;
    a sweep never lowers the number of pending jobs (due and unlocked) and
    never raises the number of locked jobs. *)
Theorem sweep_is_idempotent_and_only_unlocks (srv : Server) (w : World) :
  monitorSweep (monitorSweep srv w) w = monitorSweep srv w /\
  (countDocuments isPending (emailJobs srv)
   <= countDocuments isPending (emailJobs (monitorSweep srv w)))%nat /\
  (countDocuments isLocked (emailJobs (monitorSweep srv w))
   <= countDocuments isLocked (emailJobs srv))%nat.
Proof.
  split; [| split].
  - unfold monitorSweep at 2 3. unfold connectToDatabase.
    destruct (agenda srv && agendaInitialized srv)%bool eqn:Hg;
      [| unfold monitorSweep; now rewrite Hg].
    destruct (mongoReachable srv) eqn:Hm;
      [| unfold monitorSweep, connectToDatabase; now rewrite Hg, Hm].
    destruct (Nat.ltb 0 (countDocuments isLocked (emailJobs srv))) eqn:Hc.
    + unfold monitorSweep, connectToDatabase.
      cbn [setJobs agenda agendaInitialized mongoReachable emailJobs].
      rewrite Hg, Hm.
      match goal with
      | |- context [Nat.ltb 0 ?n] => destruct (Nat.ltb 0 n)
      end.
      * unfold setJobs.
        cbn [emailJobs agenda agendaInitialized mongoReachable emailConfigured
             transporter transporterInitOk].
        now rewrite updateMany_unlock_idempotent.
      * reflexivity.
    + unfold monitorSweep, connectToDatabase. now rewrite Hg, Hm, Hc.
  - destruct (monitorSweep_jobs srv w) as [-> | ->]; [lia |].
    cbn [setJobs emailJobs]. unfold updateMany. apply countDocuments_map_le.
    intros j Hp. unfold isPending in Hp.
    destruct (nextRunAt j) eqn:Hn; [| discriminate].
    destruct (lockedAt j) eqn:Hl; [discriminate |].
    unfold lockedBefore. rewrite Hl. unfold isPending. now rewrite Hn, Hl.
  - destruct (monitorSweep_jobs srv w) as [-> | ->]; [lia |].
    cbn [setJobs emailJobs]. unfold updateMany. apply countDocuments_map_ge.
    intros j Hp. unfold isLocked. unfold lockedBefore in Hp.
    destruct (lockedAt j) as [l |] eqn:Hl; [reflexivity |].
    unfold isLocked in Hp. now rewrite Hl in Hp.
Qed.

(** * Properties of the calling pages *)

Lemma hours_are_hours_of_day (h : string) : In h hours -> isHourOfDay h = true.
Proof.
  assert (H : forallb isHourOfDay hours = true) by reflexivity.
  rewrite forallb_forall in H. apply H.
Qed.

Lemma weekdayNames_known (day : string) :
  In day weekdayNames -> dayMap (toLowerCase day) <> None.
Proof.
  intros H. unfold weekdayNames in H.
  repeat (destruct H as [<- | H]; [vm_compute; discriminate |]). contradiction.
Qed.

Lemma reachable_invariant (st : PageState) :
  Reachable st ->
  In (pg_fromTime st) hours /\ In (pg_toTime st) hours /\
  map fst (pg_days st) = weekdayNames /\
  (pg_sendOption st = "now" \/ pg_sendOption st = "schedule").
Proof.
  induction 1 as [now items | day st Hday _ IH | h st Hh _ IH | h st Hh _ IH
                 | d st _ IH | o st Ho _ IH].
  - repeat split; try (vm_compute; tauto).
  - destruct IH as [Hf [Ht [Hd Ho]]]. repeat split; try assumption.
    cbn [handleDayToggle pg_days]. rewrite <- Hd, map_map. apply map_ext.
    intros [k v]. cbn. now destruct (String.eqb k day).
  - destruct IH as [Hf [Ht [Hd Ho]]]. now repeat split.
  - destruct IH as [Hf [Ht [Hd Ho]]]. now repeat split.
  - exact IH.
  - destruct IH as [Hf [Ht [Hd _]]]. repeat split; try assumption.
    cbn [setSendOption pg_sendOption].
    destruct Ho as [<- | [<- | []]]; [now left | now right].
Qed.

(** What [handleSubmit] posts in schedule mode. *)
Lemma handleSubmit_schedule (st : PageState) (b : PostBody) :
  handleSubmit st = Proceed b -> pg_sendOption st = "schedule" ->
  exists start,
    pg_date st = Some start /\ selectedDays st <> [] /\
    b = {| b_sequence := pg_sequence st;
           b_schedulingOptions :=
             Some {| startDate := Some (Some start);
                     fromTime := Some (pg_fromTime st);
                     toTime := Some (pg_toTime st);
                     days := Some (selectedDays st) |};
           b_sendNow := false |}.
Proof.
  intros H Hopt. unfold handleSubmit in H. rewrite Hopt in H. cbn in H.
  destruct (pg_date st) as [start |] eqn:Hd; [| discriminate].
  destruct (selectedDays st) as [| d ds] eqn:Hs; [discriminate |].
  cbn in H. injection H as <-. exists start. repeat split. discriminate.
Qed.

(** What [handleSubmit] posts in send-now mode. *)
Lemma handleSubmit_now (st : PageState) (b : PostBody) :
  handleSubmit st = Proceed b -> pg_sendOption st = "now" ->
  (forall item, In item (pg_sequence st) -> isColdEmail item = true ->
     isEligible item = true) /\
  b = {| b_sequence := pg_sequence st; b_schedulingOptions := None;
         b_sendNow := true |}.
Proof.
  intros H Hopt. unfold handleSubmit in H. rewrite Hopt in H. cbn in H.
  destruct (filter _ (pg_sequence st)) as [| bad rest] eqn:Hf; [| discriminate].
  cbn in H. injection H as <-. split; [| reflexivity].
  intros item Hin Hcold. unfold isEligible. rewrite Hcold. cbn [andb].
  destruct (truthy (optRecipient item)) eqn:Ht; [reflexivity |].
  assert (Hbad : In item (filter (fun item => isColdEmail item &&
                                    negb (truthy (optRecipient item)))%bool
                            (pg_sequence st))).
  { apply filter_In. split; [exact Hin |]. now rewrite Hcold, Ht. }
  rewrite Hf in Hbad. contradiction.
Qed.

Lemma includes_scheduleDays (ds : list string) (d : Z) :
  includes (scheduleDays ds) d = true ->
  exists day, In day ds /\ dayMap (toLowerCase day) = Some d.
Proof.
  unfold includes. intros H. apply existsb_exists in H.
  destruct H as [v [Hin Hv]]. destruct v as [d' |]; [| discriminate].
  apply Z.eqb_eq in Hv. subst d'.
  unfold scheduleDays in Hin. apply in_map_iff in Hin.
  destruct Hin as [day [Hday Hin]]. now exists day.
Qed.

(** X12.  On a host whose clocks do not change over the period the run can
    reach (from the day before the date picked to 14 days per item after
    it), whatever the schedule page posts in schedule mode is honoured by
    the route.  For every form state the widgets can reach, if
    [handleSubmit] posts, then each send the server reports falls on a
    weekday that is ticked on the page, at an hour between the two times
    picked (in whichever order they were picked), and the sends are on
    strictly increasing calendar days.  (Across a clock change none of the
    three holds: see [skipped_hour_leaves_the_window],
    [skipped_hour_changes_the_weekday] and
    [skipped_hour_puts_two_sends_on_one_day].) *)
Theorem page_schedule_posts_are_honoured (z : Zone) (tz : Z) (srv : Server)
    (w : World) (uid : string) (st : PageState) (b : PostBody) :
  Reachable st ->
  handleSubmit st = Proceed b ->
  pg_sendOption st = "schedule" ->
  keepsOffsetDuring z tz (pg_date st) (List.length (pg_sequence st)) ->
  exists fh th,
    parseHour (pg_fromTime st) = Some fh /\ parseHour (pg_toTime st) = Some th /\
    (forall e,
       In e (responseEntries
               (fst (scheduleSequenceRoute z srv w (requestOf uid b)))) ->
       Z.min fh th <= getHours z (scheduledFor e) <= Z.max fh th /\
       exists day, In day (selectedDays st) /\
                   dayMap (toLowerCase day) = Some (getDay z (scheduledFor e))) /\
    StronglySorted Z.lt
      (map (entryDay z)
         (responseEntries (fst (scheduleSequenceRoute z srv w (requestOf uid b))))).
Proof.
  intros Hreach Hsubmit Hopt Hkeeps.
  destruct (reachable_invariant st Hreach) as [Hfrom [Hto _]].
  destruct (handleSubmit_schedule st b Hsubmit Hopt) as [start [Hdate [_ ->]]].
  destruct (isHourOfDay_parse _ (hours_are_hours_of_day _ Hfrom)) as [fh [Ef Rf]].
  destruct (isHourOfDay_parse _ (hours_are_hours_of_day _ Hto)) as [th [Et Rt]].
  exists fh, th. split; [exact Ef |]. split; [exact Et |].
  set (req := requestOf uid _).
  assert (Hmode : sendNow req = false) by reflexivity.
  assert (Hhours : hoursOfDay
            (parseHour (o_fromTime (normalizeOptions (requestClock w)
                                      (schedulingOptions req))))
            (parseHour (o_toTime (normalizeOptions (requestClock w)
                                    (schedulingOptions req))))).
  { intros a c Ea Ec. cbn in Ea, Ec. rewrite Ef in Ea. rewrite Et in Ec.
    injection Ea as <-. injection Ec as <-. now split. }
  assert (Hreq : keepsOffsetDuring z tz
            (o_startDate (normalizeOptions (requestClock w) (schedulingOptions req)))
            (List.length (sequence req))).
  { rewrite Hdate in Hkeeps. exact Hkeeps. }
  destruct (route_steady z tz srv w req Hmode Hhours Hreq) as [Hroute Hlocal].
  rewrite Hroute.
  rewrite (map_ext_in (entryDay z) (entryDay (fixedZone tz)))
    by (intros e He; unfold entryDay, localDay; now rewrite (Hlocal e He)).
  split.
  - intros e He.
    unfold getHours, getDay, localDay. rewrite (Hlocal e He).
    fold (localDay (fixedZone tz) (scheduledFor e)).
    fold (getHours (fixedZone tz) (scheduledFor e)).
    fold (getDay (fixedZone tz) (scheduledFor e)).
    pose proof (route_entries_drawn (fixedZone tz) srv w req Hmode) as Hall.
    cbv zeta in Hall. rewrite Forall_forall in Hall.
    destruct (Hall e He) as [fh' [th' [iw [c [Ef' [Et' [Hday Hsend]]]]]]].
    cbn in Ef', Et', Hday. rewrite Ef in Ef'. rewrite Et in Et'.
    injection Ef' as <-. injection Et' as <-.
    pose proof (randomHour_in_day fh th iw Rf Rt) as Hh.
    pose proof (randomMinute_range iw) as Hm.
    unfold sendTimeOn in Hsend. split.
    + rewrite (getHours_setHours _ _ _ _ _ Hh Hm Hsend).
      destruct (Z_le_gt_dec fh th) as [Hle | Hgt].
      * pose proof (randomHour_window fh th iw Hle). lia.
      * assert (Hlt : th < fh) by lia.
        pose proof (randomHour_reversed fh th iw Hlt). lia.
    + apply includes_scheduleDays. unfold getDay.
      rewrite (localDay_setHours _ _ _ _ _ Hh Hm Hsend). exact Hday.
  - apply route_entries_ascend; [exact Hmode | exact Hhours].
Qed.

Lemma weekendPage_reachable : Reachable weekendPage.
Proof.
  unfold weekendPage.
  apply ReachToTime; [vm_compute; tauto |].
  apply ReachFromTime; [vm_compute; tauto |].
  apply ReachToggle; [vm_compute; tauto |].
  apply ReachInitial.
Qed.

Lemma page_schedule_posts_are_honoured_witness :
  let b := {| b_sequence := [alice; waitNode; bob];
              b_schedulingOptions :=
                Some {| startDate := Some (Some (monday2030 + 6 * msPerHour));
                        fromTime := Some "18:00"; toTime := Some "08:00";
                        days := Some ["monday"; "tuesday"; "wednesday"; "thursday";
                                      "friday"; "saturday"] |};
              b_sendNow := false |} in
  (Reachable weekendPage /\ handleSubmit weekendPage = Proceed b /\
   pg_sendOption weekendPage = "schedule" /\
   keepsOffsetDuring easternSpring2030 (-5 * msPerHour) (pg_date weekendPage)
     (List.length (pg_sequence weekendPage))) /\
  exists fh th,
    parseHour (pg_fromTime weekendPage) = Some fh /\
    parseHour (pg_toTime weekendPage) = Some th /\
    (forall e,
       In e (responseEntries
               (fst (scheduleSequenceRoute easternSpring2030 readyServer
                       mondayDawnWorld (requestOf "u1" b)))) ->
       Z.min fh th <= getHours easternSpring2030 (scheduledFor e) <= Z.max fh th /\
       exists day, In day (selectedDays weekendPage) /\
                   dayMap (toLowerCase day)
                   = Some (getDay easternSpring2030 (scheduledFor e))) /\
    StronglySorted Z.lt
      (map (entryDay easternSpring2030)
         (responseEntries
            (fst (scheduleSequenceRoute easternSpring2030 readyServer mondayDawnWorld
                    (requestOf "u1" b))))).
Proof.
  assert (Hkeeps : keepsOffsetDuring easternSpring2030 (-5 * msPerHour)
                     (pg_date weekendPage) (List.length (pg_sequence weekendPage))).
  { apply zoneWithChange_keepsOffset. vm_compute. reflexivity. }
  cbv zeta. split.
  - split; [exact weekendPage_reachable |]. split; [reflexivity |].
    split; [reflexivity | exact Hkeeps].
  - apply (page_schedule_posts_are_honoured easternSpring2030 (-5 * msPerHour)
             readyServer mondayDawnWorld "u1" weekendPage);
      [exact weekendPage_reachable | reflexivity | reflexivity | exact Hkeeps].
Defined.

(** X13.  A schedule-mode post of the page always offers the server an
    eligible day.  For every reachable form state, the days [handleSubmit]
    posts are not empty and are all names the server knows.  So while the
    cursor is a valid date with the six days after it in the range of dates,
    and the host's clocks do not change in those six days, the server's
    14-day search for any item stops on an allowed weekday at most six days
    after the cursor and makes its draw there.  (Across a clock change the
    search can take a seventh step, and from an invalid cursor it finds no
    day: see [skipped_day_lengthens_the_search] and
    [invalid_start_date_schedules_nothing].) *)
Theorem page_days_always_offer_a_day (z : Zone) (tz : Z) (uid : string)
    (fromHour toHour : option Z) (iw : ItemWorld) (item : Item)
    (dst : DeferredState) (c : Z) (st : PageState) (b : PostBody) :
  Reachable st ->
  handleSubmit st = Proceed b ->
  pg_sendOption st = "schedule" ->
  exists ds,
    option_map days (b_schedulingOptions b) = Some (Some ds) /\
    ds <> [] /\
    (forall day, In day ds -> dayMap (toLowerCase day) <> None) /\
    (currentDate dst = Some c ->
     Z.abs c + 6 * msPerDay <= maxTime ->
     keepsOffset z tz c (c + 6 * msPerDay) ->
     exists k : nat,
       (k < 7)%nat /\
       includes (scheduleDays ds) (getDay z (c + Z.of_nat k * msPerDay)) = true /\
       findValidDay z uid fromHour toHour (scheduleDays ds) 14 iw item dst =
       scheduleOnDay z uid fromHour toHour iw item
         (withCursor dst (Some (c + Z.of_nat k * msPerDay)))).
Proof.
  intros Hreach Hsubmit Hopt.
  destruct (reachable_invariant st Hreach) as [_ [_ [Hkeys _]]].
  destruct (handleSubmit_schedule st b Hsubmit Hopt) as [start [_ [Hsel ->]]].
  exists (selectedDays st). split; [reflexivity |]. split; [exact Hsel |].
  assert (Hknown : forall day, In day (selectedDays st) ->
                     dayMap (toLowerCase day) <> None).
  { intros day Hin. apply weekdayNames_known. rewrite <- Hkeys.
    unfold selectedDays in Hin. apply in_map_iff in Hin.
    destruct Hin as [kv [<- Hkv]]. apply filter_In in Hkv.
    apply in_map. tauto. }
  split; [exact Hknown |].
  intros Hcur Hrange Hkeeps.
  assert (Hsome : exists day, In day (selectedDays st) /\
                              dayMap (toLowerCase day) <> None).
  { destruct (selectedDays st) as [| day0 rest] eqn:Hs; [now elim Hsel |].
    exists day0. split; [now left | apply Hknown; now left]. }
  destruct (firstEligible_within_a_week tz (selectedDays st) c Hrange Hsome)
    as [k [Hk Hfixed]].
  assert (Hfirst : firstEligible z (scheduleDays (selectedDays st)) 14 (Some c)
                   = Some (c + Z.of_nat k * msPerDay)).
  { apply (firstEligible_steady z tz c (c + 6 * msPerDay) _ _ Hkeeps);
      [lia | unfold msPerDay; lia | exact Hfixed]. }
  exists k. split; [exact Hk |]. split.
  - now apply firstEligible_sound in Hfirst.
  - now rewrite findValidDay_firstEligible, Hcur, Hfirst.
Qed.

Lemma page_days_always_offer_a_day_witness :
  let b := {| b_sequence := [alice; waitNode; bob];
              b_schedulingOptions :=
                Some {| startDate := Some (Some (monday2030 + 6 * msPerHour));
                        fromTime := Some "18:00"; toTime := Some "08:00";
                        days := Some ["monday"; "tuesday"; "wednesday"; "thursday";
                                      "friday"; "saturday"] |};
              b_sendNow := false |} in
  let c := friday2030 + 2 * msPerDay in
  let dst := {| currentDate := Some c; scheduledEmails := [];
                d_server := readyServer |} in
  (Reachable weekendPage /\ handleSubmit weekendPage = Proceed b /\
   pg_sendOption weekendPage = "schedule") /\
  exists ds,
    option_map days (b_schedulingOptions b) = Some (Some ds) /\
    ds <> [] /\
    (forall day, In day ds -> dayMap (toLowerCase day) <> None) /\
    currentDate dst = Some c /\
    Z.abs c + 6 * msPerDay <= maxTime /\
    keepsOffset easternSpring2030 (-5 * msPerHour) c (c + 6 * msPerDay) /\
    exists k : nat,
      (k < 7)%nat /\
      includes (scheduleDays ds)
        (getDay easternSpring2030 (c + Z.of_nat k * msPerDay)) = true /\
      findValidDay easternSpring2030 "u1" (Some 18) (Some 8) (scheduleDays ds) 14
        (atItem mondayDawnWorld 0) alice dst =
      scheduleOnDay easternSpring2030 "u1" (Some 18) (Some 8)
        (atItem mondayDawnWorld 0) alice
        (withCursor dst (Some (c + Z.of_nat k * msPerDay))).
Proof.
  assert (Hrange : Z.abs (friday2030 + 2 * msPerDay) + 6 * msPerDay <= maxTime).
  { vm_compute. discriminate. }
  assert (Hkeeps : keepsOffset easternSpring2030 (-5 * msPerHour)
                     (friday2030 + 2 * msPerDay)
                     (friday2030 + 2 * msPerDay + 6 * msPerDay)).
  { apply zoneWithChange_keepsOffset. vm_compute. reflexivity. }
  cbv zeta. split.
  - split; [exact weekendPage_reachable |]. split; reflexivity.
  - destruct (page_days_always_offer_a_day easternSpring2030 (-5 * msPerHour) "u1"
                (Some 18) (Some 8) (atItem mondayDawnWorld 0) alice
                {| currentDate := Some (friday2030 + 2 * msPerDay);
                   scheduledEmails := []; d_server := readyServer |}
                (friday2030 + 2 * msPerDay) weekendPage _
                weekendPage_reachable eq_refl eq_refl)
      as [ds [Hdays [Hsome [Hknown Hsearch]]]].
    exists ds. split; [exact Hdays |]. split; [exact Hsome |].
    split; [exact Hknown |]. split; [reflexivity |]. split; [exact Hrange |].
    split; [exact Hkeeps |]. exact (Hsearch eq_refl Hrange Hkeeps).
Defined.

Lemma immediateItem_missing_flag (z : Zone) (uid : string) (iw : ItemWorld)
    (item : Item) (st : ImmediateState) :
  (isColdEmail item = true -> isEligible item = true) ->
  hasMissingRecipients (stateOf (immediateItem z uid iw item st))
  = hasMissingRecipients st.
Proof.
  intros Hok. unfold immediateItem. fold (isColdEmail item).
  destruct (isColdEmail item) eqn:Hcold; [| reflexivity].
  specialize (Hok eq_refl). unfold isEligible in Hok. rewrite Hcold in Hok.
  cbn [andb] in Hok. rewrite Hok. cbn [negb]. unfold agendaSchedule.
  destruct (firstSchedule iw) as [n |]; [| reflexivity].
  destruct (String.eqb n "MongoNotConnectedError"); [| reflexivity].
  destruct (initializeAgenda (im_server st)); [| reflexivity].
  destruct (retrySchedule iw); reflexivity.
Qed.

Lemma immediateLoop_missing_flag (z : Zone) (uid : string) (w : World)
    (items : list Item) :
  (forall item, In item items -> isColdEmail item = true -> isEligible item = true) ->
  forall (i : nat) (st : ImmediateState),
    hasMissingRecipients (stateOf (immediateLoop z uid w i items st))
    = hasMissingRecipients st.
Proof.
  induction items as [| item rest IH]; intros Hok i st; [reflexivity |].
  cbn [immediateLoop].
  pose proof (immediateItem_missing_flag z uid (atItem w i) item st
                (Hok item (or_introl eq_refl))) as H1.
  destruct (immediateItem z uid (atItem w i) item st) as [st1 | n st1];
    cbn [stateOf] in *; [| exact H1].
  rewrite IH; [exact H1 |]. intros it Hin. apply Hok. now right.
Qed.

(** X14.  A send-now post of the page is never rejected for missing
    recipients.  [handleSubmit] posts in send-now mode only when every cold
    e-mail has a recipient, so whatever else happens the route does not
    answer with the missing-recipient message; and when the database is
    reachable, every scheduling call resolves and the sequence has a cold
    e-mail, the answer is 200 with one entry per cold e-mail, in order. *)
Theorem page_send_now_never_misses_recipients (z : Zone) (srv : Server) (w : World)
    (uid : string) (st : PageState) (b : PostBody) :
  handleSubmit st = Proceed b ->
  pg_sendOption st = "now" ->
  responseError (fst (scheduleSequenceRoute z srv w (requestOf uid b)))
    <> Some noRecipientsMessage /\
  (mongoReachable srv = true ->
   (forall i, firstSchedule (atItem w i) = None) ->
   existsb isColdEmail (pg_sequence st) = true ->
   status (fst (scheduleSequenceRoute z srv w (requestOf uid b))) = 200 /\
   map entryKey
     (responseEntries (fst (scheduleSequenceRoute z srv w (requestOf uid b))))
   = map immediateKey (filter isColdEmail (pg_sequence st))).
Proof.
  intros Hsubmit Hopt.
  destruct (handleSubmit_now st b Hsubmit Hopt) as [Hok ->].
  assert (Hfilter : filter isEligible (pg_sequence st)
                    = filter isColdEmail (pg_sequence st)).
  { apply filter_ext_in. intros item Hin.
    destruct (isColdEmail item) eqn:Hc; [now apply Hok |].
    unfold isEligible. now rewrite Hc. }
  split.
  - unfold noRecipientsMessage, scheduleSequenceRoute.
    destruct (ensureAgenda srv) as [srv1 | n srv1]; [| cbn; discriminate].
    destruct (agenda srv1); cbn [negb]; [| cbn; discriminate].
    cbn [requestOf sendNow b_sendNow]. unfold immediateMode, connectToDatabase.
    destruct (mongoReachable srv1); [| cbn; discriminate].
    cbn [requestOf sequence userId b_sequence].
    pose proof (immediateLoop_missing_flag z uid w (pg_sequence st) Hok 0%nat
                  {| hasValidEmails := false; hasMissingRecipients := false;
                     sentEmails := []; im_server := srv1 |}) as Hflag.
    set (run := immediateLoop z uid w 0 (pg_sequence st) _) in *.
    destruct run as [st' | n st'];
      cbn [stateOf hasMissingRecipients] in Hflag; [| cbn; discriminate].
    destruct (hasValidEmails st'); cbn [negb fst]; [cbn; discriminate |].
    rewrite Hflag. cbn. unfold noEmailNodesMessage. discriminate.
  - intros Hmongo Hres Hsome.
    destruct (ensureAgenda_reachable srv Hmongo) as [srv1 Hens].
    destruct (ensureAgenda_ready _ _ Hens) as [Ha [_ [Hm _]]].
    unfold scheduleSequenceRoute. rewrite Hens, Ha. cbn [negb requestOf sendNow b_sendNow].
    unfold immediateMode, connectToDatabase. rewrite Hm, Hmongo.
    cbn [requestOf sequence userId b_sequence].
    destruct (immediateLoop_all_resolve z uid w (pg_sequence st) Hres 0%nat
                {| hasValidEmails := false; hasMissingRecipients := false;
                   sentEmails := []; im_server := srv1 |})
      as [st' [added [Hloop [Hsent [Hkeys Hvalid]]]]].
    rewrite Hloop. cbn [sentEmails hasValidEmails orb app] in Hsent, Hvalid.
    assert (Hany : existsb isEligible (pg_sequence st) = true).
    { apply existsb_exists in Hsome. destruct Hsome as [item [Hin Hc]].
      apply existsb_exists. exists item. split; [exact Hin | now apply Hok]. }
    rewrite Hvalid, Hany. cbn [negb fst status ok200 responseEntries json].
    split; [reflexivity |]. now rewrite Hsent, Hkeys, Hfilter.
Qed.

Lemma page_send_now_never_misses_recipients_witness :
  let b := {| b_sequence := [alice; waitNode; bob]; b_schedulingOptions := None;
              b_sendNow := true |} in
  (handleSubmit sendNowPage = Proceed b /\ pg_sendOption sendNowPage = "now") /\
  responseError (fst (scheduleSequenceRoute utc readyServer mondayDawnWorld
                        (requestOf "u1" b)))
    <> Some noRecipientsMessage /\
  (mongoReachable readyServer = true ->
   (forall i, firstSchedule (atItem mondayDawnWorld i) = None) ->
   existsb isColdEmail (pg_sequence sendNowPage) = true ->
   status (fst (scheduleSequenceRoute utc readyServer mondayDawnWorld
                  (requestOf "u1" b))) = 200 /\
   map entryKey
     (responseEntries (fst (scheduleSequenceRoute utc readyServer mondayDawnWorld
                              (requestOf "u1" b))))
   = map immediateKey (filter isColdEmail (pg_sequence sendNowPage))).
Proof.
  cbv zeta. split; [split; reflexivity |].
  apply (page_send_now_never_misses_recipients utc readyServer mondayDawnWorld "u1"
           sendNowPage); reflexivity.
Defined.

(** ** Sequences built from the canvas *)

Lemma buildSequenceFromFlow_items (nodes : list FlowNode) (items : list Item) :
  buildSequenceFromFlow nodes = Some items ->
  map item_id items = map n_id nodes /\
  map type items = map n_type nodes /\
  Forall (fun item => data item <> None) items.
Proof.
  revert items. induction nodes as [| node rest IH]; intros items H.
  - injection H as <-. repeat split. constructor.
  - cbn [buildSequenceFromFlow] in H.
    destruct (n_data node) as [d |]; [| discriminate].
    destruct (buildSequenceFromFlow rest) as [items' |]; [| discriminate].
    injection H as <-. destruct (IH items' eq_refl) as [Hid [Hty Hdata]].
    cbn [map item_id type]. rewrite Hid, Hty. repeat split.
    constructor; [cbn; discriminate | exact Hdata].
Qed.

Lemma deferredLoop_completes (z : Zone) (uid : string) (fromHour toHour : option Z)
    (sd : list (option Z)) (w : World) (items : list Item) :
  Forall (fun item => data item <> None) items ->
  (forall i, firstSchedule (atItem w i) = None) ->
  forall (i : nat) (st : DeferredState),
  exists st', deferredLoop z uid fromHour toHour sd w i items st = Normal st'.
Proof.
  intros Hdata Hres. induction Hdata as [| item rest Hitem _ IH]; intros i st.
  - now exists st.
  - cbn [deferredLoop].
    destruct (deferredItem_step z uid fromHour toHour sd (atItem w i) item st)
      as [ | | | | c fh th t ? ? ? ? ? ? Hnone
         | c fh th t d n ? ? ? ? ? ? ? Hrej | ];
      try apply IH.
    + now elim Hitem.
    + rewrite (Hres i) in Hrej. discriminate.
Qed.

(** X15.  A sequence built from the canvas cannot make the deferred mode
    throw.  When [saveAndScheduleSequence] hands a sequence to the schedule
    page, it has one item per node, in the order of the node array (the
    edges play no part), each with a [data] object; so with the database
    reachable and every scheduling call resolving, a deferred-mode request
    carrying that sequence is always answered 200, whatever its options. *)
Theorem canvas_sequences_are_scheduled_without_error (z : Zone) (srv : Server)
    (w : World) (uid : string) (authToken : option string)
    (nodes : list FlowNode) (items : list Item) (so : option SchedulingOptions) :
  saveAndScheduleSequence authToken nodes = Proceed items ->
  mongoReachable srv = true ->
  (forall i, firstSchedule (atItem w i) = None) ->
  map item_id items = map n_id nodes /\
  map type items = map n_type nodes /\
  Forall (fun item => data item <> None) items /\
  status (fst (scheduleSequenceRoute z srv w
                 {| sequence := items; schedulingOptions := so; sendNow := false;
                    userId := uid |})) = 200.
Proof.
  intros Hsave Hmongo Hres.
  assert (Hbuild : buildSequenceFromFlow nodes = Some items).
  { unfold saveAndScheduleSequence in Hsave.
    destruct nodes as [| node rest]; [discriminate |].
    destruct (negb (truthy authToken)); [discriminate |].
    destruct (buildSequenceFromFlow (node :: rest)); [| discriminate].
    now injection Hsave as <-. }
  destruct (buildSequenceFromFlow_items nodes items Hbuild) as [Hid [Hty Hdata]].
  repeat split; try assumption.
  destruct (ensureAgenda_reachable srv Hmongo) as [srv1 Hens].
  destruct (ensureAgenda_ready _ _ Hens) as [Ha _].
  unfold scheduleSequenceRoute. rewrite Hens, Ha. cbn [negb sendNow].
  unfold deferredMode, deferredRun. cbn [sequence].
  match goal with
  | |- context [deferredLoop ?a ?b ?c ?d ?e ?f ?g ?h ?k] =>
      destruct (deferredLoop_completes a b c d e f h Hdata Hres g k) as [st' ->]
  end.
  reflexivity.
Qed.

Lemma canvas_sequences_are_scheduled_without_error_witness :
  (exists items,
     saveAndScheduleSequence (Some "token") canvasNodes = Proceed items /\
     map item_id items = ["coldEmail_1"; "waitDelay_2"; "coldEmail_3"] /\
     status (fst (scheduleSequenceRoute utc readyServer mondayDawnWorld
                    {| sequence := items; schedulingOptions := None;
                       sendNow := false; userId := "u1" |})) = 200) /\
  mongoReachable readyServer = true /\
  (forall i, firstSchedule (atItem mondayDawnWorld i) = None).
Proof.
  split; [| split; [reflexivity | intros i; reflexivity]].
  eexists. split; [reflexivity |].
  pose proof (canvas_sequences_are_scheduled_without_error utc readyServer
                mondayDawnWorld "u1" (Some "token") canvasNodes _ None
                eq_refl eq_refl (fun i => eq_refl)) as [Hid [_ [_ Hstatus]]].
  split; [exact Hid | exact Hstatus].
Defined.

(** * Properties of the cached connection *)

Lemma cache_wellFormed_kept (a : Cache.Answers) (st : Cache.State) :
  Cache.wellFormed st -> Cache.wellFormed (snd (Cache.connectToDatabase a st)).
Proof.
  intros [H0 [Hc Hl]]. unfold Cache.connectToDatabase.
  destruct (Cache.cachedClient st) as [c |] eqn:Ec.
  - destruct (Cache.pingResolves a);
      [cbn [snd]; unfold Cache.wellFormed; rewrite Ec;
       exact (conj H0 (conj Hc Hl)) |].
    specialize (Hc c eq_refl).
    destruct (Cache.connectResolves a); unfold Cache.wellFormed; cbn;
      (split; [lia |]); split.
    + intros x Hx. injection Hx as <-. lia.
    + intros x [<- | Hx]; [lia | specialize (Hl x Hx); lia].
    + intros x Hx. discriminate.
    + intros x [<- | Hx]; [lia | specialize (Hl x Hx); lia].
  - destruct (Cache.connectResolves a); unfold Cache.wellFormed; cbn;
      (split; [lia |]); split.
    + intros x Hx. injection Hx as <-. lia.
    + intros x Hx. specialize (Hl x Hx). lia.
    + intros x Hx. discriminate.
    + intros x Hx. specialize (Hl x Hx). lia.
Qed.

(** X16.  A cached connection whose ping fails or times out is replaced.  The
    stale client is closed exactly once (whether or not closing succeeds),
    and a client that did not exist before is created.  If it connects, the
    call resolves with it and it becomes the cached client; if not, the call
    rejects and the cache is left empty, so the next call starts afresh. *)
Theorem stale_connection_is_replaced (a : Cache.Answers) (st : Cache.State)
    (c : Z) :
  Cache.wellFormed st ->
  Cache.cachedClient st = Some c ->
  Cache.pingResolves a = false ->
  let result := Cache.connectToDatabase a st in
  Cache.closeCalls (snd result) = c :: Cache.closeCalls st /\
  Cache.created (snd result) = Cache.created st + 1 /\
  (Cache.connectResolves a = true ->
   fst result = Cache.Resolved (Cache.created st) /\
   Cache.cachedClient (snd result) = Some (Cache.created st) /\
   Cache.created st <> c /\
   ~ In (Cache.created st) (Cache.closeCalls (snd result))) /\
  (Cache.connectResolves a = false ->
   fst result = Cache.Rejected /\ Cache.cachedClient (snd result) = None).
Proof.
  intros [H0 [Hc Hl]] Ec Hp result. subst result.
  unfold Cache.connectToDatabase. rewrite Ec, Hp.
  specialize (Hc c Ec).
  destruct (Cache.connectResolves a); cbn;
    (split; [reflexivity |]); (split; [reflexivity |]); split.
  - intros _. split; [reflexivity |]. split; [reflexivity |]. split; [lia |].
    intros [Heq | Hin]; [lia | specialize (Hl _ Hin); lia].
  - discriminate.
  - discriminate.
  - intros _. split; reflexivity.
Qed.

Lemma stale_connection_is_replaced_witness :
  let st := snd (Cache.connectToDatabase Cache.allGood Cache.empty) in
  let result := Cache.connectToDatabase Cache.pingTimesOut st in
  (Cache.wellFormed st /\ Cache.cachedClient st = Some 0 /\
   Cache.pingResolves Cache.pingTimesOut = false) /\
  Cache.closeCalls (snd result) = 0 :: Cache.closeCalls st /\
  Cache.created (snd result) = Cache.created st + 1 /\
  (Cache.connectResolves Cache.pingTimesOut = true ->
   fst result = Cache.Resolved (Cache.created st) /\
   Cache.cachedClient (snd result) = Some (Cache.created st) /\
   Cache.created st <> 0 /\
   ~ In (Cache.created st) (Cache.closeCalls (snd result))) /\
  (Cache.connectResolves Cache.pingTimesOut = false ->
   fst result = Cache.Rejected /\ Cache.cachedClient (snd result) = None).
Proof.
  assert (Hwf : Cache.wellFormed
                  (snd (Cache.connectToDatabase Cache.allGood Cache.empty))).
  { apply cache_wellFormed_kept. repeat split; cbn; try lia;
      try discriminate; contradiction. }
  cbv zeta. split; [split; [exact Hwf | split; reflexivity] |].
  apply (stale_connection_is_replaced Cache.pingTimesOut
           (snd (Cache.connectToDatabase Cache.allGood Cache.empty)) 0);
    [exact Hwf | reflexivity | reflexivity].
Defined.

Lemma cache_result_shape (a : Cache.Answers) (st : Cache.State) :
  (exists c, fst (Cache.connectToDatabase a st) = Cache.Resolved c /\
             Cache.cachedClient (snd (Cache.connectToDatabase a st)) = Some c) \/
  (fst (Cache.connectToDatabase a st) = Cache.Rejected /\
   Cache.cachedClient (snd (Cache.connectToDatabase a st)) = None).
Proof.
  unfold Cache.connectToDatabase.
  destruct (Cache.cachedClient st) as [c0 |] eqn:Ec.
  - destruct (Cache.pingResolves a).
    + left. exists c0. now split.
    + destruct (Cache.connectResolves a); [left; eexists | right]; now split.
  - destruct (Cache.connectResolves a); [left; eexists | right]; now split.
Qed.

Lemma cache_closed_not_cached (a : Cache.Answers) (st : Cache.State) :
  Cache.wellFormed st ->
  (forall c, In c (Cache.closeCalls st) -> Cache.cachedClient st <> Some c) ->
  forall c, In c (Cache.closeCalls (snd (Cache.connectToDatabase a st))) ->
            Cache.cachedClient (snd (Cache.connectToDatabase a st)) <> Some c.
Proof.
  intros [H0 [Hc Hl]] Hlive c. unfold Cache.connectToDatabase.
  destruct (Cache.cachedClient st) as [c0 |] eqn:Ec.
  - destruct (Cache.pingResolves a).
    + cbn [snd]. rewrite Ec. intros Hin. now apply Hlive.
    + specialize (Hc c0 eq_refl).
      destruct (Cache.connectResolves a); cbn; [| discriminate].
      intros [<- | Hin] Heq; injection Heq as Heq;
        [lia | specialize (Hl _ Hin); lia].
  - destruct (Cache.connectResolves a); cbn; [| discriminate].
    intros Hin Heq. injection Heq as Heq. specialize (Hl _ Hin). lia.
Qed.

(** X17.  The cache always holds the client that was handed out last.  After
    any call, from any well-formed state, the call resolved with a client
    exactly when that client is now cached, and rejected exactly when the
    cache is empty; no client that this function has closed is left in the
    cache (closes made elsewhere are not tracked here); and a following call
    whose ping succeeds returns that same client. *)
Theorem cache_holds_the_client_handed_out (a a' : Cache.Answers)
    (st : Cache.State) :
  Cache.wellFormed st ->
  (forall c, In c (Cache.closeCalls st) -> Cache.cachedClient st <> Some c) ->
  let result := Cache.connectToDatabase a st in
  (forall c, fst result = Cache.Resolved c <->
             Cache.cachedClient (snd result) = Some c) /\
  (fst result = Cache.Rejected <-> Cache.cachedClient (snd result) = None) /\
  (forall c, In c (Cache.closeCalls (snd result)) ->
             Cache.cachedClient (snd result) <> Some c) /\
  (Cache.pingResolves a' = true ->
   forall c, fst result = Cache.Resolved c ->
             fst (Cache.connectToDatabase a' (snd result)) = Cache.Resolved c).
Proof.
  intros Hwf Hlive result.
  pose proof (cache_closed_not_cached a st Hwf Hlive) as Hclosed.
  fold result in Hclosed.
  destruct (cache_result_shape a st) as [[c1 [Hfst Hsnd]] | [Hfst Hsnd]];
    fold result in Hfst, Hsnd.
  - split; [| split; [| split]].
    + intros c. rewrite Hfst, Hsnd. split; intros H; congruence.
    + rewrite Hfst, Hsnd. split; intros H; discriminate.
    + exact Hclosed.
    + intros Hp c Hc. rewrite Hfst in Hc. injection Hc as <-.
      unfold Cache.connectToDatabase at 1. now rewrite Hsnd, Hp.
  - split; [| split; [| split]].
    + intros c. rewrite Hfst, Hsnd. split; intros H; discriminate.
    + rewrite Hfst, Hsnd. split; reflexivity.
    + exact Hclosed.
    + intros _ c Hc. rewrite Hfst in Hc. discriminate.
Qed.

Lemma cache_holds_the_client_handed_out_witness :
  let st := snd (Cache.connectToDatabase Cache.allGood Cache.empty) in
  let result := Cache.connectToDatabase Cache.pingTimesOut st in
  (Cache.wellFormed st /\
   forall c, In c (Cache.closeCalls st) -> Cache.cachedClient st <> Some c) /\
  (forall c, fst result = Cache.Resolved c <->
             Cache.cachedClient (snd result) = Some c) /\
  (fst result = Cache.Rejected <-> Cache.cachedClient (snd result) = None) /\
  (forall c, In c (Cache.closeCalls (snd result)) ->
             Cache.cachedClient (snd result) <> Some c) /\
  (Cache.pingResolves Cache.allGood = true ->
   forall c, fst result = Cache.Resolved c ->
             fst (Cache.connectToDatabase Cache.allGood (snd result))
             = Cache.Resolved c).
Proof.
  assert (Hwf : Cache.wellFormed
                  (snd (Cache.connectToDatabase Cache.allGood Cache.empty))).
  { apply cache_wellFormed_kept. repeat split; cbn; try lia;
      try discriminate; contradiction. }
  cbv zeta. split; [split; [exact Hwf | intros c []] |].
  apply (cache_holds_the_client_handed_out Cache.pingTimesOut Cache.allGood
           (snd (Cache.connectToDatabase Cache.allGood Cache.empty)));
    [exact Hwf | intros c []].
Defined.

(** * Properties of accounts and tokens *)

Lemma findByEmail_none (users : list User) (email : string) :
  findByEmail users email = None -> ~ In email (map u_email users).
Proof.
  intros Hnone Hin. apply in_map_iff in Hin. destruct Hin as [u [<- Hu]].
  pose proof (find_none _ _ Hnone u Hu) as H. cbn in H.
  now rewrite String.eqb_refl in H.
Qed.

Lemma findByEmail_appended (users : list User) (u : User) :
  findByEmail users (u_email u) = None ->
  findByEmail (users ++ [u]) (u_email u) = Some u.
Proof.
  unfold findByEmail. induction users as [| v rest IH]; cbn [find app]; intros H.
  - now rewrite String.eqb_refl.
  - destruct (String.eqb (u_email v) (u_email u)); [discriminate | now apply IH].
Qed.

Lemma NoDup_snoc {A : Type} (l : list A) (a : A) :
  NoDup l -> ~ In a l -> NoDup (l ++ [a]).
Proof.
  intros Hl Ha. induction Hl as [| x l Hx Hl IH]; cbn.
  - constructor; [intros [] | constructor].
  - constructor.
    + intros Hin. apply in_app_or in Hin. destruct Hin as [Hin | [<- | []]].
      * contradiction.
      * apply Ha. now left.
    + apply IH. intros Hin. apply Ha. now right.
Qed.

Lemma findByEmail_absent (users : list User) (email : string) :
  ~ In email (map u_email users) -> findByEmail users email = None.
Proof.
  unfold findByEmail. induction users as [| v rest IH]; intros H; [reflexivity |].
  cbn [find]. destruct (String.eqb_spec (u_email v) email) as [E | _].
  - elim H. left. exact E.
  - apply IH. intros Hin. apply H. now right.
Qed.

Lemma NoDup_snoc_inv {A : Type} (l : list A) (a : A) :
  NoDup (l ++ [a]) -> ~ In a l.
Proof.
  intros H Hin. apply NoDup_remove_2 in H. apply H.
  rewrite app_nil_r. exact Hin.
Qed.

(** X18.  When registration keeps e-mail addresses unique.  [registerUser]
    reads the collection and writes it in two calls with [await]s in
    between, and nothing in the store refuses a second user with the same
    address; so the collection it inserts into ([current]) need not be the
    one it checked ([seen]).  A 201 answer means the address was absent from
    [seen] and exactly one user was appended to [current], with the address
    of the request and, as its password, what [bcrypt.hash] returned; any
    other answer leaves the collection as it was.  When no two users of
    [current] share an address, the same holds afterwards exactly when the
    answer is not 201 or the address is still absent from [current]; in
    particular it holds whenever nothing was written between the two calls.
    (Two overlapping registrations of one address both get 201: see
    [overlapping_registrations_store_one_address_twice].) *)
Theorem registration_unique_iff_address_still_absent
    (bcryptHash : string -> string) (site : Site) (now insertedId : Z)
    (seen current : list User) (body : Credentials) :
  NoDup (map u_email current) ->
  let result := registerUserAmid bcryptHash site now insertedId seen current body in
  (a_status (fst result) = 201 ->
   exists email password,
     c_email body = Some email /\ c_password body = Some password /\
     findByEmail seen email = None /\
     snd result = current ++ [{| u_id := insertedId; u_email := email;
                                 u_password := bcryptHash password;
                                 u_name := c_name body; u_createdAt := now |}] /\
     (NoDup (map u_email (snd result)) <-> findByEmail current email = None)) /\
  (a_status (fst result) <> 201 ->
   snd result = current /\ NoDup (map u_email (snd result))) /\
  (seen = current ->
   result = registerUser bcryptHash site now insertedId current body /\
   NoDup (map u_email (snd result))).
Proof.
  intros Hnodup result.
  assert (Hcheck : (exists r, registerCheck site seen body = Answered r /\
                              a_status r <> 201) \/
                   (exists email password,
                      registerCheck site seen body = Unknown email password /\
                      c_email body = Some email /\ c_password body = Some password /\
                      findByEmail seen email = None)).
  { unfold registerCheck.
    destruct (c_email body) as [email |]; [| left; eexists; split; [reflexivity | cbn; lia]].
    destruct (c_password body) as [password |];
      [| left; eexists; split; [reflexivity | cbn; lia]].
    destruct (negb (truthy (Some email)) || negb (truthy (Some password)))%bool;
      [left; eexists; split; [reflexivity | cbn; lia] |].
    destruct (negb (mongoUri site));
      [left; eexists; split; [reflexivity | cbn; lia] |].
    destruct (negb (connects site));
      [left; eexists; split; [reflexivity | cbn; lia] |].
    destruct (findByEmail seen email) as [u |] eqn:Hfind;
      [left; eexists; split; [reflexivity | cbn; lia] |].
    right. now exists email, password. }
  subst result. unfold registerUser, registerUserAmid.
  destruct Hcheck as [[r [Hr Hcode]] | [email [password [Hr [Ee [Ep Hseen]]]]]];
    rewrite Hr.
  - cbn [fst snd]. split; [intros H; contradiction |].
    split; [intros _; now split |].
    intros <-. rewrite Hr. now split.
  - unfold registerInsert. cbn [fst snd a_status].
    set (u := {| u_id := insertedId; u_email := email;
                 u_password := bcryptHash password;
                 u_name := c_name body; u_createdAt := now |}).
    assert (Hiff : NoDup (map u_email (current ++ [u])) <->
                   findByEmail current email = None).
    { rewrite map_app. cbn [map]. split.
      - intros H. apply findByEmail_absent. now apply NoDup_snoc_inv in H.
      - intros H. apply NoDup_snoc; [exact Hnodup |].
        now apply findByEmail_none. }
    split; [| split].
    + intros _. exists email, password. now repeat split; try apply Hiff.
    + intros H. now elim H.
    + intros <-. rewrite Hr. split; [reflexivity |]. now apply Hiff.
Qed.

Lemma registration_unique_iff_address_still_absent_witness :
  let users := [{| u_id := 1; u_email := "dave@example"; u_password := "$2b$pw";
                   u_name := None; u_createdAt := 0 |}] in
  NoDup (map u_email users) /\
  let result := registerUserAmid toyHash liveSite monday2030 2 users users carol in
  a_status (fst result) = 201 /\
  (exists email password,
     c_email carol = Some email /\ c_password carol = Some password /\
     findByEmail users email = None /\
     snd result = users ++ [{| u_id := 2; u_email := email;
                               u_password := toyHash password;
                               u_name := c_name carol;
                               u_createdAt := monday2030 |}] /\
     (NoDup (map u_email (snd result)) <-> findByEmail users email = None)) /\
  result = registerUser toyHash liveSite monday2030 2 users carol /\
  NoDup (map u_email (snd result)).
Proof.
  assert (Hnodup : NoDup (map u_email
            [{| u_id := 1; u_email := "dave@example"; u_password := "$2b$pw";
                u_name := None; u_createdAt := 0 |}])).
  { cbn. constructor; [intros [] | constructor]. }
  cbv zeta. split; [exact Hnodup |].
  set (users := [{| u_id := 1; u_email := "dave@example";
                    u_password := "$2b$pw"; u_name := None;
                    u_createdAt := 0 |}]) in *.
  destruct (registration_unique_iff_address_still_absent toyHash liveSite
              monday2030 2 users users carol Hnodup) as [Hnew [_ Halone]].
  split; [reflexivity |]. split; [exact (Hnew eq_refl) |].
  exact (Halone eq_refl).
Defined.

(** Two registrations of one address whose checks both ran before either
    insert: both are answered 201 and the address is stored twice. *)
Lemma overlapping_registrations_store_one_address_twice :
  let first := registerUserAmid toyHash liveSite monday2030 1 [] [] carol in
  let second :=
    registerUserAmid toyHash liveSite (monday2030 + 1) 2 [] (snd first) carol in
  a_status (fst first) = 201 /\ a_status (fst second) = 201 /\
  map u_email (snd second) = ["carol@example"; "carol@example"] /\
  ~ NoDup (map u_email (snd second)).
Proof.
  cbv zeta. split; [reflexivity |]. split; [reflexivity |].
  split; [reflexivity |].
  intros H. apply NoDup_cons_iff in H. apply (proj1 H). now left.
Qed.

Lemma splitOn_scheme (w t : string) :
  splitOn " " w = [w] ->
  splitOn " " (w ++ String " " t) = w :: splitOn " " t.
Proof.
  revert t. induction w as [| c w IH]; intros t Hw; [reflexivity |].
  cbn [splitOn append] in *.
  destruct (Ascii.eqb c " ") eqn:Hc; [discriminate |].
  destruct (splitOn " " w) as [| h tl] eqn:Hs.
  - destruct w; cbn in Hs; [discriminate |].
    destruct (Ascii.eqb a " "); [discriminate |].
    destruct (splitOn " " w); discriminate.
  - injection Hw as Hh Htl. subst h tl. now rewrite (IH t eq_refl).
Qed.

Lemma splitOn_word_head (t : string) :
  splitOn " " t = [t] -> nth_error (splitOn " " t) 0 = Some t.
Proof. now intros ->. Qed.

(** X19.  A registered user can log in, and the token of that login is
    accepted by the middleware as that user.  Provided the hash library
    accepts the password it hashed, and the token signed for the new user
    verifies and is a non-empty word without blanks: after a 201
    registration, logging in with the same e-mail and password answers 200;
    and the header [apiRequest] builds from the stored token passes
    [authenticateJWT] with the identifier and e-mail of the new user. *)
Theorem registered_user_logs_in_and_is_recognised
    (bcryptHash : string -> string) (bcryptCompare : string -> string -> bool)
    (jwtSign : TokenPayload -> string) (jwtVerify : string -> option TokenPayload)
    (oidString : Z -> string)
    (site : Site) (now insertedId : Z) (users : list User) (body : Credentials)
    (email password : string) :
  c_email body = Some email ->
  c_password body = Some password ->
  bcryptCompare password (bcryptHash password) = true ->
  (let token := jwtSign {| tp_id := oidString insertedId; tp_email := email |} in
   jwtVerify token = Some {| tp_id := oidString insertedId; tp_email := email |} /\
   token <> "" /\ splitOn " " token = [token]) ->
  a_status (fst (registerUser bcryptHash site now insertedId users body)) = 201 ->
  let users' := snd (registerUser bcryptHash site now insertedId users body) in
  let login := loginUser bcryptCompare jwtSign oidString site users' body in
  a_status login = 200 /\
  authenticateJWT jwtVerify (authorizationHeader (storedToken login))
  = Next {| tp_id := oidString insertedId; tp_email := email |}.
Proof.
  intros Ee Ep Hbcrypt Htoken Hreg users' login. subst login users'.
  unfold registerUser, registerUserAmid, registerCheck, registerInsert in *.
  unfold loginUser. rewrite Ee, Ep in *.
  destruct (negb (truthy (Some email)) || negb (truthy (Some password)))%bool;
    [cbn in Hreg; lia |].
  destruct (negb (mongoUri site)); [cbn in Hreg; lia |].
  destruct (negb (connects site)); [cbn in Hreg; lia |].
  destruct (findByEmail users email) as [u |] eqn:Hfind; [cbn in Hreg; lia |].
  cbn [snd].
  pose proof (findByEmail_appended users
                {| u_id := insertedId; u_email := email;
                   u_password := bcryptHash password; u_name := c_name body;
                   u_createdAt := now |} Hfind) as Hnew.
  cbn [u_email] in Hnew. rewrite Hnew.
  cbn [u_password]. rewrite Hbcrypt. cbn [negb a_status].
  split; [reflexivity |].
  cbn [storedToken a_json]. unfold generateToken. cbn [u_id u_email].
  cbv zeta in Htoken. destruct Htoken as [Hjwt [Hne Hw]].
  set (token := jwtSign {| tp_id := oidString insertedId; tp_email := email |}) in *.
  unfold authorizationHeader, authenticateJWT.
  assert (Ht : truthy (Some token) = true).
  { cbn. destruct (String.eqb_spec token ""); [contradiction | reflexivity]. }
  rewrite Ht.
  change ("Bearer " ++ token)%string with ("Bearer" ++ String " " token)%string.
  rewrite splitOn_scheme by reflexivity. cbn [truthy String.eqb negb nth_error].
  rewrite Hw. cbn [nth_error]. now rewrite Hjwt.
Qed.

Lemma registered_user_logs_in_and_is_recognised_witness :
  let users' := snd (registerUser toyHash liveSite monday2030 7 [] carol) in
  let login := loginUser toyCompare toySign toyOidString liveSite users' carol in
  (toyCompare "s3cret" (toyHash "s3cret") = true /\
   a_status (fst (registerUser toyHash liveSite monday2030 7 [] carol)) = 201 /\
   storedToken login = Some "7.carol@example") /\
  a_status login = 200 /\
  authenticateJWT toyVerify (authorizationHeader (storedToken login))
  = Next {| tp_id := toyOidString 7; tp_email := "carol@example" |}.
Proof.
  cbv zeta. split; [repeat split |].
  apply (registered_user_logs_in_and_is_recognised toyHash toyCompare toySign
           toyVerify toyOidString liveSite monday2030 7 [] carol
           "carol@example" "s3cret"); try reflexivity.
  cbv zeta. split; [reflexivity |]. split; [discriminate | reflexivity].
Defined.

(** X20.  The middleware looks at the second word of the [Authorization]
    header and at nothing else.  Without a header, or with an empty one, the
    request is refused with 401.  With a header made of any first word, a
    blank and a one-word token, the request passes exactly when the token
    verifies, as the user it verifies to, and is refused with 403 otherwise:
    the scheme word is not checked.  No request passes without a second word
    that verifies. *)
Theorem gate_checks_only_the_second_word
    (jwtVerify : string -> option TokenPayload) :
  authenticateJWT jwtVerify None = Denied 401 "Authentication token is missing" /\
  authenticateJWT jwtVerify (Some "") = Denied 401 "Authentication token is missing" /\
  (forall scheme token,
     splitOn " " scheme = [scheme] -> splitOn " " token = [token] ->
     authenticateJWT jwtVerify (Some (scheme ++ String " " token)%string) =
     match jwtVerify token with
     | Some user => Next user
     | None => Denied 403 "Token is invalid or expired"
     end) /\
  (forall header user,
     authenticateJWT jwtVerify header = Next user ->
     exists h token,
       header = Some h /\ nth_error (splitOn " " h) 1 = Some token /\
       jwtVerify token = Some user).
Proof.
  split; [reflexivity |]. split; [reflexivity |]. split.
  - intros scheme token Hs Ht. unfold authenticateJWT.
    assert (Htruthy : truthy (Some (scheme ++ String " " token)%string) = true)
      by (destruct scheme; reflexivity).
    rewrite Htruthy, (splitOn_scheme scheme token Hs), Ht. reflexivity.
  - intros header user H. unfold authenticateJWT in H.
    destruct header as [h |]; [| discriminate].
    destruct (truthy (Some h)); [| discriminate].
    destruct (nth_error (splitOn " " h) 1) as [token |] eqn:Hn; [| discriminate].
    destruct (jwtVerify token) as [u |] eqn:Hv; [| discriminate].
    injection H as <-. now exists h, token.
Qed.

(** * Properties of the saved flows *)

Lemma othersFlows_app (uid : string) (l l' : list Flow) :
  othersFlows uid (l ++ l') = othersFlows uid l ++ othersFlows uid l'.
Proof. unfold othersFlows. apply filter_app. Qed.

Lemma findById_first (flows : list Flow) (oid : Z) (flow : Flow) :
  findById flows oid = Some flow -> In flow flows /\ f_id flow = oid.
Proof.
  intros H. apply find_some in H. destruct H as [Hin Heq].
  split; [exact Hin | now apply Z.eqb_eq].
Qed.

Lemma othersFlows_updateOne (uid : string) (oid : Z) (flow new : Flow)
    (flows : list Flow) :
  findById flows oid = Some flow ->
  f_userId flow = uid -> f_userId new = uid ->
  othersFlows uid (updateOne oid (fun _ => new) flows) = othersFlows uid flows.
Proof.
  unfold findById, othersFlows. intros Hfind Hold Hnew.
  induction flows as [| f rest IH]; [discriminate |].
  cbn [find updateOne] in *. destruct (f_id f =? oid).
  - injection Hfind as ->. cbn [filter]. now rewrite Hold, Hnew, String.eqb_refl.
  - cbn [filter]. now rewrite (IH Hfind).
Qed.

Lemma othersFlows_deleteOne (uid : string) (oid : Z) (flow : Flow)
    (flows : list Flow) :
  findById flows oid = Some flow -> f_userId flow = uid ->
  othersFlows uid (deleteOne oid flows) = othersFlows uid flows.
Proof.
  unfold findById, othersFlows. intros Hfind Hold.
  induction flows as [| f rest IH]; [discriminate |].
  cbn [find deleteOne] in *. destruct (f_id f =? oid).
  - injection Hfind as ->. cbn [filter]. now rewrite Hold, String.eqb_refl.
  - cbn [filter]. now rewrite (IH Hfind).
Qed.

Lemma In_insertByUpdate (f x : Flow) (l : list Flow) :
  In x (insertByUpdate f l) -> x = f \/ In x l.
Proof.
  induction l as [| g rest IH]; cbn [insertByUpdate].
  - intros [<- | []]. now left.
  - destruct (f_updatedAt g <? f_updatedAt f).
    + intros [<- | H]; [now left | now right].
    + intros [<- | H]; [right; now left |].
      destruct (IH H) as [-> | Hin]; [now left | right; now right].
Qed.

Lemma In_sortByUpdate (x : Flow) (l : list Flow) :
  In x (sortByUpdate l) -> In x l.
Proof.
  unfold sortByUpdate. induction l as [| f rest IH]; cbn [fold_right];
    [intros [] |].
  intros H. apply In_insertByUpdate in H.
  destruct H as [-> | H]; [now left | right; now apply IH].
Qed.

(** X21.  Flows are private to their owner.  Whatever a user's requests to
    create, update or delete a flow are answered, the flows of all other
    users stay in the collection exactly as they were; fetching one flow
    returns its content only if the requesting user owns it, and the list of
    flows shows only flows the requesting user owns. *)
Theorem flows_are_private_to_their_owner (newObjectId : string -> option Z)
    (dbUp : bool) (now insertedId : Z) (uid id : string) (body : FlowBody)
    (flows : list Flow) :
  othersFlows uid (snd (createFlow dbUp now insertedId uid body flows))
    = othersFlows uid flows /\
  othersFlows uid (snd (updateFlow newObjectId dbUp now uid id body flows))
    = othersFlows uid flows /\
  othersFlows uid (snd (deleteFlow newObjectId dbUp uid id flows))
    = othersFlows uid flows /\
  (forall i name nodes edges created updated,
     fl_json (getFlow newObjectId dbUp uid id flows)
       = FlowFull i name nodes edges created updated ->
     exists f, In f flows /\ f_userId f = uid /\
               (f_id f, f_name f, f_nodes f, f_edges f) = (i, name, nodes, edges)) /\
  (forall l s,
     fl_json (getFlows dbUp uid flows) = FlowList l -> In s l ->
     exists f, In f flows /\ f_userId f = uid /\ s = summaryOf f).
Proof.
  split; [| split; [| split; [| split]]].
  - unfold createFlow.
    destruct (fb_name body) as [name |]; [| reflexivity].
    destruct (negb (truthy (Some name))); [reflexivity |].
    destruct (negb dbUp); [reflexivity |].
    cbn [snd]. rewrite othersFlows_app. unfold othersFlows at 2.
    cbn [filter f_userId]. rewrite String.eqb_refl. cbn [negb].
    apply app_nil_r.
  - unfold updateFlow.
    destruct (negb dbUp); [reflexivity |].
    destruct (newObjectId id) as [oid |]; [| reflexivity].
    destruct (findById flows oid) as [flow |] eqn:Hfind; [| reflexivity].
    destruct (String.eqb_spec (f_userId flow) uid) as [Hown | _];
      cbn [negb snd]; [| reflexivity].
    now apply (othersFlows_updateOne uid oid flow).
  - unfold deleteFlow.
    destruct (negb dbUp); [reflexivity |].
    destruct (newObjectId id) as [oid |]; [| reflexivity].
    destruct (findById flows oid) as [flow |] eqn:Hfind; [| reflexivity].
    destruct (String.eqb_spec (f_userId flow) uid) as [Hown | _];
      cbn [negb snd]; [| reflexivity].
    now apply (othersFlows_deleteOne uid oid flow).
  - intros i name nodes edges created updated. unfold getFlow.
    destruct (negb dbUp); [discriminate |].
    destruct (newObjectId id) as [oid |]; [| discriminate].
    destruct (findById flows oid) as [flow |] eqn:Hfind; [| discriminate].
    destruct (String.eqb_spec (f_userId flow) uid) as [Hown | _];
      cbn [negb]; [| discriminate].
    cbn [fl_json]. intros H. injection H as <- <- <- <- _ _.
    exists flow. split; [now apply (findById_first flows oid) |]. now split.
  - intros l s. unfold getFlows. destruct (negb dbUp); [discriminate |].
    cbn [fl_json]. intros H Hin. injection H as <-.
    apply in_map_iff in Hin. destruct Hin as [f [<- Hf]].
    apply In_sortByUpdate in Hf. apply filter_In in Hf. destruct Hf as [Hf Hown].
    exists f. split; [exact Hf |]. split; [now apply String.eqb_eq | reflexivity].
Qed.

Lemma findById_appended (flows : list Flow) (new : Flow) :
  (forall f, In f flows -> f_id f <> f_id new) ->
  findById (flows ++ [new]) (f_id new) = Some new.
Proof.
  unfold findById. induction flows as [| f rest IH]; intros Hfresh; cbn [app find].
  - now rewrite Z.eqb_refl.
  - destruct (Z.eqb_spec (f_id f) (f_id new)) as [Heq | _].
    + elim (Hfresh f (or_introl eq_refl) Heq).
    + apply IH. intros g Hg. apply Hfresh. now right.
Qed.

(** X22.  A saved flow can be fetched back by its owner.  When the store
    gives the new flow an identifier no other flow has, and the identifier
    text the client sends back denotes it, a 201 answer to
    [POST /api/flows] is followed by a 200 answer to [GET /api/flows/:id]
    carrying the name, nodes and edges that were posted. *)
Theorem saved_flow_can_be_fetched_back (newObjectId : string -> option Z)
    (dbUp : bool) (now insertedId : Z) (uid idText : string) (body : FlowBody)
    (flows : list Flow) :
  (forall f, In f flows -> f_id f <> insertedId) ->
  newObjectId idText = Some insertedId ->
  fl_status (fst (createFlow dbUp now insertedId uid body flows)) = 201 ->
  exists name,
    fb_name body = Some name /\
    fl_json (fst (createFlow dbUp now insertedId uid body flows))
      = FlowSaved "Flow saved successfully" insertedId name /\
    getFlow newObjectId dbUp uid idText
      (snd (createFlow dbUp now insertedId uid body flows))
    = {| fl_status := 200;
         fl_json := FlowFull insertedId name (fb_nodes body) (fb_edges body)
                      now now |}.
Proof.
  intros Hfresh Hid Hcreated. unfold createFlow in *.
  destruct (fb_name body) as [name |]; [| cbn in Hcreated; lia].
  destruct (negb (truthy (Some name))); [cbn in Hcreated; lia |].
  destruct dbUp; cbn [negb] in *; [| cbn in Hcreated; lia].
  exists name. split; [reflexivity |]. split; [reflexivity |].
  cbn [snd]. unfold getFlow. cbn [negb]. rewrite Hid.
  pose proof (findById_appended flows
                {| f_id := insertedId; f_name := name; f_nodes := fb_nodes body;
                   f_edges := fb_edges body; f_userId := uid;
                   f_createdAt := now; f_updatedAt := now |} Hfresh) as Hfind.
  cbn [f_id] in Hfind. rewrite Hfind.
  cbn [f_userId f_id f_name f_nodes f_edges f_createdAt f_updatedAt].
  now rewrite String.eqb_refl.
Qed.

Lemma saved_flow_can_be_fetched_back_witness :
  let flows := [welcomeFlow; followUpFlow] in
  let body := {| fb_name := Some "Nurture"; fb_nodes := Some canvasNodes;
                 fb_edges := Some [] |} in
  ((forall f, In f flows -> f_id f <> 13) /\
   toyObjectId "13" = Some 13 /\
   fl_status (fst (createFlow true 300 13 "u1" body flows)) = 201) /\
  exists name,
    fb_name body = Some name /\
    fl_json (fst (createFlow true 300 13 "u1" body flows))
      = FlowSaved "Flow saved successfully" 13 name /\
    getFlow toyObjectId true "u1" "13" (snd (createFlow true 300 13 "u1" body flows))
    = {| fl_status := 200;
         fl_json := FlowFull 13 name (fb_nodes body) (fb_edges body) 300 300 |}.
Proof.
  assert (Hfresh : forall f, In f [welcomeFlow; followUpFlow] -> f_id f <> 13).
  { intros f [<- | [<- | []]]; cbn; discriminate. }
  cbv zeta. split; [split; [exact Hfresh | split; reflexivity] |].
  apply (saved_flow_can_be_fetched_back toyObjectId true 300 13 "u1" "13");
    [exact Hfresh | reflexivity | reflexivity].
Defined.

Lemma filter_all {A : Type} (p : A -> bool) (l : list A) :
  (forall x, In x l -> p x = true) -> filter p l = l.
Proof.
  induction l as [| x rest IH]; intros H; [reflexivity |].
  cbn [filter]. rewrite (H x (or_introl eq_refl)). f_equal.
  apply IH. intros y Hy. apply H. now right.
Qed.

Lemma deleteOne_unique (oid : Z) (flows : list Flow) :
  NoDup (map f_id flows) ->
  deleteOne oid flows = filter (fun f => negb (f_id f =? oid)) flows.
Proof.
  induction flows as [| f rest IH]; intros Hnodup; [reflexivity |].
  cbn [map] in Hnodup. inversion Hnodup as [| x l Hnotin Hrest]; subst.
  cbn [deleteOne filter]. destruct (Z.eqb_spec (f_id f) oid) as [Heq | Hne].
  - cbn [negb]. symmetry. apply filter_all.
    intros g Hg. destruct (Z.eqb_spec (f_id g) oid) as [Hg' | _]; [| reflexivity].
    elim Hnotin. apply in_map_iff. exists g. split; [lia | exact Hg].
  - cbn [negb]. now rewrite IH.
Qed.

Lemma deleteOne_length (oid : Z) (flow : Flow) (flows : list Flow) :
  findById flows oid = Some flow ->
  List.length flows = S (List.length (deleteOne oid flows)).
Proof.
  unfold findById. induction flows as [| f rest IH]; [discriminate |].
  cbn [find deleteOne List.length]. destruct (f_id f =? oid); [reflexivity |].
  intros H. cbn [List.length]. f_equal. now apply IH.
Qed.

Lemma findById_filtered_out (oid : Z) (flows : list Flow) :
  findById (filter (fun f => negb (f_id f =? oid)) flows) oid = None.
Proof.
  unfold findById. induction flows as [| f rest IH]; [reflexivity |].
  cbn [filter]. destruct (f_id f =? oid) eqn:E; cbn [negb]; [exact IH |].
  cbn [find]. now rewrite E.
Qed.

(** X23.  A deleted flow is gone, and only it.  When the flows have distinct
    identifiers, a 200 answer to [DELETE /api/flows/:id] leaves exactly the
    flows with another identifier, in their order, and a later
    [GET /api/flows/:id] for the same identifier answers 404. *)
Theorem deleted_flow_is_gone (newObjectId : string -> option Z) (dbUp : bool)
    (uid id : string) (flows : list Flow) :
  NoDup (map f_id flows) ->
  fl_status (fst (deleteFlow newObjectId dbUp uid id flows)) = 200 ->
  exists oid,
    newObjectId id = Some oid /\
    snd (deleteFlow newObjectId dbUp uid id flows)
      = filter (fun f => negb (f_id f =? oid)) flows /\
    List.length flows
      = S (List.length (snd (deleteFlow newObjectId dbUp uid id flows))) /\
    getFlow newObjectId dbUp uid id (snd (deleteFlow newObjectId dbUp uid id flows))
      = flowError 404 "Flow not found".
Proof.
  intros Hnodup Hok. unfold deleteFlow in *.
  destruct dbUp; cbn [negb] in *; [| cbn in Hok; lia].
  destruct (newObjectId id) as [oid |] eqn:Hid; [| cbn in Hok; lia].
  destruct (findById flows oid) as [flow |] eqn:Hfind; [| cbn in Hok; lia].
  destruct (negb (String.eqb (f_userId flow) uid)); [cbn in Hok; lia |].
  exists oid. cbn [snd]. split; [reflexivity |].
  split; [now apply deleteOne_unique |].
  split; [now apply (deleteOne_length oid flow) |].
  rewrite (deleteOne_unique oid flows Hnodup).
  unfold getFlow. cbn [negb]. now rewrite Hid, findById_filtered_out.
Qed.

Lemma deleted_flow_is_gone_witness :
  let flows := [welcomeFlow; followUpFlow] in
  (NoDup (map f_id flows) /\
   fl_status (fst (deleteFlow toyObjectId true "u1" "11" flows)) = 200) /\
  exists oid,
    toyObjectId "11" = Some oid /\
    snd (deleteFlow toyObjectId true "u1" "11" flows)
      = filter (fun f => negb (f_id f =? oid)) flows /\
    List.length flows
      = S (List.length (snd (deleteFlow toyObjectId true "u1" "11" flows))) /\
    getFlow toyObjectId true "u1" "11"
      (snd (deleteFlow toyObjectId true "u1" "11" flows))
      = flowError 404 "Flow not found".
Proof.
  assert (Hnodup : NoDup (map f_id [welcomeFlow; followUpFlow])).
  { cbn. constructor; [intros [H | []]; discriminate |].
    constructor; [intros [] | constructor]. }
  cbv zeta. split; [split; [exact Hnodup | reflexivity] |].
  apply (deleted_flow_is_gone toyObjectId true "u1" "11");
    [exact Hnodup | reflexivity].
Defined.

Lemma findById_updateOne_same (oid : Z) (flow new : Flow) (flows : list Flow) :
  findById flows oid = Some flow -> f_id new = oid ->
  findById (updateOne oid (fun _ => new) flows) oid = Some new.
Proof.
  unfold findById. intros Hfind Hnew.
  induction flows as [| f rest IH]; [discriminate |].
  cbn [find updateOne] in *. destruct (f_id f =? oid) eqn:E.
  - cbn [find]. now rewrite Hnew, Z.eqb_refl.
  - cbn [find]. rewrite E. now apply IH.
Qed.

Lemma findById_updateOne_other (oid oid' : Z) (new : Flow) (flows : list Flow) :
  f_id new = oid -> oid' <> oid ->
  findById (updateOne oid (fun _ => new) flows) oid' = findById flows oid'.
Proof.
  unfold findById. intros Hnew Hne.
  induction flows as [| f rest IH]; [reflexivity |].
  cbn [find updateOne]. destruct (Z.eqb_spec (f_id f) oid) as [Heq | Hneq].
  - cbn [find]. rewrite Hnew.
    destruct (Z.eqb_spec oid oid') as [H | _]; [now elim Hne |].
    destruct (Z.eqb_spec (f_id f) oid') as [H | _]; [lia | reflexivity].
  - cbn [find]. destruct (f_id f =? oid'); [reflexivity | exact IH].
Qed.

Lemma map_f_id_updateOne (oid : Z) (new : Flow) (flows : list Flow) :
  f_id new = oid ->
  map f_id (updateOne oid (fun _ => new) flows) = map f_id flows.
Proof.
  intros Hnew. induction flows as [| f rest IH]; [reflexivity |].
  cbn [updateOne map]. destruct (Z.eqb_spec (f_id f) oid) as [Heq | _].
  - cbn [map]. now rewrite Hnew, Heq.
  - cbn [map]. now rewrite IH.
Qed.

(** X24.  An update changes one flow and keeps what was not sent.  After a
    200 answer to [PUT /api/flows/:id], the flow with that identifier has
    the posted name, nodes and edges, each replaced by the stored value when
    it was missing from the body (or, for the name, empty); its identifier,
    owner and creation time are unchanged and its update time is the time of
    the request.  Every other identifier resolves to the same flow as
    before, and the identifiers stay in the same order. *)
Theorem update_changes_one_flow (newObjectId : string -> option Z) (dbUp : bool)
    (now : Z) (uid id : string) (body : FlowBody) (flows : list Flow) :
  fl_status (fst (updateFlow newObjectId dbUp now uid id body flows)) = 200 ->
  let flows' := snd (updateFlow newObjectId dbUp now uid id body flows) in
  exists oid old new,
    newObjectId id = Some oid /\
    findById flows oid = Some old /\ f_userId old = uid /\
    findById flows' oid = Some new /\
    (f_id new, f_userId new, f_createdAt new, f_updatedAt new)
      = (oid, uid, f_createdAt old, now) /\
    f_name new = (if truthy (fb_name body)
                  then match fb_name body with Some n => n | None => f_name old end
                  else f_name old) /\
    f_nodes new = (match fb_nodes body with Some n => Some n | None => f_nodes old end) /\
    f_edges new = (match fb_edges body with Some e => Some e | None => f_edges old end) /\
    (forall oid', oid' <> oid -> findById flows' oid' = findById flows oid') /\
    map f_id flows' = map f_id flows.
Proof.
  intros Hok flows'. subst flows'. unfold updateFlow in *.
  destruct dbUp; cbn [negb] in *; [| cbn in Hok; lia].
  destruct (newObjectId id) as [oid |] eqn:Hid; [| cbn in Hok; lia].
  destruct (findById flows oid) as [old |] eqn:Hfind; [| cbn in Hok; lia].
  destruct (String.eqb_spec (f_userId old) uid) as [Hown | _];
    cbn [negb] in *; [| cbn in Hok; lia].
  destruct (findById_first flows oid old Hfind) as [_ Hold].
  assert (Hnew : f_id (applyUpdate now body old) = oid) by exact Hold.
  exists oid, old, (applyUpdate now body old). cbn [snd].
  split; [reflexivity |]. split; [exact Hfind |]. split; [exact Hown |].
  split; [now apply (findById_updateOne_same oid old) |].
  split; [cbn; now rewrite Hold, Hown |].
  split; [unfold applyUpdate; cbn [f_name];
          destruct (fb_name body) as [n |]; [| reflexivity];
          destruct (truthy (Some n)); reflexivity |].
  split; [reflexivity |]. split; [reflexivity |].
  split; [intros oid' Hne; now apply findById_updateOne_other |].
  now apply map_f_id_updateOne.
Qed.

Lemma update_changes_one_flow_witness :
  let flows := [welcomeFlow; followUpFlow] in
  let flows' := snd (updateFlow toyObjectId true 500 "u1" "11" renameBody flows) in
  (fl_status (fst (updateFlow toyObjectId true 500 "u1" "11" renameBody flows)) = 200 /\
   map f_name flows' = ["Welcome v2"; "Follow up"]) /\
  exists oid old new,
    toyObjectId "11" = Some oid /\
    findById flows oid = Some old /\ f_userId old = "u1" /\
    findById flows' oid = Some new /\
    (f_id new, f_userId new, f_createdAt new, f_updatedAt new)
      = (oid, "u1", f_createdAt old, 500) /\
    f_name new = (if truthy (fb_name renameBody)
                  then match fb_name renameBody with Some n => n | None => f_name old end
                  else f_name old) /\
    f_nodes new
      = (match fb_nodes renameBody with Some n => Some n | None => f_nodes old end) /\
    f_edges new
      = (match fb_edges renameBody with Some e => Some e | None => f_edges old end) /\
    (forall oid', oid' <> oid -> findById flows' oid' = findById flows oid') /\
    map f_id flows' = map f_id flows.
Proof.
  cbv zeta. split; [split; reflexivity |].
  apply (update_changes_one_flow toyObjectId true 500 "u1" "11" renameBody
           [welcomeFlow; followUpFlow]).
  reflexivity.
Defined.
